(** * Undo/redo actions of the timeline: pitivi/undo/timeline.py

    A shallow embedding of the reversible actions, of the two snapshot
    trackers (child properties, keyframes) and of the track-element and
    control-source callbacks of [TimelineObserver], together with the
    properties the design document states about them.

    The timeline objects (GES layers, clips, track elements, control
    sources) live in a store indexed by object handles.  Python code runs
    in a state-and-exception monad over that store: an exception leaves
    the mutations made before it in place, as in Python.  GObject signal
    connections are an explicit table; a mutation of the model emits its
    signal and runs the connected callbacks of this file. *)

From Stdlib Require Import Ascii.
From stdpp Require Import gmap strings list fin_maps.

Set Default Proof Using "Type".
Open Scope string_scope.
Open Scope list_scope.

(** ** Values and the objects of the edited timeline *)

(** A GValue as it crosses the binding: the property values the actions
    copy around.  [GNone] is Python's [None]. *)
Inductive GValue :=
| GInt (n : Z)
| GBool (b : bool)
| GStr (s : string)
| GNone.

#[global] Instance GValue_eq_dec : EqDecision GValue.
Proof. solve_decision. Defined.

(** A GParamSpec of a child property: [pspec.owner_type.name],
    [pspec.name] and [pspec.flags & GObject.PARAM_WRITABLE]. *)
Record PSpec := {
  ps_owner : string;
  ps_name : string;
  ps_writable : bool
}.

#[global] Instance PSpec_eq_dec : EqDecision PSpec.
Proof. solve_decision. Defined.

(** A GstTimedValue: the timestamp is a guint64, the value a double that
    is only stored and copied here, never computed with. *)
Record Keyframe := {
  kf_timestamp : N;
  kf_value : Z
}.

#[global] Instance Keyframe_eq_dec : EqDecision Keyframe.
Proof. solve_decision. Defined.

(** A GstControlBinding: [binding.props.name] and
    [binding.props.control_source]. *)
Record ControlBinding := {
  cb_name : string;
  cb_control_source : nat
}.

#[global] Instance ControlBinding_eq_dec : EqDecision ControlBinding.
Proof. solve_decision. Defined.

(** The classes the observer tests with [isinstance]. *)
Inductive TEKind := BaseEffect | VideoSource | OtherTrackElement.

#[global] Instance TEKind_eq_dec : EqDecision TEKind.
Proof. solve_decision. Defined.

(** A GES.TrackElement.  [te_children_props] is what
    [list_children_properties] enumerates, each with its live value;
    [te_bindings] is [get_all_control_bindings()], keyed by the name the
    binding was installed under. *)
Record TrackElement := {
  te_asset : nat;
  te_kind : TEKind;
  te_track : option nat;
  te_children_props : list (PSpec * GValue);
  te_active : bool;
  te_bindings : list (string * ControlBinding)
}.

#[global] Instance TrackElement_eq_dec : EqDecision TrackElement.
Proof. solve_decision. Defined.

#[global] Instance TrackElement_inhabited : Inhabited TrackElement :=
  populate {| te_asset := 0; te_kind := OtherTrackElement; te_track := None;
              te_children_props := []; te_active := true; te_bindings := [] |}.

(** A GES.Clip.  [c_name] is the serial of the generated name,
    [c_layer] the layer the clip sits in, [c_children] its track elements
    in order, [c_props] its GObject properties by canonical name. *)
Record Clip := {
  c_name : nat;
  c_layer : option nat;
  c_children : list nat;
  c_props : gmap string GValue;
  c_transition : bool
}.

#[global] Instance Clip_inhabited : Inhabited Clip :=
  populate {| c_name := 0; c_layer := None; c_children := [];
              c_props := ∅; c_transition := false |}.

(** A GES.Layer: its priority, its auto-transition flag and the timeline
    it belongs to ([get_timeline()]). *)
Record Layer := {
  ly_priority : N;
  ly_auto_transition : bool;
  ly_timeline : option nat
}.

#[global] Instance Layer_eq_dec : EqDecision Layer.
Proof. solve_decision. Defined.

#[global] Instance Layer_inhabited : Inhabited Layer :=
  populate {| ly_priority := 0%N; ly_auto_transition := false;
              ly_timeline := None |}.

(** A GES.Timeline, seen through the pipeline of its project: the number
    of structural commits requested so far. *)
Record Timeline := {
  tl_commits : nat
}.

#[global] Instance Timeline_inhabited : Inhabited Timeline :=
  populate {| tl_commits := 0 |}.

(** The edited model.  [m_assets] gives, for an asset, the track element
    its extraction yields; [m_sources] gives each control source as its
    timestamp-indexed values. *)
Record Model := {
  m_timelines : gmap nat Timeline;
  m_layers : gmap nat Layer;
  m_clips : gmap nat Clip;
  m_elements : gmap nat TrackElement;
  m_sources : gmap nat (gmap N Z);
  m_assets : gmap nat TrackElement
}.

(** ** GObject signals *)

Inductive ObjRef :=
| OTrackElement (i : nat)
| OClip (i : nat)
| OControlSource (i : nat)
| OKeyframeTracker (i : nat).

#[global] Instance ObjRef_eq_dec : EqDecision ObjRef.
Proof. solve_decision. Defined.

Inductive Signal :=
| notify_track
| deep_notify
| control_binding_added
| child_added
| child_removed
| value_added
| value_removed
| value_changed
| keyframe_moved.

#[global] Instance Signal_eq_dec : EqDecision Signal.
Proof. solve_decision. Defined.

(** The bound methods this file connects.  The child-property tracker and
    the observer are single objects; a keyframe tracker is one object per
    control source, so its bound methods carry the tracker's handle. *)
Inductive Callback :=
| CPT_trackElementTrackSetCb
| CPT_propertyChangedCb
| KCT_keyframeAddedCb (tracker : nat)
| KCT_keyframeRemovedCb (tracker : nat)
| KCT_keyframeMovedCb (tracker : nat)
| TO_controlBindingAddedCb
| TO_clipTrackElementAddedCb
| TO_clipTrackElementRemovedCb
| TO_controlSourceKeyFrameAddedCb
| TO_controlSourceKeyFrameRemovedCb
| TO_controlSourceKeyFrameMovedCb.

#[global] Instance Callback_eq_dec : EqDecision Callback.
Proof. solve_decision. Defined.

(** One [connect]: the handler id, the emitting object, the signal, the
    callback, and the user data given to [connect] (the observer passes
    the track element and the binding name). *)
Record Connection := {
  cn_id : nat;
  cn_obj : ObjRef;
  cn_signal : Signal;
  cn_callback : Callback;
  cn_data : option (nat * string)
}.

#[global] Instance Connection_eq_dec : EqDecision Connection.
Proof. solve_decision. Defined.

(** What an emission hands to the callbacks. *)
Inductive SignalArgs :=
| ArgsNone
| ArgsPSpec (pspec : PSpec)
| ArgsTrackElement (track_element : nat)
| ArgsBinding (binding : ControlBinding)
| ArgsKeyframe (keyframe : Keyframe)
| ArgsKeyframeMoved (control_source : nat) (keyframe : Keyframe)
                    (old_snapshot new_snapshot : N * Z).

(** ** The objects of this module *)

(** Python exceptions the code meets. *)
Inductive PyExc := KeyError | TypeError | AttributeError.

#[global] Instance PyExc_eq_dec : EqDecision PyExc.
Proof. solve_decision. Defined.

(** A KeyframeChangeTracker: [self.keyframes] and [self.control_source],
    both [None] after [__init__]. *)
Record KeyframeChangeTracker := {
  kt_keyframes : option (gmap N (N * Z));
  kt_control_source : option nat
}.

#[global] Instance KeyframeChangeTracker_inhabited :
  Inhabited KeyframeChangeTracker :=
  populate {| kt_keyframes := None; kt_control_source := None |}.

(** Modelled from the spec: the base class UndoableAction is outside this
    file.  The design document gives every action three states; [_done]
    marks the action done and [_undone] marks it undone. *)
Inductive ActionState := Pending | Done | Undone.

#[global] Instance ActionState_eq_dec : EqDecision ActionState.
Proof. solve_decision. Defined.

(** [self._props_changed] of the track-element actions: the empty list
    or the very dictionary the child-property tracker holds for an
    element (an alias, not a copy). *)
Inductive PropsChanged :=
| NoPropsChanged
| TrackedPropsOf (track_element : nat).

(** The attributes of each action class, under the names of the source. *)
Inductive ActionFields :=
| TrackElementPropertyChanged (track_element : nat) (property_name : string)
    (old_value new_value : GValue)
| TrackElementAdded (clip : nat) (track_element : option nat) (asset : nat)
    (track_element_props : list (string * GValue))
    (props_changed : PropsChanged)
| TrackElementRemoved (clip : nat) (track_element : option nat) (asset : nat)
    (track_element_props : list (string * GValue))
    (props_changed : PropsChanged)
| ClipPropertyChanged (clip : nat) (property_name : string)
    (old_value new_value : GValue)
| ClipAdded (layer clip : nat)
| ClipRemoved (layer clip : nat)
| LayerAdded (ges_timeline ges_layer : nat)
| LayerRemoved (ges_timeline ges_layer : nat)
| LayerMoved (ges_layer : nat) (old_priority priority : N)
| ControlSourceValueAdded (track_element control_source : nat)
    (keyframe : Keyframe) (property_name : string)
| ControlSourceValueRemoved (track_element control_source : nat)
    (keyframe : Keyframe) (property_name : string)
| ControlSourceKeyframeChanged (control_source : nat)
    (old_snapshot new_snapshot : N * Z)
| ActivePropertyChanged (effect_action : nat) (active : bool).

Record Action := {
  a_state : ActionState;
  a_fields : ActionFields
}.

#[global] Instance Action_inhabited : Inhabited Action :=
  populate {| a_state := Pending; a_fields := LayerMoved 0 0%N 0%N |}.

(** Lines written by [self.debug]. *)
Inductive LogMsg :=
| MsgPropertyControlled (pspec_name : string)
| MsgRemovedFrom (track_element clip : nat)
| MsgControlSourceAlreadyDisconnected (control_source : nat).

(** ** The world

    [w_tracked_track_elements] is the dictionary of the observer's
    [children_props_tracker]; [w_control_source_keyframe_trackers] is the
    observer's dictionary of the same name, holding handles into
    [w_keyframe_trackers]; [w_actions] is the heap of action objects and
    [w_action_log] the actions handed to [action_log.push], oldest first;
    [w_scenario] records the calls of [app.write_action]. *)
Record World := {
  w_model : Model;
  w_connections : list Connection;
  w_next_id : nat;
  w_tracked_track_elements : gmap nat (gmap string GValue);
  w_keyframe_trackers : gmap nat KeyframeChangeTracker;
  w_control_source_keyframe_trackers : gmap nat nat;
  w_actions : gmap nat Action;
  w_action_log : list nat;
  w_debug : list LogMsg;
  w_scenario : list (nat * string)
}.

(** Field updates. *)
Definition with_timelines (f : gmap nat Timeline -> gmap nat Timeline)
    (m : Model) : Model :=
  {| m_timelines := f (m_timelines m); m_layers := m_layers m;
     m_clips := m_clips m; m_elements := m_elements m;
     m_sources := m_sources m; m_assets := m_assets m |}.

Definition with_layers (f : gmap nat Layer -> gmap nat Layer)
    (m : Model) : Model :=
  {| m_timelines := m_timelines m; m_layers := f (m_layers m);
     m_clips := m_clips m; m_elements := m_elements m;
     m_sources := m_sources m; m_assets := m_assets m |}.

Definition with_clips (f : gmap nat Clip -> gmap nat Clip)
    (m : Model) : Model :=
  {| m_timelines := m_timelines m; m_layers := m_layers m;
     m_clips := f (m_clips m); m_elements := m_elements m;
     m_sources := m_sources m; m_assets := m_assets m |}.

Definition with_elements (f : gmap nat TrackElement -> gmap nat TrackElement)
    (m : Model) : Model :=
  {| m_timelines := m_timelines m; m_layers := m_layers m;
     m_clips := m_clips m; m_elements := f (m_elements m);
     m_sources := m_sources m; m_assets := m_assets m |}.

Definition with_sources (f : gmap nat (gmap N Z) -> gmap nat (gmap N Z))
    (m : Model) : Model :=
  {| m_timelines := m_timelines m; m_layers := m_layers m;
     m_clips := m_clips m; m_elements := m_elements m;
     m_sources := f (m_sources m); m_assets := m_assets m |}.

Definition with_model (f : Model -> Model) (w : World) : World :=
  {| w_model := f (w_model w); w_connections := w_connections w;
     w_next_id := w_next_id w;
     w_tracked_track_elements := w_tracked_track_elements w;
     w_keyframe_trackers := w_keyframe_trackers w;
     w_control_source_keyframe_trackers :=
       w_control_source_keyframe_trackers w;
     w_actions := w_actions w; w_action_log := w_action_log w;
     w_debug := w_debug w; w_scenario := w_scenario w |}.

Definition with_connections (f : list Connection -> list Connection)
    (w : World) : World :=
  {| w_model := w_model w; w_connections := f (w_connections w);
     w_next_id := w_next_id w;
     w_tracked_track_elements := w_tracked_track_elements w;
     w_keyframe_trackers := w_keyframe_trackers w;
     w_control_source_keyframe_trackers :=
       w_control_source_keyframe_trackers w;
     w_actions := w_actions w; w_action_log := w_action_log w;
     w_debug := w_debug w; w_scenario := w_scenario w |}.

Definition with_next_id (f : nat -> nat) (w : World) : World :=
  {| w_model := w_model w; w_connections := w_connections w;
     w_next_id := f (w_next_id w);
     w_tracked_track_elements := w_tracked_track_elements w;
     w_keyframe_trackers := w_keyframe_trackers w;
     w_control_source_keyframe_trackers :=
       w_control_source_keyframe_trackers w;
     w_actions := w_actions w; w_action_log := w_action_log w;
     w_debug := w_debug w; w_scenario := w_scenario w |}.

Definition with_tracked_track_elements
    (f : gmap nat (gmap string GValue) -> gmap nat (gmap string GValue))
    (w : World) : World :=
  {| w_model := w_model w; w_connections := w_connections w;
     w_next_id := w_next_id w;
     w_tracked_track_elements := f (w_tracked_track_elements w);
     w_keyframe_trackers := w_keyframe_trackers w;
     w_control_source_keyframe_trackers :=
       w_control_source_keyframe_trackers w;
     w_actions := w_actions w; w_action_log := w_action_log w;
     w_debug := w_debug w; w_scenario := w_scenario w |}.

Definition with_keyframe_trackers
    (f : gmap nat KeyframeChangeTracker -> gmap nat KeyframeChangeTracker)
    (w : World) : World :=
  {| w_model := w_model w; w_connections := w_connections w;
     w_next_id := w_next_id w;
     w_tracked_track_elements := w_tracked_track_elements w;
     w_keyframe_trackers := f (w_keyframe_trackers w);
     w_control_source_keyframe_trackers :=
       w_control_source_keyframe_trackers w;
     w_actions := w_actions w; w_action_log := w_action_log w;
     w_debug := w_debug w; w_scenario := w_scenario w |}.

Definition with_control_source_keyframe_trackers
    (f : gmap nat nat -> gmap nat nat) (w : World) : World :=
  {| w_model := w_model w; w_connections := w_connections w;
     w_next_id := w_next_id w;
     w_tracked_track_elements := w_tracked_track_elements w;
     w_keyframe_trackers := w_keyframe_trackers w;
     w_control_source_keyframe_trackers :=
       f (w_control_source_keyframe_trackers w);
     w_actions := w_actions w; w_action_log := w_action_log w;
     w_debug := w_debug w; w_scenario := w_scenario w |}.

Definition with_actions (f : gmap nat Action -> gmap nat Action)
    (w : World) : World :=
  {| w_model := w_model w; w_connections := w_connections w;
     w_next_id := w_next_id w;
     w_tracked_track_elements := w_tracked_track_elements w;
     w_keyframe_trackers := w_keyframe_trackers w;
     w_control_source_keyframe_trackers :=
       w_control_source_keyframe_trackers w;
     w_actions := f (w_actions w); w_action_log := w_action_log w;
     w_debug := w_debug w; w_scenario := w_scenario w |}.

Definition with_action_log (f : list nat -> list nat) (w : World) : World :=
  {| w_model := w_model w; w_connections := w_connections w;
     w_next_id := w_next_id w;
     w_tracked_track_elements := w_tracked_track_elements w;
     w_keyframe_trackers := w_keyframe_trackers w;
     w_control_source_keyframe_trackers :=
       w_control_source_keyframe_trackers w;
     w_actions := w_actions w; w_action_log := f (w_action_log w);
     w_debug := w_debug w; w_scenario := w_scenario w |}.

Definition with_debug (f : list LogMsg -> list LogMsg) (w : World) : World :=
  {| w_model := w_model w; w_connections := w_connections w;
     w_next_id := w_next_id w;
     w_tracked_track_elements := w_tracked_track_elements w;
     w_keyframe_trackers := w_keyframe_trackers w;
     w_control_source_keyframe_trackers :=
       w_control_source_keyframe_trackers w;
     w_actions := w_actions w; w_action_log := w_action_log w;
     w_debug := f (w_debug w); w_scenario := w_scenario w |}.

Definition with_scenario (f : list (nat * string) -> list (nat * string))
    (w : World) : World :=
  {| w_model := w_model w; w_connections := w_connections w;
     w_next_id := w_next_id w;
     w_tracked_track_elements := w_tracked_track_elements w;
     w_keyframe_trackers := w_keyframe_trackers w;
     w_control_source_keyframe_trackers :=
       w_control_source_keyframe_trackers w;
     w_actions := w_actions w; w_action_log := w_action_log w;
     w_debug := w_debug w; w_scenario := f (w_scenario w) |}.

(** ** Python statements as a state-and-exception monad *)

Inductive Outcome (A : Type) :=
| Ok (a : A)
| Raise (e : PyExc).

Arguments Ok {A} a.
Arguments Raise {A} e.

Definition M (A : Type) : Type := World -> Outcome A * World.

Definition ret {A} (a : A) : M A := fun w => (Ok a, w).

Definition bind {A B} (m : M A) (k : A -> M B) : M B :=
  fun w =>
    match m w with
    | (Ok a, w') => k a w'
    | (Raise e, w') => (Raise e, w')
    end.

Definition raise {A} (e : PyExc) : M A := fun w => (Raise e, w).

Declare Scope py_scope.
Delimit Scope py_scope with py.
Notation "x <- m ;; k" := (bind m (fun x => k))
  (at level 100, m at next level, right associativity) : py_scope.
Notation "m ;; k" := (bind m (fun _ => k))
  (at level 100, right associativity) : py_scope.
Open Scope py_scope.

Definition get : M World := fun w => (Ok w, w).

Definition modify (f : World -> World) : M unit := fun w => (Ok tt, f w).

(** [try: body except exc: handler]. *)
Definition try_except (body : M unit) (exc : PyExc) (handler : M unit)
    : M unit :=
  fun w =>
    match body w with
    | (Ok a, w') => (Ok a, w')
    | (Raise e, w') =>
        if decide (e = exc) then handler w' else (Raise e, w')
    end.

(** [for x in l: body x]. *)
Fixpoint for_each {A} (l : list A) (body : A -> M unit) : M unit :=
  match l with
  | [] => ret tt
  | x :: l' => body x ;; for_each l' body
  end.

(** The world a computation leaves, and whether it returned. *)
Definition exec {A} (m : M A) (w : World) : World := snd (m w).

Definition returns {A} (m : M A) (w : World) : Prop :=
  exists a, fst (m w) = Ok a.

(** A new object handle. *)
Definition fresh_id : M nat :=
  fun w => (Ok (w_next_id w), with_next_id S w).

Definition debug (msg : LogMsg) : M unit :=
  modify (with_debug (fun l => l ++ [msg])).

(** Modelled from the spec: the action log is outside this file; the
    core hands it actions through [push(action)].  The log is kept as
    the sequence of actions pushed. *)
Definition action_log_push (action : nat) : M unit :=
  modify (with_action_log (fun l => l ++ [action])).

(** Allocation of an action object; [UndoableAction.__init__] leaves it
    pending. *)
Definition new_action (fields : ActionFields) : M nat :=
  a <- fresh_id ;;
  modify (with_actions <[a := {| a_state := Pending; a_fields := fields |}]>) ;;
  ret a.

(** ** Signal connections *)

(** [obj.connect(signal, callback, *data)]. *)
Definition connect (obj : ObjRef) (signal : Signal) (callback : Callback)
    (data : option (nat * string)) : M unit :=
  h <- fresh_id ;;
  modify (with_connections (fun l =>
    l ++ [{| cn_id := h; cn_obj := obj; cn_signal := signal;
             cn_callback := callback; cn_data := data |}])).

Definition connected_to (obj : ObjRef) (callback : Callback)
    (c : Connection) : bool :=
  bool_decide (cn_obj c = obj) && bool_decide (cn_callback c = callback).

(** Removal of the first connection that satisfies [p]. *)
Fixpoint remove_first (p : Connection -> bool) (l : list Connection)
    : option (list Connection) :=
  match l with
  | [] => None
  | c :: l' =>
      if p c then Some l'
      else match remove_first p l' with
           | Some r => Some (c :: r)
           | None => None
           end
  end.

(** [obj.disconnect_by_func(callback)]: PyGObject raises [TypeError]
    ("nothing connected") when the object has no connection of that
    callback, and otherwise drops one. *)
Definition disconnect_by_func (obj : ObjRef) (callback : Callback) : M unit :=
  w <- get ;;
  match remove_first (connected_to obj callback) (w_connections w) with
  | None => raise TypeError
  | Some l => modify (with_connections (fun _ => l))
  end.

(** The connections an emission of [signal] on [obj] reaches. *)
Definition listens (obj : ObjRef) (signal : Signal) (c : Connection) : bool :=
  bool_decide (cn_obj c = obj) && bool_decide (cn_signal c = signal).

Definition still_connected (c : Connection) (w : World) : bool :=
  bool_decide (cn_id c ∈ map cn_id (w_connections w)).

(** An emission runs the callbacks connected when it starts, in
    connection order, skipping one that was disconnected meanwhile.  An
    exception raised by a Python callback is reported and does not reach
    the emitter. *)
Definition emit_with (run : Connection -> SignalArgs -> M unit)
    (obj : ObjRef) (signal : Signal) (args : SignalArgs) : M unit :=
  fun w =>
    (Ok tt,
     fold_left
       (fun w' c => if still_connected c w' then exec (run c args) w' else w')
       (filter (fun c => listens obj signal c = true) (w_connections w)) w).

(** ** Reading the model *)

Definition element (w : World) (e : nat) : TrackElement :=
  m_elements (w_model w) !!! e.

Definition clip_of (w : World) (c : nat) : Clip := m_clips (w_model w) !!! c.

Definition layer_of (w : World) (l : nat) : Layer := m_layers (w_model w) !!! l.

Definition source_of (w : World) (cs : nat) : gmap N Z :=
  m_sources (w_model w) !!! cs.

Definition action_of (w : World) (a : nat) : Action := w_actions w !!! a.

Definition tracker_of (w : World) (k : nat) : KeyframeChangeTracker :=
  w_keyframe_trackers w !!! k.

(** [child_property_name(pspec)]. *)
Definition child_property_name (pspec : PSpec) : string :=
  ps_owner pspec +:+ "::" +:+ ps_name pspec.

(** [track_element.list_children_properties()]. *)
Definition list_children_properties (te : TrackElement) : list PSpec :=
  map fst (te_children_props te).

(** GES finds a child property by its qualified name; the first
    registered one wins. *)
Fixpoint lookup_child (name : string) (l : list (PSpec * GValue))
    : option (PSpec * GValue) :=
  match l with
  | [] => None
  | (p, v) :: l' =>
      if decide (child_property_name p = name) then Some (p, v)
      else lookup_child name l'
  end.

(** [track_element.get_child_property(name)]: the pair (found, value). *)
Definition get_child_property (te : TrackElement) (name : string)
    : bool * GValue :=
  match lookup_child name (te_children_props te) with
  | Some (_, v) => (true, v)
  | None => (false, GNone)
  end.

(** The write behind [set_child_property]: the property found by
    [lookup_child] takes the value when it is writable; GObject refuses
    the write otherwise.  The result names the property written. *)
Fixpoint store_child (name : string) (v : GValue) (l : list (PSpec * GValue))
    : list (PSpec * GValue) * option PSpec :=
  match l with
  | [] => ([], None)
  | (p, old) :: l' =>
      if decide (child_property_name p = name) then
        if ps_writable p then ((p, v) :: l', Some p)
        else ((p, old) :: l', None)
      else
        let '(r, written) := store_child name v l' in ((p, old) :: r, written)
  end.

(** ** What is observed of the edited model

    A clip is observed with its layer, its properties and its track
    elements in order, each with all it holds (asset, kind, track, child
    properties and their values, active flag, control bindings).  The
    handle of a track element and the generated name of a clip are names
    for objects, not part of what they hold, and are not compared. *)
Record ObservedClip := {
  oc_layer : option nat;
  oc_props : gmap string GValue;
  oc_transition : bool;
  oc_children : list TrackElement
}.

Definition observed_clip (w : World) (c : nat) : ObservedClip :=
  {| oc_layer := c_layer (clip_of w c);
     oc_props := c_props (clip_of w c);
     oc_transition := c_transition (clip_of w c);
     oc_children := map (element w) (c_children (clip_of w c)) |}.

(** Two worlds show the same layers (priority, timeline), the same clips
    and the same keyframes in every control source. *)
Definition observably_equal (w w' : World) : Prop :=
  (forall l, layer_of w l = layer_of w' l) /\
  (forall c, observed_clip w c = observed_clip w' c) /\
  (forall cs, source_of w cs = source_of w' cs).

(** [track_element.get_control_binding(name)]. *)
Fixpoint get_control_binding (name : string)
    (l : list (string * ControlBinding)) : option ControlBinding :=
  match l with
  | [] => None
  | (n, b) :: l' =>
      if decide (n = name) then Some b else get_control_binding name l'
  end.

(** [control_source.get_all()]. *)
Definition get_all (w : World) (cs : nat) : list Keyframe :=
  map (fun tv => {| kf_timestamp := fst tv; kf_value := snd tv |})
      (map_to_list (source_of w cs)).

(** ** A small project used in the examples

    Timeline 0 holds layer 1, which holds clip 2.  Asset 3 yields an
    alpha effect with two writable child properties (one of them on the
    ignore list) and a read-only one.  The observer listens to the
    additions and removals of track elements of clip 2. *)

Definition alpha : PSpec :=
  {| ps_owner := "GstAlpha"; ps_name := "alpha"; ps_writable := true |}.

Definition qos : PSpec :=
  {| ps_owner := "GstAlpha"; ps_name := "qos"; ps_writable := true |}.

Definition angle : PSpec :=
  {| ps_owner := "GstAlpha"; ps_name := "angle"; ps_writable := false |}.

Definition ignored : list string := ["name"; "qos"; "silent"; "message"].

Definition alpha_effect : TrackElement :=
  {| te_asset := 3; te_kind := BaseEffect; te_track := Some 7;
     te_children_props := [(alpha, GInt 1); (qos, GBool false); (angle, GInt 5)];
     te_active := true; te_bindings := [] |}.

Definition studio_clip (children : list nat) : Clip :=
  {| c_name := 0; c_layer := Some 1; c_children := children;
     c_props := {[ "start" := GInt 0; "duration" := GInt 10;
                   "in-point" := GInt 0; "priority" := GInt 0 ]};
     c_transition := false |}.

Definition studio_model_of (effect : TrackElement) (children : list nat)
    (elements : gmap nat TrackElement) : Model :=
  {| m_timelines := {[ 0 := {| tl_commits := 0 |} ]};
     m_layers := {[ 1 := {| ly_priority := 0%N; ly_auto_transition := false;
                            ly_timeline := Some 0 |} ]};
     m_clips := {[ 2 := studio_clip children ]};
     m_elements := elements;
     m_sources := {[ 5 := {[ 0%N := 3%Z ]} ]};
     m_assets := {[ 3 := effect ]} |}.

Definition studio_model : list nat -> gmap nat TrackElement -> Model :=
  studio_model_of alpha_effect.

Definition clip_listeners : list Connection :=
  [ {| cn_id := 8; cn_obj := OClip 2; cn_signal := child_added;
       cn_callback := TO_clipTrackElementAddedCb; cn_data := None |};
    {| cn_id := 9; cn_obj := OClip 2; cn_signal := child_removed;
       cn_callback := TO_clipTrackElementRemovedCb; cn_data := None |} ].

(** The project before any effect is added. *)
Definition studio : World :=
  {| w_model := studio_model [] ∅;
     w_connections := clip_listeners;
     w_next_id := 10;
     w_tracked_track_elements := ∅;
     w_keyframe_trackers := ∅;
     w_control_source_keyframe_trackers := ∅;
     w_actions := ∅;
     w_action_log := [];
     w_debug := [];
     w_scenario := [] |}.

(** The project after the effect of asset 3 was added to clip 2: the
    effect is track element 10, the observer tracks it and has pushed
    action 13. *)
Definition studio_with_effect : World :=
  {| w_model := studio_model [10] {[ 10 := alpha_effect ]};
     w_connections :=
       clip_listeners ++
       [ {| cn_id := 11; cn_obj := OTrackElement 10;
            cn_signal := control_binding_added;
            cn_callback := TO_controlBindingAddedCb; cn_data := None |};
         {| cn_id := 12; cn_obj := OTrackElement 10; cn_signal := deep_notify;
            cn_callback := CPT_propertyChangedCb; cn_data := None |} ];
     w_next_id := 14;
     w_tracked_track_elements :=
       {[ 10 := {[ "GstAlpha::alpha" := GInt 1; "GstAlpha::angle" := GInt 5 ]} ]};
     w_keyframe_trackers := ∅;
     w_control_source_keyframe_trackers := ∅;
     w_actions :=
       {[ 13 := {| a_state := Pending;
                   a_fields := TrackElementAdded 2 (Some 10) 3 []
                                 NoPropsChanged |} ]};
     w_action_log := [13];
     w_debug := [];
     w_scenario := [] |}.

Definition alpha_binding : ControlBinding :=
  {| cb_name := "alpha"; cb_control_source := 5 |}.

(** The same project once the alpha property of the effect is animated:
    a binding to control source 5 is registered under the name of the
    property, as [set_control_source] registers it. *)
Definition animated_effect : TrackElement :=
  {| te_asset := 3; te_kind := BaseEffect; te_track := Some 7;
     te_children_props := [(alpha, GInt 1); (qos, GBool false); (angle, GInt 5)];
     te_active := true;
     te_bindings := [("alpha", alpha_binding)] |}.

Definition studio_animated : World :=
  with_model (with_elements <[10 := animated_effect]>) studio_with_effect.

(** The effect of asset 3 when GES has not attached it to a track, and
    the project after such an effect was added to clip 2: the observer
    has connected to the element but the child-property tracker waits for
    the track. *)
Definition unattached_effect : TrackElement :=
  {| te_asset := 3; te_kind := BaseEffect; te_track := None;
     te_children_props := [(alpha, GInt 1); (qos, GBool false); (angle, GInt 5)];
     te_active := true; te_bindings := [] |}.

Definition studio_unattached : World :=
  {| w_model := studio_model_of unattached_effect [10]
                  {[ 10 := unattached_effect ]};
     w_connections :=
       clip_listeners ++
       [ {| cn_id := 11; cn_obj := OTrackElement 10;
            cn_signal := control_binding_added;
            cn_callback := TO_controlBindingAddedCb; cn_data := None |} ];
     w_next_id := 12;
     w_tracked_track_elements := ∅;
     w_keyframe_trackers := ∅;
     w_control_source_keyframe_trackers := ∅;
     w_actions := ∅;
     w_action_log := [];
     w_debug := [];
     w_scenario := [] |}.

(** The project with a second layer (4, outside the timeline), a second
    clip (6, in no layer) and one pending action of every class. *)
Definition pending (fields : ActionFields) : Action :=
  {| a_state := Pending; a_fields := fields |}.

Definition studio_actions : World :=
  with_actions
    (fun actions =>
       <[20 := pending (LayerAdded 0 4)]>
       (<[21 := pending (LayerRemoved 0 1)]>
       (<[22 := pending (LayerMoved 1 0%N 3%N)]>
       (<[23 := pending (ControlSourceValueRemoved 10 5
                  {| kf_timestamp := 0%N; kf_value := 3%Z |} "alpha")]>
       (<[24 := pending (ControlSourceValueAdded 10 5
                  {| kf_timestamp := 1%N; kf_value := 7%Z |} "alpha")]>
       (<[25 := pending (ControlSourceKeyframeChanged 5 (0%N, 3%Z) (0%N, 4%Z))]>
       (<[26 := pending (ActivePropertyChanged 13 true)]>
       (<[27 := pending (ClipPropertyChanged 2 "in-point" (GInt 0) (GInt 2))]>
       (<[28 := pending (ClipAdded 1 6)]>
       (<[29 := pending (ClipRemoved 1 2)]>
       (<[30 := pending (TrackElementPropertyChanged 10 "GstAlpha::alpha"
                  (GInt 1) (GInt 9))]>
       (<[31 := pending (TrackElementRemoved 2 (Some 10) 3 [] NoPropsChanged)]>
        actions))))))))))))
    (with_next_id (fun _ => 40)
       (with_model
          (fun m =>
             with_layers
               <[4 := {| ly_priority := 1%N; ly_auto_transition := false;
                         ly_timeline := None |}]>
               (with_clips
                  <[6 := {| c_name := 1; c_layer := None; c_children := [];
                            c_props := {[ "start" := GInt 0 ]};
                            c_transition := false |}]> m))
          studio_with_effect)).

(** The project after a keyframe of control source 5 went from (0, 3) to
    (1, 7), with an action that records the two snapshots. *)
Definition studio_keyframe_moved : World :=
  with_actions
    <[25 := pending (ControlSourceKeyframeChanged 5 (0%N, 3%Z) (1%N, 7%Z))]>
    (with_model (with_sources <[5 := {[ 1%N := 7%Z ]}]>) studio_actions).

(** The project in which the effect has no track yet, with the action
    the observer pushed when the effect was added. *)
Definition studio_unattached_added : World :=
  with_actions
    <[13 := pending (TrackElementAdded 2 (Some 10) 3 [] NoPropsChanged)]>
    (with_action_log (fun _ => [13])
       (with_next_id (fun _ => 14) studio_unattached)).

Section Timeline.

(** [pitivi.effects.PROPS_TO_IGNORE]: the names of child properties that
    are never tracked.  The constant is defined outside this file; every
    result below holds for any such list. *)
Variable PROPS_TO_IGNORE : list string.

(** ** TrackElementChildPropertyTracker *)

(** The dictionary [properties] built by the loop of
    [_discoverChildProperties]. *)
Definition discovered_properties (te : TrackElement) : gmap string GValue :=
  fold_left
    (fun properties prop =>
       if bool_decide (ps_name prop ∈ PROPS_TO_IGNORE) then properties
       else
         let prop_name := child_property_name prop in
         <[prop_name := snd (get_child_property te prop_name)]> properties)
    (list_children_properties te) ∅.

Definition TrackElementChildPropertyTracker_discoverChildProperties
    (track_element : nat) : M unit :=
  connect (OTrackElement track_element) deep_notify CPT_propertyChangedCb None ;;
  w <- get ;;
  let properties := discovered_properties (element w track_element) in
  modify (with_tracked_track_elements <[track_element := properties]>).

Definition TrackElementChildPropertyTracker_addTrackElement
    (track_element : nat) : M unit :=
  w <- get ;;
  if decide (is_Some (w_tracked_track_elements w !! track_element)) then
    ret tt
  else
    match te_track (element w track_element) with
    | None =>
        connect (OTrackElement track_element) notify_track
                CPT_trackElementTrackSetCb None
    | Some _ =>
        TrackElementChildPropertyTracker_discoverChildProperties track_element
    end.

Definition TrackElementChildPropertyTracker_trackElementTrackSetCb
    (track_element : nat) : M unit :=
  TrackElementChildPropertyTracker_discoverChildProperties track_element ;;
  disconnect_by_func (OTrackElement track_element) CPT_trackElementTrackSetCb.

(** [getPropChangedFromTrackElement]: the dictionary itself is returned,
    so the caller holds an alias of the tracker's entry. *)
Definition TrackElementChildPropertyTracker_getPropChangedFromTrackElement
    (track_element : nat) : M PropsChanged :=
  w <- get ;;
  match w_tracked_track_elements w !! track_element with
  | None => raise KeyError
  | Some _ => ret (TrackedPropsOf track_element)
  end.

Definition TrackElementChildPropertyTracker_propertyChangedCb
    (track_element : nat) (pspec : PSpec) : M unit :=
  let pspec_name := child_property_name pspec in
  w <- get ;;
  let te := element w track_element in
  match get_control_binding pspec_name (te_bindings te) with
  | Some _ => debug (MsgPropertyControlled pspec_name)
  | None =>
      match w_tracked_track_elements w !! track_element with
      | None => raise KeyError
      | Some properties =>
          match properties !! pspec_name with
          | None => raise KeyError
          | Some old_value =>
              let new_value := snd (get_child_property te pspec_name) in
              action <- new_action (TrackElementPropertyChanged
                          track_element pspec_name old_value new_value) ;;
              modify (with_tracked_track_elements
                        (alter <[pspec_name := new_value]> track_element)) ;;
              action_log_push action
          end
      end
  end.

(** ** KeyframeChangeTracker *)

Definition KeyframeChangeTracker_getKeyframeSnapshot (keyframe : Keyframe)
    : N * Z :=
  (kf_timestamp keyframe, kf_value keyframe).

(** [_takeCurrentSnapshot] reads [self.control_source], not its argument. *)
Definition KeyframeChangeTracker_takeCurrentSnapshot (self control_source : nat)
    : M (gmap N (N * Z)) :=
  w <- get ;;
  match kt_control_source (tracker_of w self) with
  | None => raise AttributeError
  | Some cs =>
      ret (fold_left
             (fun keyframes keyframe =>
                <[kf_timestamp keyframe :=
                    KeyframeChangeTracker_getKeyframeSnapshot keyframe]>
                  keyframes)
             (get_all w cs) ∅)
  end.

Definition set_kt_control_source (v : option nat) (k : KeyframeChangeTracker)
    : KeyframeChangeTracker :=
  {| kt_keyframes := kt_keyframes k; kt_control_source := v |}.

Definition set_kt_keyframes (v : option (gmap N (N * Z)))
    (k : KeyframeChangeTracker) : KeyframeChangeTracker :=
  {| kt_keyframes := v; kt_control_source := kt_control_source k |}.

Definition update_tracker (self : nat)
    (f : KeyframeChangeTracker -> KeyframeChangeTracker) : M unit :=
  modify (fun w =>
    with_keyframe_trackers <[self := f (tracker_of w self)]> w).

Definition KeyframeChangeTracker_connectToObject (self control_source : nat)
    : M unit :=
  update_tracker self (set_kt_control_source (Some control_source)) ;;
  snapshot <- KeyframeChangeTracker_takeCurrentSnapshot self control_source ;;
  update_tracker self (set_kt_keyframes (Some snapshot)) ;;
  connect (OControlSource control_source) value_added
          (KCT_keyframeAddedCb self) None ;;
  connect (OControlSource control_source) value_removed
          (KCT_keyframeRemovedCb self) None ;;
  connect (OControlSource control_source) value_changed
          (KCT_keyframeMovedCb self) None.

Definition KeyframeChangeTracker_disconnectFromObject
    (self control_source : nat) : M unit :=
  update_tracker self (set_kt_control_source None) ;;
  disconnect_by_func (OControlSource control_source) (KCT_keyframeMovedCb self).

Definition KeyframeChangeTracker_keyframeAddedCb (self control_source : nat)
    (keyframe : Keyframe) : M unit :=
  w <- get ;;
  match kt_keyframes (tracker_of w self) with
  | None => raise TypeError
  | Some keyframes =>
      update_tracker self (set_kt_keyframes (Some
        (<[kf_timestamp keyframe :=
             KeyframeChangeTracker_getKeyframeSnapshot keyframe]> keyframes)))
  end.

Definition KeyframeChangeTracker_keyframeRemovedCb (self control_source : nat)
    (keyframe : Keyframe) : M unit :=
  w <- get ;;
  match kt_keyframes (tracker_of w self) with
  | None => raise TypeError
  | Some keyframes =>
      match keyframes !! kf_timestamp keyframe with
      | None => raise KeyError
      | Some _ =>
          update_tracker self (set_kt_keyframes (Some
            (delete (kf_timestamp keyframe) keyframes)))
      end
  end.

(** ** TimelineObserver: control sources and track elements *)

Definition TimelineObserver_controlSourceKeyFrameMovedCb
    (control_source : nat) (keyframe : Keyframe)
    (old_snapshot new_snapshot : N * Z) : M unit :=
  action <- new_action (ControlSourceKeyframeChanged
              control_source old_snapshot new_snapshot) ;;
  action_log_push action.

(** The callbacks of a "keyframe-moved" emission.  Only
    [_controlSourceKeyFrameMovedCb] takes the five arguments of that
    signal; Python raises [TypeError] when it calls any other callback of
    this file with them. *)
Definition run_keyframe_moved_callback (c : Connection) (args : SignalArgs)
    : M unit :=
  match cn_callback c, args with
  | TO_controlSourceKeyFrameMovedCb,
    ArgsKeyframeMoved control_source keyframe old_snapshot new_snapshot =>
      TimelineObserver_controlSourceKeyFrameMovedCb
        control_source keyframe old_snapshot new_snapshot
  | _, _ => raise TypeError
  end.

Definition KeyframeChangeTracker_keyframeMovedCb (self control_source : nat)
    (keyframe : Keyframe) : M unit :=
  w <- get ;;
  match kt_keyframes (tracker_of w self) with
  | None => raise TypeError
  | Some keyframes =>
      match keyframes !! kf_timestamp keyframe with
      | None => raise KeyError
      | Some old_snapshot =>
          let new_snapshot :=
            KeyframeChangeTracker_getKeyframeSnapshot keyframe in
          update_tracker self (set_kt_keyframes (Some
            (<[kf_timestamp keyframe := new_snapshot]> keyframes))) ;;
          emit_with run_keyframe_moved_callback (OKeyframeTracker self)
            keyframe_moved
            (ArgsKeyframeMoved control_source keyframe
               old_snapshot new_snapshot)
      end
  end.

Definition TimelineObserver_connectToControlSource (track_element : nat)
    (binding : ControlBinding) (existed : bool) : M unit :=
  let control_source := cb_control_source binding in
  connect (OControlSource control_source) value_added
          TO_controlSourceKeyFrameAddedCb
          (Some (track_element, cb_name binding)) ;;
  connect (OControlSource control_source) value_removed
          TO_controlSourceKeyFrameRemovedCb
          (Some (track_element, cb_name binding)) ;;
  tracker <- fresh_id ;;
  modify (with_keyframe_trackers
            <[tracker := {| kt_keyframes := None;
                            kt_control_source := None |}]>) ;;
  KeyframeChangeTracker_connectToObject tracker control_source ;;
  connect (OKeyframeTracker tracker) keyframe_moved
          TO_controlSourceKeyFrameMovedCb None ;;
  modify (with_control_source_keyframe_trackers
            <[control_source := tracker]>) ;;
  if existed then ret tt
  else modify (with_scenario
                 (fun l => l ++ [(track_element, cb_name binding)])).

Definition TimelineObserver_disconnectFromControlSource
    (binding : ControlBinding) : M unit :=
  let control_source := cb_control_source binding in
  try_except
    (disconnect_by_func (OControlSource control_source)
                        TO_controlSourceKeyFrameAddedCb ;;
     disconnect_by_func (OControlSource control_source)
                        TO_controlSourceKeyFrameRemovedCb)
    TypeError
    (ret tt) ;;
  try_except
    (w <- get ;;
     match w_control_source_keyframe_trackers w !! control_source with
     | None => raise KeyError
     | Some tracker =>
         modify (with_control_source_keyframe_trackers
                   (delete control_source)) ;;
         KeyframeChangeTracker_disconnectFromObject tracker control_source ;;
         disconnect_by_func (OKeyframeTracker tracker)
                            TO_controlSourceKeyFrameMovedCb
     end)
    KeyError
    (debug (MsgControlSourceAlreadyDisconnected control_source)).

Definition TimelineObserver_controlBindingAddedCb (track_element : nat)
    (binding : ControlBinding) : M unit :=
  TimelineObserver_connectToControlSource track_element binding false.

Definition TimelineObserver_connectToTrackElement (track_element : nat)
    : M unit :=
  w <- get ;;
  for_each (te_bindings (element w track_element))
    (fun item =>
       TimelineObserver_connectToControlSource track_element (snd item) true) ;;
  connect (OTrackElement track_element) control_binding_added
          TO_controlBindingAddedCb None ;;
  match te_kind (element w track_element) with
  | BaseEffect => TrackElementChildPropertyTracker_addTrackElement track_element
  | VideoSource => TrackElementChildPropertyTracker_addTrackElement track_element
  | OtherTrackElement => ret tt
  end.

Definition TimelineObserver_disconnectFromTrackElement (track_element : nat)
    : M unit :=
  w <- get ;;
  for_each (te_bindings (element w track_element))
    (fun item => TimelineObserver_disconnectFromControlSource (snd item)).

(** [TrackElementAdded.__init__] and [TrackElementRemoved.__init__]. *)
Definition TrackElementAdded_init (clip track_element : nat) : M nat :=
  w <- get ;;
  new_action (TrackElementAdded clip (Some track_element)
                (te_asset (element w track_element)) [] NoPropsChanged).

Definition TrackElementRemoved_init (clip track_element : nat) : M nat :=
  w <- get ;;
  new_action (TrackElementRemoved clip (Some track_element)
                (te_asset (element w track_element)) [] NoPropsChanged).

Definition TimelineObserver_clipTrackElementAddedCb (clip track_element : nat)
    : M unit :=
  TimelineObserver_connectToTrackElement track_element ;;
  w <- get ;;
  match te_kind (element w track_element) with
  | BaseEffect =>
      action <- TrackElementAdded_init clip track_element ;;
      action_log_push action
  | _ => ret tt
  end.

Definition TimelineObserver_clipTrackElementRemovedCb
    (clip track_element : nat) : M unit :=
  debug (MsgRemovedFrom track_element clip) ;;
  TimelineObserver_disconnectFromTrackElement track_element ;;
  w <- get ;;
  match te_kind (element w track_element) with
  | BaseEffect =>
      action <- TrackElementRemoved_init clip track_element ;;
      action_log_push action
  | _ => ret tt
  end.

Definition TimelineObserver_controlSourceKeyFrameAddedCb (source : nat)
    (keyframe : Keyframe) (track_element : nat) (property_name : string)
    : M unit :=
  action <- new_action (ControlSourceValueAdded
              track_element source keyframe property_name) ;;
  action_log_push action.

Definition TimelineObserver_controlSourceKeyFrameRemovedCb (source : nat)
    (keyframe : Keyframe) (track_element : nat) (property_name : string)
    : M unit :=
  action <- new_action (ControlSourceValueRemoved
              track_element source keyframe property_name) ;;
  action_log_push action.

(** [ActivePropertyChanged.__init__] keeps [not active]. *)
Definition ActivePropertyChanged_init (effect_action : nat) (active : bool)
    : M nat :=
  new_action (ActivePropertyChanged effect_action (negb active)).

Definition TimelineObserver_trackElementActiveChangedCb (track_element : nat)
    (active : bool) (add_effect_action : nat) : M unit :=
  action <- ActivePropertyChanged_init add_effect_action active ;;
  action_log_push action.

(** ** Dispatch of an emission to the callbacks of this file

    The emitting object is the first argument of the callback.  A
    callback that is connected to a signal it was not written for meets
    arguments it cannot take; that call raises. *)
Definition run_callback (c : Connection) (args : SignalArgs) : M unit :=
  match cn_callback c, cn_obj c, args with
  | CPT_trackElementTrackSetCb, OTrackElement track_element, ArgsNone =>
      TrackElementChildPropertyTracker_trackElementTrackSetCb track_element
  | CPT_propertyChangedCb, OTrackElement track_element, ArgsPSpec pspec =>
      TrackElementChildPropertyTracker_propertyChangedCb track_element pspec
  | KCT_keyframeAddedCb self, OControlSource control_source,
    ArgsKeyframe keyframe =>
      KeyframeChangeTracker_keyframeAddedCb self control_source keyframe
  | KCT_keyframeRemovedCb self, OControlSource control_source,
    ArgsKeyframe keyframe =>
      KeyframeChangeTracker_keyframeRemovedCb self control_source keyframe
  | KCT_keyframeMovedCb self, OControlSource control_source,
    ArgsKeyframe keyframe =>
      KeyframeChangeTracker_keyframeMovedCb self control_source keyframe
  | TO_controlBindingAddedCb, OTrackElement track_element,
    ArgsBinding binding =>
      TimelineObserver_controlBindingAddedCb track_element binding
  | TO_clipTrackElementAddedCb, OClip clip, ArgsTrackElement track_element =>
      TimelineObserver_clipTrackElementAddedCb clip track_element
  | TO_clipTrackElementRemovedCb, OClip clip, ArgsTrackElement track_element =>
      TimelineObserver_clipTrackElementRemovedCb clip track_element
  | TO_controlSourceKeyFrameAddedCb, OControlSource source,
    ArgsKeyframe keyframe =>
      match cn_data c with
      | Some (track_element, property_name) =>
          TimelineObserver_controlSourceKeyFrameAddedCb
            source keyframe track_element property_name
      | None => raise TypeError
      end
  | TO_controlSourceKeyFrameRemovedCb, OControlSource source,
    ArgsKeyframe keyframe =>
      match cn_data c with
      | Some (track_element, property_name) =>
          TimelineObserver_controlSourceKeyFrameRemovedCb
            source keyframe track_element property_name
      | None => raise TypeError
      end
  | TO_controlSourceKeyFrameMovedCb, OKeyframeTracker _,
    ArgsKeyframeMoved control_source keyframe old_snapshot new_snapshot =>
      TimelineObserver_controlSourceKeyFrameMovedCb
        control_source keyframe old_snapshot new_snapshot
  | _, _, _ => raise TypeError
  end.

Definition emit (obj : ObjRef) (signal : Signal) (args : SignalArgs) : M unit :=
  emit_with run_callback obj signal args.

(** ** The operations of the edited model

    Each mutation of a track element, a clip's children or a control
    source emits the signal GES emits for it, and the handlers of this
    file connected to it run.  The signals of the layers and of the
    timeline (notify::priority, clip-added, clip-removed, layer-added,
    layer-removed) are not emitted by the operations below.  Their
    handlers in the observer push to the log, connect further handlers
    and update what the observer remembers, and never write to the
    timeline.  [_layer_moved_cb], [_layerAddedCb] and [_layerRemovedCb]
    are modelled over [Observer] further down, where [notified] runs
    [_layer_moved_cb] after the write of a LayerMoved; [_clipAddedCb] and
    [_clipRemovedCb] build on PropertyChangeTracker, which is not part of
    this file. *)

Definition set_te_children_props (v : list (PSpec * GValue))
    (te : TrackElement) : TrackElement :=
  {| te_asset := te_asset te; te_kind := te_kind te; te_track := te_track te;
     te_children_props := v; te_active := te_active te;
     te_bindings := te_bindings te |}.

Definition set_te_active (v : bool) (te : TrackElement) : TrackElement :=
  {| te_asset := te_asset te; te_kind := te_kind te; te_track := te_track te;
     te_children_props := te_children_props te; te_active := v;
     te_bindings := te_bindings te |}.


Definition set_te_asset (v : nat) (te : TrackElement) : TrackElement :=
  {| te_asset := v; te_kind := te_kind te; te_track := te_track te;
     te_children_props := te_children_props te; te_active := te_active te;
     te_bindings := te_bindings te |}.

Definition set_te_bindings (v : list (string * ControlBinding))
    (te : TrackElement) : TrackElement :=
  {| te_asset := te_asset te; te_kind := te_kind te; te_track := te_track te;
     te_children_props := te_children_props te; te_active := te_active te;
     te_bindings := v |}.

Definition set_c_name (v : nat) (c : Clip) : Clip :=
  {| c_name := v; c_layer := c_layer c; c_children := c_children c;
     c_props := c_props c; c_transition := c_transition c |}.

Definition set_c_layer (v : option nat) (c : Clip) : Clip :=
  {| c_name := c_name c; c_layer := v; c_children := c_children c;
     c_props := c_props c; c_transition := c_transition c |}.

Definition set_c_children (v : list nat) (c : Clip) : Clip :=
  {| c_name := c_name c; c_layer := c_layer c; c_children := v;
     c_props := c_props c; c_transition := c_transition c |}.

Definition set_c_props (v : gmap string GValue) (c : Clip) : Clip :=
  {| c_name := c_name c; c_layer := c_layer c; c_children := c_children c;
     c_props := v; c_transition := c_transition c |}.

Definition set_ly_priority (v : N) (l : Layer) : Layer :=
  {| ly_priority := v; ly_auto_transition := ly_auto_transition l;
     ly_timeline := ly_timeline l |}.

Definition set_ly_timeline (v : option nat) (l : Layer) : Layer :=
  {| ly_priority := ly_priority l; ly_auto_transition := ly_auto_transition l;
     ly_timeline := v |}.

Definition update_element (e : nat) (f : TrackElement -> TrackElement)
    : M unit :=
  modify (fun w => with_model (with_elements <[e := f (element w e)]>) w).

Definition update_clip (c : nat) (f : Clip -> Clip) : M unit :=
  modify (fun w => with_model (with_clips <[c := f (clip_of w c)]>) w).

Definition update_layer (l : nat) (f : Layer -> Layer) : M unit :=
  modify (fun w => with_model (with_layers <[l := f (layer_of w l)]>) w).

(** [track_element.set_child_property(name, value)]. *)
Definition set_child_property (track_element : nat) (name : string)
    (v : GValue) : M unit :=
  w <- get ;;
  let stored := store_child name v (te_children_props (element w track_element)) in
  match snd stored with
  | None => ret tt
  | Some pspec =>
      update_element track_element (set_te_children_props (fst stored)) ;;
      emit (OTrackElement track_element) deep_notify (ArgsPSpec pspec)
  end.

(** [track_element.active = v]. *)
Definition set_active (track_element : nat) (v : bool) : M unit :=
  update_element track_element (set_te_active v).


(** [track_element.set_control_source(source, property_name, "direct")]:
    GES looks the child property up, which may be given by its qualified
    or by its plain name, and does nothing when there is none.  Otherwise
    it creates a binding for [property_name], registers it under that
    name in place of the one registered under it before, if any, and
    announces it. *)
Definition set_control_source (track_element control_source : nat)
    (property_name : string) : M bool :=
  w <- get ;;
  if bool_decide
       (Exists (fun prop => child_property_name prop = property_name \/
                            ps_name prop = property_name)
               (list_children_properties (element w track_element)))
  then
    let binding := {| cb_name := property_name;
                      cb_control_source := control_source |} in
    update_element track_element
      (fun te =>
         set_te_bindings
           ((property_name, binding)
            :: filter (fun kb => fst kb <> property_name) (te_bindings te))
           te) ;;
    emit (OTrackElement track_element) control_binding_added
         (ArgsBinding binding) ;;
    ret true
  else ret false.

(** [clip.add_asset(asset)]: a new track element is extracted from the
    asset and appended to the clip. *)
Definition add_asset (clip asset : nat) : M nat :=
  track_element <- fresh_id ;;
  modify (fun w =>
    with_model (with_elements
      <[track_element := set_te_asset asset (m_assets (w_model w) !!! asset)]>)
      w) ;;
  update_clip clip (fun c => set_c_children (c_children c ++ [track_element]) c) ;;
  emit (OClip clip) child_added (ArgsTrackElement track_element) ;;
  ret track_element.

(** [clip.remove(track_element)]: nothing happens when the element is
    not a child of the clip. *)
Definition remove (clip track_element : nat) : M unit :=
  w <- get ;;
  if decide (track_element ∈ c_children (clip_of w clip)) then
    update_clip clip (fun c =>
      set_c_children (filter (fun e => e ≠ track_element) (c_children c)) c) ;;
    emit (OClip clip) child_removed (ArgsTrackElement track_element)
  else ret tt.

(** [clip.set_name(None)]: GES generates a name it has not used yet. *)
Definition set_name_None (clip : nat) : M unit :=
  serial <- fresh_id ;;
  update_clip clip (set_c_name serial).

(** [str.replace(a, b)] for single characters. *)
Fixpoint replace (a b : ascii) (s : string) : string :=
  match s with
  | EmptyString => EmptyString
  | String c s' => String (if Ascii.eqb c a then b else c) (replace a b s')
  end.

(** [clip.set_property(name, value)]: GObject canonicalises the name
    (underscores become dashes); PyGObject raises [TypeError] when the
    object has no such property. *)
Definition set_property (clip : nat) (name : string) (v : GValue) : M unit :=
  w <- get ;;
  let canonical := replace "_"%char "-"%char name in
  match c_props (clip_of w clip) !! canonical with
  | None => raise TypeError
  | Some _ => update_clip clip (fun c => set_c_props (<[canonical := v]> (c_props c)) c)
  end.

(** [layer.add_clip(clip)]: GES refuses a clip that sits in a layer. *)
Definition add_clip (layer clip : nat) : M unit :=
  w <- get ;;
  match c_layer (clip_of w clip) with
  | None => update_clip clip (set_c_layer (Some layer))
  | Some _ => ret tt
  end.

(** [layer.remove_clip(clip)]: only a clip of this layer is removed. *)
Definition remove_clip (layer clip : nat) : M unit :=
  w <- get ;;
  if decide (c_layer (clip_of w clip) = Some layer) then
    update_clip clip (set_c_layer None)
  else ret tt.

(** [timeline.get_asset().pipeline.commit_timeline()]. *)
Definition commit_timeline (timeline : nat) : M unit :=
  modify (fun w =>
    with_model (with_timelines
      <[timeline := {| tl_commits :=
          S (tl_commits (m_timelines (w_model w) !!! timeline)) |}]>) w).

(** [layer.get_timeline().get_asset().pipeline.commit_timeline()]: a
    layer outside any timeline has [get_timeline()] return [None]. *)
Definition commit_timeline_of_layer (layer : nat) : M unit :=
  w <- get ;;
  match ly_timeline (layer_of w layer) with
  | None => raise AttributeError
  | Some timeline => commit_timeline timeline
  end.

(** [timeline.add_layer(layer)]: GES refuses a layer that belongs to a
    timeline. *)
Definition add_layer (timeline layer : nat) : M unit :=
  w <- get ;;
  match ly_timeline (layer_of w layer) with
  | None => update_layer layer (set_ly_timeline (Some timeline))
  | Some _ => ret tt
  end.

(** [timeline.remove_layer(layer)]: only a layer of this timeline is
    removed; its clips stay in the layer. *)
Definition remove_layer (timeline layer : nat) : M unit :=
  w <- get ;;
  if decide (ly_timeline (layer_of w layer) = Some timeline) then
    update_layer layer (set_ly_timeline None)
  else ret tt.

(** [control_source.set(timestamp, value)]: a value at a timestamp the
    source already has is changed, otherwise it is added. *)
Definition control_source_set (cs : nat) (t : N) (v : Z) : M unit :=
  w <- get ;;
  modify (with_model (with_sources <[cs := <[t := v]> (source_of w cs)]>)) ;;
  emit (OControlSource cs)
       (match source_of w cs !! t with
        | Some _ => value_changed
        | None => value_added
        end)
       (ArgsKeyframe {| kf_timestamp := t; kf_value := v |}).

(** [control_source.unset(timestamp)]. *)
Definition control_source_unset (cs : nat) (t : N) : M unit :=
  w <- get ;;
  match source_of w cs !! t with
  | None => ret tt
  | Some v =>
      modify (with_model (with_sources <[cs := delete t (source_of w cs)]>)) ;;
      emit (OControlSource cs) value_removed
           (ArgsKeyframe {| kf_timestamp := t; kf_value := v |})
  end.

(** ** The actions *)

Definition set_a_state (v : ActionState) (a : Action) : Action :=
  {| a_state := v; a_fields := a_fields a |}.

Definition set_a_fields (v : ActionFields) (a : Action) : Action :=
  {| a_state := a_state a; a_fields := v |}.

Definition update_action (self : nat) (f : Action -> Action) : M unit :=
  modify (fun w => with_actions <[self := f (action_of w self)]> w).

(** Modelled from the spec: [UndoableAction._done] and
    [UndoableAction._undone] are defined outside this file; they mark the
    action done, respectively undone. *)
Definition UndoableAction_done (self : nat) : M unit :=
  update_action self (set_a_state Done).

Definition UndoableAction_undone (self : nat) : M unit :=
  update_action self (set_a_state Undone).

(** Assignments to single attributes of [self]. *)
Definition assign_track_element (v : option nat) (f : ActionFields)
    : ActionFields :=
  match f with
  | TrackElementAdded clip _ asset props changed =>
      TrackElementAdded clip v asset props changed
  | TrackElementRemoved clip _ asset props changed =>
      TrackElementRemoved clip v asset props changed
  | _ => f
  end.

Definition assign_track_element_props (v : list (string * GValue))
    (f : ActionFields) : ActionFields :=
  match f with
  | TrackElementAdded clip te asset _ changed =>
      TrackElementAdded clip te asset v changed
  | TrackElementRemoved clip te asset _ changed =>
      TrackElementRemoved clip te asset v changed
  | _ => f
  end.

Definition assign_props_changed (v : PropsChanged) (f : ActionFields)
    : ActionFields :=
  match f with
  | TrackElementAdded clip te asset props _ =>
      TrackElementAdded clip te asset props v
  | TrackElementRemoved clip te asset props _ =>
      TrackElementRemoved clip te asset props v
  | _ => f
  end.

Definition assign_active (v : bool) (f : ActionFields) : ActionFields :=
  match f with
  | ActivePropertyChanged effect_action _ => ActivePropertyChanged effect_action v
  | _ => f
  end.

Definition assign (self : nat) (f : ActionFields -> ActionFields) : M unit :=
  update_action self (fun a => set_a_fields (f (a_fields a)) a).

(** The list comprehension of [TrackElementAdded.undo] and
    [TrackElementRemoved.do]: name and live value of every child property
    that is writable and not ignored. *)
Definition writable_child_properties (te : TrackElement)
    : list (string * GValue) :=
  map (fun prop =>
         (child_property_name prop,
          snd (get_child_property te (child_property_name prop))))
      (filter (fun prop =>
                 ps_writable prop = true ∧ ps_name prop ∉ PROPS_TO_IGNORE)
              (list_children_properties te)).

(** The body shared by [TrackElementAdded.do] and
    [TrackElementRemoved.undo], up to the state mark. *)
Definition reinstantiate (self clip asset : nat)
    (track_element_props : list (string * GValue)) : M unit :=
  track_element <- add_asset clip asset ;;
  assign self (assign_track_element (Some track_element)) ;;
  for_each track_element_props
    (fun item => set_child_property track_element (fst item) (snd item)) ;;
  assign self (assign_props_changed NoPropsChanged).

(** The body shared by [TrackElementAdded.undo] and
    [TrackElementRemoved.do], up to the state mark. *)
Definition capture_and_remove (self clip : nat) (track_element : option nat)
    : M unit :=
  match track_element with
  | None => raise AttributeError
  | Some track_element =>
      w <- get ;;
      assign self (assign_track_element_props
                     (writable_child_properties (element w track_element))) ;;
      remove clip track_element ;;
      changed <- TrackElementChildPropertyTracker_getPropChangedFromTrackElement
                   track_element ;;
      assign self (assign_props_changed changed) ;;
      assign self (assign_track_element None)
  end.

(** [self.effect_action.track_element]: the attribute exists on the
    actions that keep a track element. *)
Definition track_element_attribute (f : ActionFields) : option nat :=
  match f with
  | TrackElementPropertyChanged track_element _ _ _ => Some track_element
  | TrackElementAdded _ track_element _ _ _ => track_element
  | TrackElementRemoved _ track_element _ _ _ => track_element
  | ControlSourceValueAdded track_element _ _ _ => Some track_element
  | ControlSourceValueRemoved track_element _ _ _ => Some track_element
  | _ => None
  end.

(** The body shared by [ActivePropertyChanged.do] and
    [ActivePropertyChanged.undo], up to the state mark. *)
Definition toggle_active (self effect_action : nat) (active : bool) : M unit :=
  w <- get ;;
  match track_element_attribute (a_fields (action_of w effect_action)) with
  | None => raise AttributeError
  | Some track_element =>
      set_active track_element active ;;
      assign self (assign_active (negb active))
  end.

(** [ControlSourceKeyframeChanged._applySnapshot]. *)
Definition ControlSourceKeyframeChanged_applySnapshot (control_source : nat)
    (snapshot : N * Z) : M unit :=
  let '(time, value) := snapshot in
  control_source_set control_source time value.

(** [action.do()], by the class of the action.  The layer actions write
    through the layer operations above, which notify nobody; [notified]
    adds the notification that follows the write of a LayerMoved on a
    layer the observer is connected to. *)
Definition do (self : nat) : M unit :=
  w <- get ;;
  match a_fields (action_of w self) with
  | TrackElementPropertyChanged track_element property_name _ new_value =>
      set_child_property track_element property_name new_value ;;
      UndoableAction_done self
  | TrackElementAdded clip _ asset track_element_props _ =>
      reinstantiate self clip asset track_element_props ;;
      UndoableAction_done self
  | TrackElementRemoved clip track_element _ _ _ =>
      capture_and_remove self clip track_element ;;
      UndoableAction_done self
  | ClipPropertyChanged clip property_name _ new_value =>
      set_property clip (replace "-"%char "_"%char property_name) new_value ;;
      UndoableAction_done self
  | ClipAdded layer clip =>
      set_name_None clip ;;
      add_clip layer clip ;;
      commit_timeline_of_layer layer ;;
      UndoableAction_done self
  | ClipRemoved layer clip =>
      remove_clip layer clip ;;
      commit_timeline_of_layer layer ;;
      UndoableAction_done self
  | LayerAdded ges_timeline ges_layer =>
      add_layer ges_timeline ges_layer
  | LayerRemoved ges_timeline ges_layer =>
      remove_layer ges_timeline ges_layer ;;
      commit_timeline ges_timeline
  | LayerMoved ges_layer _ priority =>
      update_layer ges_layer (set_ly_priority priority)
  | ControlSourceValueAdded _ control_source keyframe _ =>
      control_source_set control_source
        (kf_timestamp keyframe) (kf_value keyframe) ;;
      UndoableAction_done self
  | ControlSourceValueRemoved _ control_source keyframe _ =>
      control_source_unset control_source (kf_timestamp keyframe) ;;
      UndoableAction_undone self
  | ControlSourceKeyframeChanged control_source _ new_snapshot =>
      ControlSourceKeyframeChanged_applySnapshot control_source new_snapshot ;;
      UndoableAction_done self
  | ActivePropertyChanged effect_action active =>
      toggle_active self effect_action active ;;
      UndoableAction_done self
  end.

(** [action.undo()], by the class of the action; as for [do], the write
    of a LayerMoved is notified by [notified]. *)
Definition undo (self : nat) : M unit :=
  w <- get ;;
  match a_fields (action_of w self) with
  | TrackElementPropertyChanged track_element property_name old_value _ =>
      set_child_property track_element property_name old_value ;;
      UndoableAction_undone self
  | TrackElementAdded clip track_element _ _ _ =>
      capture_and_remove self clip track_element ;;
      UndoableAction_undone self
  | TrackElementRemoved clip _ asset track_element_props _ =>
      reinstantiate self clip asset track_element_props ;;
      UndoableAction_undone self
  | ClipPropertyChanged clip property_name old_value _ =>
      set_property clip (replace "-"%char "_"%char property_name) old_value ;;
      UndoableAction_undone self
  | ClipAdded layer clip =>
      remove_clip layer clip ;;
      commit_timeline_of_layer layer ;;
      UndoableAction_undone self
  | ClipRemoved layer clip =>
      set_name_None clip ;;
      add_clip layer clip ;;
      commit_timeline_of_layer layer ;;
      UndoableAction_undone self
  | LayerAdded ges_timeline ges_layer =>
      remove_layer ges_timeline ges_layer ;;
      commit_timeline ges_timeline
  | LayerRemoved ges_timeline ges_layer =>
      add_layer ges_timeline ges_layer
  | LayerMoved ges_layer old_priority _ =>
      update_layer ges_layer (set_ly_priority old_priority)
  | ControlSourceValueAdded _ control_source keyframe _ =>
      control_source_unset control_source (kf_timestamp keyframe) ;;
      UndoableAction_undone self
  | ControlSourceValueRemoved _ control_source keyframe _ =>
      control_source_set control_source
        (kf_timestamp keyframe) (kf_value keyframe) ;;
      UndoableAction_done self
  | ControlSourceKeyframeChanged control_source old_snapshot _ =>
      ControlSourceKeyframeChanged_applySnapshot control_source old_snapshot ;;
      UndoableAction_undone self
  | ActivePropertyChanged effect_action active =>
      toggle_active self effect_action active ;;
      UndoableAction_undone self
  end.


(** ** TimelineObserver: layers and clip properties

    For its layer and clip callbacks the observer keeps more than the
    world above holds: the priority it last saw of every layer it is
    connected to ([_layers_priorities]), its connections to the layers,
    and the attributes [last-<property>] it sets on the property tracker
    of a clip; it also reads the flag [dropping_clips] of the timeline
    widget.  These callbacks run in a monad over that larger state. *)

Inductive LayerSignal := clip_added | clip_removed | notify_priority.

Inductive LayerCallback :=
| TO_clipAddedCb
| TO_clipRemovedCb
| TO_layer_moved_cb.

#[global] Instance LayerCallback_eq_dec : EqDecision LayerCallback.
Proof. solve_decision. Defined.

Record LayerConnection := {
  lc_layer : nat;
  lc_signal : LayerSignal;
  lc_callback : LayerCallback
}.

#[global] Instance LayerSignal_eq_dec : EqDecision LayerSignal.
Proof. solve_decision. Defined.

#[global] Instance LayerConnection_eq_dec : EqDecision LayerConnection.
Proof. solve_decision. Defined.

Record Observer := {
  ob_world : World;
  ob_layers_priorities : gmap nat N;
  ob_layer_connections : list LayerConnection;
  ob_tracker_attributes : gmap nat (gmap string GValue);
  ob_dropping_clips : bool
}.

Definition with_ob_world (f : World -> World) (o : Observer) : Observer :=
  {| ob_world := f (ob_world o);
     ob_layers_priorities := ob_layers_priorities o;
     ob_layer_connections := ob_layer_connections o;
     ob_tracker_attributes := ob_tracker_attributes o;
     ob_dropping_clips := ob_dropping_clips o |}.

Definition with_ob_layers_priorities (f : gmap nat N -> gmap nat N)
    (o : Observer) : Observer :=
  {| ob_world := ob_world o;
     ob_layers_priorities := f (ob_layers_priorities o);
     ob_layer_connections := ob_layer_connections o;
     ob_tracker_attributes := ob_tracker_attributes o;
     ob_dropping_clips := ob_dropping_clips o |}.

Definition with_ob_layer_connections
    (f : list LayerConnection -> list LayerConnection) (o : Observer)
    : Observer :=
  {| ob_world := ob_world o;
     ob_layers_priorities := ob_layers_priorities o;
     ob_layer_connections := f (ob_layer_connections o);
     ob_tracker_attributes := ob_tracker_attributes o;
     ob_dropping_clips := ob_dropping_clips o |}.

Definition with_ob_tracker_attributes
    (f : gmap nat (gmap string GValue) -> gmap nat (gmap string GValue))
    (o : Observer) : Observer :=
  {| ob_world := ob_world o;
     ob_layers_priorities := ob_layers_priorities o;
     ob_layer_connections := ob_layer_connections o;
     ob_tracker_attributes := f (ob_tracker_attributes o);
     ob_dropping_clips := ob_dropping_clips o |}.

Definition OM (A : Type) : Type := Observer -> Outcome A * Observer.

Definition oret {A} (a : A) : OM A := fun o => (Ok a, o).

Definition obind {A B} (m : OM A) (k : A -> OM B) : OM B :=
  fun o =>
    match m o with
    | (Ok a, o') => k a o'
    | (Raise e, o') => (Raise e, o')
    end.

Definition oraise {A} (e : PyExc) : OM A := fun o => (Raise e, o).

Declare Scope ob_scope.
Delimit Scope ob_scope with ob.
Notation "x <- m ;; k" := (obind m (fun x => k))
  (at level 100, m at next level, right associativity) : ob_scope.
Notation "m ;; k" := (obind m (fun _ => k))
  (at level 100, right associativity) : ob_scope.

Definition oget : OM Observer := fun o => (Ok o, o).

Definition omodify (f : Observer -> Observer) : OM unit :=
  fun o => (Ok tt, f o).

(** A statement on the world above, run by the observer. *)
Definition lift {A} (m : M A) : OM A :=
  fun o =>
    match m (ob_world o) with
    | (r, w') => (r, with_ob_world (fun _ => w') o)
    end.

Definition oexec {A} (m : OM A) (o : Observer) : Observer := snd (m o).

(** [ges_layer.connect(signal, callback)]. *)
Definition layer_connect (layer : nat) (signal : LayerSignal)
    (callback : LayerCallback) : OM unit :=
  omodify (with_ob_layer_connections (fun l =>
    l ++ [{| lc_layer := layer; lc_signal := signal;
             lc_callback := callback |}])).

Definition layer_connected_to (layer : nat) (callback : LayerCallback)
    (c : LayerConnection) : bool :=
  bool_decide (lc_layer c = layer) && bool_decide (lc_callback c = callback).

Fixpoint remove_first_layer_connection (p : LayerConnection -> bool)
    (l : list LayerConnection) : option (list LayerConnection) :=
  match l with
  | [] => None
  | c :: l' =>
      if p c then Some l'
      else match remove_first_layer_connection p l' with
           | Some r => Some (c :: r)
           | None => None
           end
  end.

(** [ges_layer.disconnect_by_func(callback)], as [disconnect_by_func]
    above. *)
Definition layer_disconnect_by_func (layer : nat) (callback : LayerCallback)
    : OM unit :=
  (o <- oget ;;
   match remove_first_layer_connection (layer_connected_to layer callback)
           (ob_layer_connections o) with
   | None => oraise TypeError
   | Some l => omodify (with_ob_layer_connections (fun _ => l))
   end)%ob.

Definition TimelineObserver_connect_to_layer (ges_layer : nat) : OM unit :=
  (o <- oget ;;
   omodify (with_ob_layers_priorities
              <[ges_layer := ly_priority (layer_of (ob_world o) ges_layer)]>) ;;
   layer_connect ges_layer clip_added TO_clipAddedCb ;;
   layer_connect ges_layer clip_removed TO_clipRemovedCb ;;
   layer_connect ges_layer notify_priority TO_layer_moved_cb)%ob.

Definition TimelineObserver_disconnect_from_layer (ges_layer : nat)
    : OM unit :=
  (o <- oget ;;
   match ob_layers_priorities o !! ges_layer with
   | None => oraise KeyError
   | Some _ =>
       omodify (with_ob_layers_priorities (delete ges_layer)) ;;
       layer_disconnect_by_func ges_layer TO_clipAddedCb ;;
       layer_disconnect_by_func ges_layer TO_clipRemovedCb ;;
       layer_disconnect_by_func ges_layer TO_layer_moved_cb
   end)%ob.

Definition TimelineObserver_layer_moved_cb (ges_layer : nat) : OM unit :=
  (o <- oget ;;
   match ob_layers_priorities o !! ges_layer with
   | None => oraise KeyError
   | Some previous =>
       let current := ly_priority (layer_of (ob_world o) ges_layer) in
       omodify (with_ob_layers_priorities <[ges_layer := current]>) ;;
       action <- lift (new_action (LayerMoved ges_layer previous current)) ;;
       lift (action_log_push action)
   end)%ob.

Definition TimelineObserver_layerAddedCb (ges_timeline ges_layer : nat)
    : OM unit :=
  (TimelineObserver_connect_to_layer ges_layer ;;
   action <- lift (new_action (LayerAdded ges_timeline ges_layer)) ;;
   lift (action_log_push action))%ob.

Definition TimelineObserver_layerRemovedCb (ges_timeline ges_layer : nat)
    : OM unit :=
  (TimelineObserver_disconnect_from_layer ges_layer ;;
   action <- lift (new_action (LayerRemoved ges_timeline ges_layer)) ;;
   lift (action_log_push action))%ob.

(** The handlers an emission of notify::priority by [ges_layer] reaches.
    The observer connects [_layer_moved_cb] to this signal, in
    [_connect_to_layer], and nothing else. *)
Definition hears_priority (ges_layer : nat) (c : LayerConnection) : bool :=
  bool_decide (lc_layer c = ges_layer)
  && bool_decide (lc_signal c = notify_priority)
  && bool_decide (lc_callback c = TO_layer_moved_cb).

(** [ges_layer] emits notify::priority.  As in [emit_with], the handlers
    connected when the emission starts run in connection order, one that
    was disconnected meanwhile is skipped, and an exception raised by a
    handler is reported and does not reach the emitter. *)
Definition layer_notify_priority (ges_layer : nat) : OM unit :=
  fun o =>
    (Ok tt,
     fold_left
       (fun o' c =>
          if bool_decide (c ∈ ob_layer_connections o')
          then oexec (TimelineObserver_layer_moved_cb ges_layer) o'
          else o')
       (filter (fun c => hears_priority ges_layer c = true)
               (ob_layer_connections o)) o).

(** A method of a LayerMoved action of [ges_layer], run where the
    observer may be connected to the layer.  Both [LayerMoved.do] and
    [LayerMoved.undo] consist of the one assignment to
    [ges_layer.props.priority]; GObject notifies the property when it is
    written, so the handlers run when the method has made its write. *)
Definition notified (ges_layer : nat) (method : M unit) : OM unit :=
  (lift method ;; layer_notify_priority ges_layer)%ob.

(** [clip.get_property(name)]: as for [set_property], GObject
    canonicalises the name and PyGObject raises [TypeError] for a
    property the object does not have. *)
Definition get_property (clip : nat) (name : string) : M GValue :=
  w <- get ;;
  match c_props (clip_of w clip) !! replace "_"%char "-"%char name with
  | None => raise TypeError
  | Some v => ret v
  end.

(** [_clipPropertyChangedCb]: the values that come with the signal are
    overwritten at once; [getattr] raises [AttributeError] when the
    tracker has no attribute of that name. *)
Definition TimelineObserver_clipPropertyChangedCb (tracker clip : nat)
    (property_name : string) (old_value new_value : GValue) : OM unit :=
  (o <- oget ;;
   if ob_dropping_clips o then oret tt
   else
     let attr_name := "last-" +:+ property_name in
     new_value <- lift (get_property clip property_name) ;;
     match (ob_tracker_attributes o !!! tracker) !! attr_name with
     | None => oraise AttributeError
     | Some old_value =>
         action <- lift (new_action (ClipPropertyChanged clip property_name
                                       old_value new_value)) ;;
         omodify (with_ob_tracker_attributes
                    <[tracker := <[attr_name := new_value]>
                                   (ob_tracker_attributes o !!! tracker)]>) ;;
         lift (action_log_push action)
     end)%ob.

(** A [Gst.Structure]: its name and its fields in the order they were
    set. *)
Record Structure := {
  st_name : string;
  st_fields : list (string * GValue)
}.

(** [LayerMoved.asScenarioAction], given [self.ges_layer]: it reads the
    layer as it is when it is called. *)
Definition LayerMoved_asScenarioAction (ges_layer : nat) : M Structure :=
  w <- get ;;
  ret {| st_name := "move-layer";
         st_fields :=
           [("priority",
             GInt (Z.of_N (ly_priority (layer_of w ges_layer))))] |}.

(** ** Derived notions used in the statements *)

(** [n] calls on an action as the log issues them after the action was
    pushed: [undo] first, then [do] and [undo] in alternation. *)
Fixpoint undo_redo (self : nat) (n : nat) : M unit :=
  match n with
  | 0 => ret tt
  | S n' => undo_redo self n' ;; if Nat.even n' then undo self else do self
  end.

(** One application of an ActivePropertyChanged action whose stored flag
    is [stored]: the element takes the stored flag, the action keeps its
    negation. *)
Definition toggled (self effect_action track_element : nat) (stored : bool)
    (mark : ActionState) (w : World) : World :=
  with_actions
    <[self := {| a_state := mark;
                 a_fields := ActivePropertyChanged effect_action
                               (negb stored) |}]>
    (with_model
       (with_elements
          <[track_element := set_te_active stored (element w track_element)]>)
       w).

(** What the callbacks of this file may change in a world: they never
    touch the edited model, they hand out new handles, they leave the
    action objects allocated before alone, and the child-property
    tracker never forgets an element. *)
Definition grows (w w' : World) : Prop :=
  w_next_id w <= w_next_id w' /\
  (forall a, a < w_next_id w -> w_actions w' !! a = w_actions w !! a) /\
  (forall e, is_Some (w_tracked_track_elements w !! e) ->
             is_Some (w_tracked_track_elements w' !! e)).

Definition observer_step (w w' : World) : Prop :=
  w_model w' = w_model w /\ grows w w'.

Definition stable {A} (m : M A) : Prop :=
  forall w, observer_step w (snd (m w)).

(** The model operations without their emissions. *)
Definition model_set_child_property (e : nat) (name : string) (v : GValue)
    (m : Model) : Model :=
  let stored := store_child name v (te_children_props (m_elements m !!! e)) in
  match snd stored with
  | None => m
  | Some _ =>
      with_elements
        <[e := set_te_children_props (fst stored) (m_elements m !!! e)]> m
  end.

Definition model_replay (e : nat) (props : list (string * GValue))
    (m : Model) : Model :=
  fold_left
    (fun m' item => model_set_child_property e (fst item) (snd item) m')
    props m.

Definition model_add_asset (e clip asset : nat) (m : Model) : Model :=
  with_clips
    <[clip := set_c_children (c_children (m_clips m !!! clip) ++ [e])
                (m_clips m !!! clip)]>
    (with_elements <[e := set_te_asset asset (m_assets m !!! asset)]> m).

Definition model_remove (clip e : nat) (m : Model) : Model :=
  if decide (e ∈ c_children (m_clips m !!! clip)) then
    with_clips
      <[clip := set_c_children
                  (filter (fun e' => e' ≠ e) (c_children (m_clips m !!! clip)))
                  (m_clips m !!! clip)]> m
  else m.

(** The child properties of an element after the pairs of [props] were
    written to it in order. *)
Definition replayed (props : list (string * GValue))
    (l : list (PSpec * GValue)) : list (PSpec * GValue) :=
  fold_left (fun l' item => fst (store_child (fst item) (snd item) l')) props l.

(** [self.track_element_props] of the track-element actions. *)
Definition track_element_props_attribute (f : ActionFields)
    : list (string * GValue) :=
  match f with
  | TrackElementAdded _ _ _ props _ => props
  | TrackElementRemoved _ _ _ props _ => props
  | _ => []
  end.

(** What a method [m] of the action [self] does when it captures the
    writable child properties of [track_element] and removes the element
    from [clip]: the element leaves the clip; the method returns when the
    child-property tracker knows the element; and when it returns, the
    action holds the properties as they were before the call, holds no
    element any more and carries the mark. *)
Definition captures_then_removes (m : M unit)
    (self clip track_element : nat) (mark : ActionState) (w : World) : Prop :=
  let w' := exec m w in
  c_children (clip_of w' clip)
    = filter (fun e => e ≠ track_element) (c_children (clip_of w clip)) /\
  (is_Some (w_tracked_track_elements w !! track_element) ->
   fst (m w) = Ok tt) /\
  (fst (m w) = Ok tt ->
   track_element_props_attribute (a_fields (action_of w' self))
     = writable_child_properties (element w track_element) /\
   track_element_attribute (a_fields (action_of w' self)) = None /\
   a_state (action_of w' self) = mark).

(** What a method [m] of the action [self] does when it instantiates a
    track element from [asset] in [clip] and replays [props] on it: it
    returns; the element has the handle [w_next_id w], which no object
    had before; it is the last child of the clip; it is what the asset
    yields, with [props] written to it in order; the action keeps the
    new element and its properties and carries the mark. *)
Definition reinstantiates (m : M unit) (self clip asset : nat)
    (props : list (string * GValue)) (mark : ActionState) (w : World) : Prop :=
  let e := w_next_id w in
  let w' := exec m w in
  let extracted := set_te_asset asset (m_assets (w_model w) !!! asset) in
  fst (m w) = Ok tt /\
  track_element_attribute (a_fields (action_of w' self)) = Some e /\
  track_element_props_attribute (a_fields (action_of w' self)) = props /\
  a_state (action_of w' self) = mark /\
  c_children (clip_of w' clip) = c_children (clip_of w clip) ++ [e] /\
  element w' e
    = set_te_children_props
        (replayed props (te_children_props extracted)) extracted.

(** The states from which the round trip of an action is considered:
    the action and the track elements of the clips were allocated (their
    handles are below the next one); the two snapshots of a
    ControlSourceKeyframeChanged carry the same timestamp, as every
    pair emitted by a keyframe tracker does; the pairs held by a
    TrackElementAdded name writable, not ignored child properties of what
    its asset yields, as every list captured by [undo] does. *)
Definition round_trip_ready (w : World) (self : nat) : Prop :=
  self < w_next_id w /\
  (forall c e, e ∈ c_children (clip_of w c) -> e < w_next_id w) /\
  match a_fields (action_of w self) with
  | ControlSourceKeyframeChanged _ old_snapshot new_snapshot =>
      fst old_snapshot = fst new_snapshot
  | TrackElementAdded _ _ asset props _ =>
      forall name, name ∈ map fst props ->
        exists prop,
          prop ∈ list_children_properties (m_assets (w_model w) !!! asset) /\
          ps_writable prop = true /\
          (ps_name prop ∉ PROPS_TO_IGNORE) /\
          child_property_name prop = name
  | _ => True
  end.

(** The world after the action [self] took the mark. *)
Definition marked (self : nat) (mark : ActionState) (w : World) : World :=
  with_actions <[self := set_a_state mark (action_of w self)]> w.

Definition model_control_source_set (cs : nat) (t : N) (v : Z) (m : Model)
    : Model :=
  with_sources <[cs := <[t := v]> (m_sources m !!! cs)]> m.

Definition model_control_source_unset (cs : nat) (t : N) (m : Model) : Model :=
  match (m_sources m !!! cs) !! t with
  | None => m
  | Some _ => with_sources <[cs := delete t (m_sources m !!! cs)]> m
  end.

(** A clip after [set_property] wrote [v] to its property [k]: nothing
    is written when the clip has no such property. *)
Definition clip_written (k : string) (v : GValue) (x : Clip) : Clip :=
  match c_props x !! k with
  | None => x
  | Some _ => set_c_props (<[k := v]> (c_props x)) x
  end.

(** The model after an ActivePropertyChanged was applied once. *)
Definition model_set_active (e : nat) (v : bool) (m : Model) : Model :=
  with_elements <[e := set_te_active v (m_elements m !!! e)]> m.

(** The value that replaying [props] leaves in a property called [name]:
    the one of the last pair with that name. *)
Fixpoint last_value (name : string) (props : list (string * GValue))
    : option GValue :=
  match props with
  | [] => None
  | (n, v) :: props' =>
      match last_value name props' with
      | Some v' => Some v'
      | None => if decide (n = name) then Some v else None
      end
  end.

(** The child properties [l] after every first property of its name that
    is writable took the value [f] gives for the name, if any; [seen]
    holds the names met before [l]. *)
Fixpoint overwritten (f : string -> option GValue) (seen : list string)
    (l : list (PSpec * GValue)) : list (PSpec * GValue) :=
  match l with
  | [] => []
  | (p, old) :: l' =>
      (p, if decide (child_property_name p ∈ seen) then old
          else if ps_writable p then default old (f (child_property_name p))
               else old)
      :: overwritten f (child_property_name p :: seen) l'
  end.



(** A clip after the body of [ClipAdded.do] ([set_name(None)], then
    [add_clip]), and after [remove_clip]. *)
Definition clip_entered (layer : nat) (serial : nat) (x : Clip) : Clip :=
  set_c_layer
    (match c_layer x with None => Some layer | Some l => Some l end)
    (set_c_name serial x).

Definition clip_left (layer : nat) (x : Clip) : Clip :=
  set_c_layer
    (if decide (c_layer x = Some layer) then None else c_layer x) x.

(** The cache a keyframe tracker holds of a control source with the
    keyframes [src]: for every timestamp, the snapshot (timestamp, value). *)
Definition snapshot_of (src : gmap N Z) : gmap N (N * Z) :=
  map_imap (fun t v => Some (t, v)) src.

(** What [_connectToControlSource] connects when the next handle is [n]:
    the observer's two callbacks on the control source, the three of the
    new keyframe tracker (handle [2 + n]) and the observer's callback on
    the tracker. *)
Definition source_connections (n track_element : nat)
    (binding : ControlBinding) : list Connection :=
  let control_source := OControlSource (cb_control_source binding) in
  let data := Some (track_element, cb_name binding) in
  [ {| cn_id := n; cn_obj := control_source; cn_signal := value_added;
       cn_callback := TO_controlSourceKeyFrameAddedCb; cn_data := data |};
    {| cn_id := 1 + n; cn_obj := control_source; cn_signal := value_removed;
       cn_callback := TO_controlSourceKeyFrameRemovedCb; cn_data := data |};
    {| cn_id := 3 + n; cn_obj := control_source; cn_signal := value_added;
       cn_callback := KCT_keyframeAddedCb (2 + n); cn_data := None |};
    {| cn_id := 4 + n; cn_obj := control_source; cn_signal := value_removed;
       cn_callback := KCT_keyframeRemovedCb (2 + n); cn_data := None |};
    {| cn_id := 5 + n; cn_obj := control_source; cn_signal := value_changed;
       cn_callback := KCT_keyframeMovedCb (2 + n); cn_data := None |};
    {| cn_id := 6 + n; cn_obj := OKeyframeTracker (2 + n);
       cn_signal := keyframe_moved;
       cn_callback := TO_controlSourceKeyFrameMovedCb; cn_data := None |} ].

(** The world after [_connectToControlSource]. *)
Definition observing_source (track_element : nat) (binding : ControlBinding)
    (existed : bool) (w : World) : World :=
  let n := w_next_id w in
  let control_source := cb_control_source binding in
  {| w_model := w_model w;
     w_connections :=
       w_connections w ++ source_connections n track_element binding;
     w_next_id := 7 + n;
     w_tracked_track_elements := w_tracked_track_elements w;
     w_keyframe_trackers :=
       <[2 + n := {| kt_keyframes :=
                       Some (snapshot_of (source_of w control_source));
                     kt_control_source := Some control_source |}]>
         (w_keyframe_trackers w);
     w_control_source_keyframe_trackers :=
       <[control_source := 2 + n]> (w_control_source_keyframe_trackers w);
     w_actions := w_actions w;
     w_action_log := w_action_log w;
     w_debug := w_debug w;
     w_scenario :=
       if existed then w_scenario w
       else w_scenario w ++ [(track_element, cb_name binding)] |}.

(** Nothing is connected to the control source, nor to the handle that
    the next keyframe tracker made by [_connectToControlSource] gets. *)
Definition unobserved (w : World) (control_source : nat) : Prop :=
  forall c, c ∈ w_connections w ->
    cn_obj c <> OControlSource control_source /\
    cn_obj c <> OKeyframeTracker (2 + w_next_id w).

(** What stays connected after [_connectToControlSource] and then
    [_disconnectFromControlSource]: the two callbacks of the keyframe
    tracker that [disconnectFromObject] does not disconnect. *)
Definition tracker_leftovers (n : nat) (binding : ControlBinding)
    : list Connection :=
  let control_source := OControlSource (cb_control_source binding) in
  [ {| cn_id := 3 + n; cn_obj := control_source; cn_signal := value_added;
       cn_callback := KCT_keyframeAddedCb (2 + n); cn_data := None |};
    {| cn_id := 4 + n; cn_obj := control_source; cn_signal := value_removed;
       cn_callback := KCT_keyframeRemovedCb (2 + n); cn_data := None |} ].

(** A step that makes no action, pushes nothing to the log and writes
    nothing to the scenario; a computation all of whose runs are such
    steps. *)
Definition unlogged (w w' : World) : Prop :=
  w_action_log w' = w_action_log w /\ w_actions w' = w_actions w /\
  w_scenario w' = w_scenario w.

Definition quiet {A} (m : M A) : Prop :=
  forall w, unlogged w (snd (m w)).

(** A computation that leaves the part [f] of the world as it is. *)
Definition keeps {A B} (f : World -> B) (m : M A) : Prop :=
  forall w, f (snd (m w)) = f w.

(** The world once an action with these attributes is allocated and
    pushed on the log. *)
Definition logged (fields : ActionFields) (w : World) : World :=
  with_action_log (fun l => l ++ [w_next_id w])
    (with_actions
       <[w_next_id w := {| a_state := Pending; a_fields := fields |}]>
       (with_next_id S w)).

(** The connections [_connect_to_layer] makes to a layer. *)
Definition layer_connections (ges_layer : nat) : list LayerConnection :=
  [ {| lc_layer := ges_layer; lc_signal := clip_added;
       lc_callback := TO_clipAddedCb |};
    {| lc_layer := ges_layer; lc_signal := clip_removed;
       lc_callback := TO_clipRemovedCb |};
    {| lc_layer := ges_layer; lc_signal := notify_priority;
       lc_callback := TO_layer_moved_cb |} ].

(** An observer of the small project that is connected to no layer yet;
    tracker 15 remembers the start and the duration of clip 2. *)
Definition studio_observer : Observer :=
  {| ob_world := studio;
     ob_layers_priorities := ∅;
     ob_layer_connections := [];
     ob_tracker_attributes :=
       {[ 15 := {[ "last-start" := GInt 0; "last-duration" := GInt 4 ]} ]};
     ob_dropping_clips := false |}.

(** The same observer once it is connected to layer 1. *)
Definition studio_layer_observer : Observer :=
  {| ob_world := studio;
     ob_layers_priorities := {[ 1 := 0%N ]};
     ob_layer_connections := layer_connections 1;
     ob_tracker_attributes :=
       {[ 15 := {[ "last-start" := GInt 0; "last-duration" := GInt 4 ]} ]};
     ob_dropping_clips := false |}.

(** Layer 1 was given priority 2 and the observer, connected to it, still
    remembers priority 0. *)
Definition studio_layer_moved : Observer :=
  with_ob_world
    (with_model
       (with_layers
          <[1 := {| ly_priority := 2%N; ly_auto_transition := false;
                    ly_timeline := Some 0 |}]>))
    studio_layer_observer.

(** The observer remembers a priority of layer 1 and has no connection
    to it. *)
Definition studio_layer_unconnected : Observer :=
  with_ob_layer_connections (fun _ => []) studio_layer_observer.

(** The observer connected to layer 1 of the project with the pending
    actions. *)
Definition studio_actions_observer : Observer :=
  with_ob_world (fun _ => studio_actions) studio_layer_observer.

(** * Properties *)

(** ** Registration with the child-property tracker *)

(** C10: [addTrackElement] called with a track element that is already
    tracked returns at once: the snapshot, the signal connections and
    everything else are left exactly as they were. *)
Theorem addTrackElement_tracked_is_noop (w : World) (track_element : nat) :
  is_Some (w_tracked_track_elements w !! track_element) ->
  TrackElementChildPropertyTracker_addTrackElement track_element w = (Ok tt, w).
Proof.
  intros Htracked.
  unfold TrackElementChildPropertyTracker_addTrackElement, bind, get.
  destruct (decide (is_Some (w_tracked_track_elements w !! track_element)))
    as [_ | Hno]; [reflexivity | contradiction].
Qed.


(** ** Changes of child properties *)


(** ** Deferred registration *)

Lemma filter_listens_none (obj : ObjRef) (signal : Signal)
    (l : list Connection) :
  Forall (fun c => listens obj signal c = false) l ->
  filter (fun c => listens obj signal c = true) l = [].
Proof.
  induction 1 as [| c l Hc _ IH]; [reflexivity |].
  rewrite filter_cons, IH.
  destruct (decide (listens obj signal c = true)) as [Ht | _];
    [congruence | reflexivity].
Qed.

Lemma remove_first_skips (p : Connection -> bool) (l r : list Connection)
    (c : Connection) :
  Forall (fun c' => p c' = false) l -> p c = true ->
  remove_first p (l ++ c :: r) = Some (l ++ r).
Proof.
  intros Hl Hc. induction Hl as [| c' l Hc' _ IH]; simpl.
  - by rewrite Hc.
  - by rewrite Hc', IH.
Qed.





(** ** Emissions and model operations always return *)

Lemma emit_returns (obj : ObjRef) (signal : Signal) (args : SignalArgs)
    (w : World) :
  emit obj signal args w = (Ok tt, exec (emit obj signal args) w).
Proof. reflexivity. Qed.

Lemma control_source_set_returns (cs : nat) (t : N) (v : Z) (w : World) :
  control_source_set cs t v w = (Ok tt, exec (control_source_set cs t v) w).
Proof. reflexivity. Qed.

Lemma control_source_unset_returns (cs : nat) (t : N) (w : World) :
  control_source_unset cs t w = (Ok tt, exec (control_source_unset cs t) w).
Proof.
  unfold exec, control_source_unset, bind, get.
  destruct (source_of w cs !! t); reflexivity.
Qed.

Lemma action_of_update (self : nat) (a : Action) (w : World) :
  action_of (with_actions <[self := a]> w) self = a.
Proof. unfold action_of. cbn. apply lookup_total_insert_eq. Qed.

(** ** The layer operations in closed form *)

Lemma add_layer_eq (timeline layer : nat) (w : World) :
  add_layer timeline layer w =
  (Ok tt,
   match ly_timeline (layer_of w layer) with
   | None =>
       with_model
         (with_layers
            <[layer := set_ly_timeline (Some timeline) (layer_of w layer)]>) w
   | Some _ => w
   end).
Proof.
  unfold add_layer, bind, get.
  destruct (ly_timeline (layer_of w layer)); reflexivity.
Qed.

Lemma remove_layer_eq (timeline layer : nat) (w : World) :
  remove_layer timeline layer w =
  (Ok tt,
   if decide (ly_timeline (layer_of w layer) = Some timeline) then
     with_model
       (with_layers <[layer := set_ly_timeline None (layer_of w layer)]>) w
   else w).
Proof.
  unfold remove_layer, bind, get.
  destruct (decide (ly_timeline (layer_of w layer) = Some timeline));
    reflexivity.
Qed.

(** ** The state marks of the actions *)

(** C2 fails on the code for four classes.  ControlSourceValueRemoved
    has the marks exchanged: [do] marks the action undone and [undo]
    marks it done.  LayerAdded, LayerRemoved and LayerMoved never mark:
    [do] and [undo] leave every action object as it is, so a pending
    action stays pending after [do]. *)
Theorem marks_of_value_removed_and_layer_actions (w : World) (self : nat) :
  (forall track_element control_source keyframe property_name,
     a_fields (action_of w self) =
       ControlSourceValueRemoved track_element control_source keyframe
                                 property_name ->
     fst (do self w) = Ok tt /\
     a_state (action_of (exec (do self) w) self) = Undone /\
     fst (undo self w) = Ok tt /\
     a_state (action_of (exec (undo self) w) self) = Done)
  /\
  (forall ges_timeline ges_layer old_priority priority,
     a_fields (action_of w self) = LayerAdded ges_timeline ges_layer \/
     a_fields (action_of w self) = LayerRemoved ges_timeline ges_layer \/
     a_fields (action_of w self) = LayerMoved ges_layer old_priority priority ->
     fst (do self w) = Ok tt /\
     w_actions (exec (do self) w) = w_actions w /\
     fst (undo self w) = Ok tt /\
     w_actions (exec (undo self) w) = w_actions w).
Proof.
  split.
  - intros track_element control_source keyframe property_name Hf.
    unfold exec, do, undo, bind, get. rewrite Hf.
    rewrite control_source_unset_returns, control_source_set_returns.
    unfold UndoableAction_undone, UndoableAction_done, update_action, modify.
    cbn [fst snd]. rewrite !action_of_update. by cbn.
  - intros ges_timeline ges_layer old_priority priority Hf.
    unfold exec, do, undo, bind, get.
    destruct Hf as [Hf | [Hf | Hf]]; rewrite Hf.
    + rewrite add_layer_eq, remove_layer_eq. cbn [fst snd].
      split; [reflexivity |]. split; [by destruct (ly_timeline _) |].
      split; [reflexivity |]. by destruct (decide _).
    + rewrite add_layer_eq, remove_layer_eq. cbn [fst snd].
      split; [reflexivity |]. split; [by destruct (decide _) |].
      split; [reflexivity |]. by destruct (ly_timeline _).
    + by cbn.
Qed.

(** ** The layer actions *)

(** The methods of the three layer actions in closed form, as they run
    on a timeline whose layers and timeline notify nobody. *)
Lemma layer_methods_eq (w : World) (self : nat) :
  (forall ges_layer old_priority priority,
     a_fields (action_of w self) = LayerMoved ges_layer old_priority priority ->
     do self w =
       (Ok tt,
        with_model
          (with_layers
             <[ges_layer := set_ly_priority priority (layer_of w ges_layer)]>)
          w) /\
     undo self w =
       (Ok tt,
        with_model
          (with_layers
             <[ges_layer := set_ly_priority old_priority
                              (layer_of w ges_layer)]>)
          w))
  /\
  (forall ges_timeline ges_layer,
     let added :=
       match ly_timeline (layer_of w ges_layer) with
       | None =>
           with_model
             (with_layers
                <[ges_layer := set_ly_timeline (Some ges_timeline)
                                 (layer_of w ges_layer)]>) w
       | Some _ => w
       end in
     let removed :=
       if decide (ly_timeline (layer_of w ges_layer) = Some ges_timeline) then
         with_model
           (with_layers
              <[ges_layer := set_ly_timeline None (layer_of w ges_layer)]>) w
       else w in
     let removed_and_committed :=
       with_model
         (with_timelines
            <[ges_timeline :=
                {| tl_commits :=
                     S (tl_commits (m_timelines (w_model w) !!! ges_timeline))
                |}]>)
         removed in
     (a_fields (action_of w self) = LayerAdded ges_timeline ges_layer ->
      do self w = (Ok tt, added) /\
      undo self w = (Ok tt, removed_and_committed)) /\
     (a_fields (action_of w self) = LayerRemoved ges_timeline ges_layer ->
      do self w = (Ok tt, removed_and_committed) /\
      undo self w = (Ok tt, added))).
Proof.
  split.
  - intros ges_layer old_priority priority Hf.
    unfold do, undo, bind, get. rewrite Hf. split; reflexivity.
  - intros ges_timeline ges_layer added removed removed_and_committed.
    assert (Hcommit : commit_timeline ges_timeline removed
                      = (Ok tt, removed_and_committed)).
    { unfold commit_timeline, modify, removed_and_committed.
      do 4 f_equal. unfold removed. by destruct (decide _). }
    split; intros Hf; unfold do, undo, bind, get; rewrite Hf;
      rewrite remove_layer_eq, add_layer_eq; fold removed; fold added;
      rewrite Hcommit; split; reflexivity.
Qed.

(** ** The activation toggle *)

Lemma toggle_active_eq (w : World) (self effect_action track_element : nat)
    (stored : bool) :
  track_element_attribute (a_fields (action_of w effect_action))
    = Some track_element ->
  toggle_active self effect_action stored w =
  (Ok tt,
   with_actions
     <[self := set_a_fields (assign_active (negb stored)
                               (a_fields (action_of w self)))
                 (action_of w self)]>
     (with_model
        (with_elements
           <[track_element := set_te_active stored (element w track_element)]>)
        w)).
Proof.
  intros Hte. unfold toggle_active, bind, get. rewrite Hte. reflexivity.
Qed.

Lemma toggle_once (w : World) (self effect_action track_element : nat)
    (stored : bool) :
  a_fields (action_of w self) = ActivePropertyChanged effect_action stored ->
  track_element_attribute (a_fields (action_of w effect_action))
    = Some track_element ->
  do self w = (Ok tt, toggled self effect_action track_element stored Done w)
  /\ undo self w
     = (Ok tt, toggled self effect_action track_element stored Undone w).
Proof.
  intros Hf Hte.
  unfold do, undo, bind, get. rewrite Hf.
  rewrite (toggle_active_eq w self effect_action track_element stored Hte).
  rewrite Hf.
  unfold UndoableAction_done, UndoableAction_undone, update_action, modify.
  rewrite !action_of_update.
  unfold toggled, with_actions; cbn. rewrite !insert_insert_eq.
  split; reflexivity.
Qed.

Lemma toggled_facts (w : World) (self effect_action track_element : nat)
    (stored : bool) (mark : ActionState) :
  a_fields (action_of w self) = ActivePropertyChanged effect_action stored ->
  track_element_attribute (a_fields (action_of w effect_action))
    = Some track_element ->
  let w' := toggled self effect_action track_element stored mark w in
  a_fields (action_of w' self)
    = ActivePropertyChanged effect_action (negb stored)
  /\ a_state (action_of w' self) = mark
  /\ track_element_attribute (a_fields (action_of w' effect_action))
     = Some track_element
  /\ te_active (element w' track_element) = stored.
Proof.
  intros Hf Hte w'.
  assert (Hne : effect_action <> self).
  { intros ->. rewrite Hf in Hte. discriminate. }
  unfold w', toggled, action_of, element. cbn.
  rewrite !lookup_total_insert_eq.
  rewrite lookup_total_insert_ne by done.
  repeat split. exact Hte.
Qed.

(** C8: an ActivePropertyChanged built for the new value [active] keeps
    [not active].  Each application gives the element the stored flag
    and negates the stored flag.  Hence, when the log alternates [undo]
    and [do] after the push, the odd calls (the undos) leave the element
    with the old value [not active] and the even calls (the redos) with
    the new value [active]; and of two [do] in a row the first sets
    a value and the second sets its negation. *)
Theorem active_toggle (w : World) (effect_action track_element : nat)
    (active : bool) :
  let self := w_next_id w in
  let pushed := exec (ActivePropertyChanged_init effect_action active) w in
  effect_action <> self ->
  track_element_attribute (a_fields (action_of w effect_action))
    = Some track_element ->
  ActivePropertyChanged_init effect_action active w = (Ok self, pushed)
  /\ a_fields (action_of pushed self)
     = ActivePropertyChanged effect_action (negb active)
  /\ (forall n,
        fst (undo_redo self (S n) pushed) = Ok tt /\
        te_active (element (exec (undo_redo self (S n)) pushed) track_element)
          = (if Nat.even n then negb active else active) /\
        a_fields (action_of (exec (undo_redo self (S n)) pushed) self)
          = ActivePropertyChanged effect_action
              (if Nat.even n then active else negb active) /\
        a_state (action_of (exec (undo_redo self (S n)) pushed) self)
          = (if Nat.even n then Undone else Done))
  /\ fst ((do self ;; do self) pushed) = Ok tt
  /\ te_active (element (exec (do self) pushed) track_element) = negb active
  /\ te_active (element (exec (do self ;; do self) pushed) track_element)
     = active.
Proof.
  intros self pushed Hne Hte.
  assert (Hpushed : pushed =
            with_actions
              <[self := {| a_state := Pending;
                           a_fields := ActivePropertyChanged effect_action
                                         (negb active) |}]>
              (with_next_id S w)) by reflexivity.
  assert (Hf0 : a_fields (action_of pushed self)
                = ActivePropertyChanged effect_action (negb active)).
  { rewrite Hpushed, action_of_update. reflexivity. }
  assert (Hte0 : track_element_attribute (a_fields (action_of pushed effect_action))
                 = Some track_element).
  { rewrite Hpushed. unfold action_of; cbn.
    rewrite lookup_total_insert_ne by done. exact Hte. }
  split; [reflexivity |]. split; [exact Hf0 |]. split.
  - intros n.
    assert (Hinv : exists w',
              undo_redo self (S n) pushed = (Ok tt, w') /\
              a_fields (action_of w' self)
                = ActivePropertyChanged effect_action
                    (if Nat.even n then active else negb active) /\
              a_state (action_of w' self)
                = (if Nat.even n then Undone else Done) /\
              track_element_attribute (a_fields (action_of w' effect_action))
                = Some track_element /\
              te_active (element w' track_element)
                = (if Nat.even n then negb active else active)).
    { induction n as [| n IH].
      - destruct (toggle_once pushed self effect_action track_element
                    (negb active) Hf0 Hte0) as [_ Hundo].
        destruct (toggled_facts pushed self effect_action track_element
                    (negb active) Undone Hf0 Hte0) as (H1 & H2 & H3 & H4).
        eexists. split.
        { cbn [undo_redo Nat.even]. unfold bind at 1, ret. exact Hundo. }
        rewrite negb_involutive in H1. auto.
      - destruct IH as (w' & Hrun & Hf & Hs & Hte' & Hact).
        destruct (toggle_once w' self effect_action track_element _ Hf Hte')
          as [Hdo Hundo].
        rewrite Nat.even_succ, <- Nat.negb_even.
        change (undo_redo self (S (S n)))
          with (undo_redo self (S n) ;;
                if Nat.even (S n) then undo self else do self).
        rewrite Nat.even_succ, <- Nat.negb_even.
        unfold bind at 1. rewrite Hrun.
        destruct (Nat.even n); cbn [negb].
        + destruct (toggled_facts w' self effect_action track_element
                      active Done Hf Hte') as (H1 & H2 & H3 & H4).
          eexists. split; [exact Hdo |]. auto.
        + destruct (toggled_facts w' self effect_action track_element
                      (negb active) Undone Hf Hte') as (H1 & H2 & H3 & H4).
          rewrite negb_involutive in H1.
          eexists. split; [exact Hundo |]. auto. }
    destruct Hinv as (w' & Hrun & Hf & Hs & _ & Hact).
    unfold exec. rewrite Hrun. cbn [fst snd]. auto.
  - destruct (toggle_once pushed self effect_action track_element
                (negb active) Hf0 Hte0) as [Hdo _].
    destruct (toggled_facts pushed self effect_action track_element
                (negb active) Done Hf0 Hte0) as (H1 & _ & H3 & H4).
    destruct (toggle_once _ self effect_action track_element _ H1 H3)
      as [Hdo2 _].
    destruct (toggled_facts _ self effect_action track_element
                _ Done H1 H3) as (_ & _ & _ & H4').
    unfold exec, bind. rewrite Hdo, Hdo2. cbn [fst snd].
    rewrite negb_involutive in H4' |- *. auto.
Qed.

(** ** Tearing down the observation of a control source *)

Lemma remove_first_none (p : Connection -> bool) (l : list Connection) :
  Forall (fun c => p c = false) l -> remove_first p l = None.
Proof.
  induction 1 as [| c l Hc _ IH]; [reflexivity |].
  cbn. by rewrite Hc, IH.
Qed.

(** The first [try] of [_disconnectFromControlSource] never raises: it
    returns and changes at most the connection table. *)
Lemma disconnect_observer_callbacks_caught (control_source : nat) (w : World) :
  exists l,
    try_except
      (disconnect_by_func (OControlSource control_source)
                          TO_controlSourceKeyFrameAddedCb ;;
       disconnect_by_func (OControlSource control_source)
                          TO_controlSourceKeyFrameRemovedCb)
      TypeError (ret tt) w
    = (Ok tt, with_connections (fun _ => l) w) /\
    (Forall (fun c => connected_to (OControlSource control_source)
                        TO_controlSourceKeyFrameAddedCb c = false)
            (w_connections w) -> l = w_connections w).
Proof.
  unfold try_except, disconnect_by_func, bind, get.
  destruct (remove_first _ (w_connections w)) as [l1 |] eqn:H1.
  - unfold modify. cbn [w_connections with_connections].
    destruct (remove_first _ l1) as [l2 |] eqn:H2.
    + exists l2. split; [reflexivity |].
      intros Hall. by rewrite remove_first_none in H1.
    + exists l1. split; [reflexivity |].
      intros Hall. by rewrite remove_first_none in H1.
  - exists (w_connections w). split; [| done].
    unfold raise, ret. cbn. by destruct w.
Qed.

(** C9: once the keyframe tracker of a control source has left the
    observer's dictionary, [_disconnectFromControlSource] for a binding
    of that source returns without raising; the failed lookup is caught
    and reported on the debug log.  When moreover the observer's callback
    is no longer connected to the source, the call changes nothing but
    that log. *)
Theorem disconnectFromControlSource_twice (w : World)
    (binding : ControlBinding) :
  let control_source := cb_control_source binding in
  let report := MsgControlSourceAlreadyDisconnected control_source in
  w_control_source_keyframe_trackers w !! control_source = None ->
  (exists l,
     TimelineObserver_disconnectFromControlSource binding w
     = (Ok tt,
        with_debug (fun d => d ++ [report]) (with_connections (fun _ => l) w)))
  /\
  (Forall (fun c => connected_to (OControlSource control_source)
                      TO_controlSourceKeyFrameAddedCb c = false)
          (w_connections w) ->
   TimelineObserver_disconnectFromControlSource binding w
   = (Ok tt, with_debug (fun d => d ++ [report]) w)).
Proof.
  intros control_source report Hgone.
  destruct (disconnect_observer_callbacks_caught control_source w)
    as (l & Hfirst & Hsame).
  assert (Hcall : TimelineObserver_disconnectFromControlSource binding w
            = (Ok tt, with_debug (fun d => d ++ [report])
                        (with_connections (fun _ => l) w))).
  { unfold TimelineObserver_disconnectFromControlSource.
    fold control_source. unfold bind at 1. rewrite Hfirst.
    unfold try_except, bind, get.
    cbn [w_control_source_keyframe_trackers with_connections].
    rewrite Hgone. reflexivity. }
  split; [by exists l |].
  intros Hall. rewrite Hcall, (Hsame Hall). by destruct w.
Qed.

(** ** Callbacks leave the model alone *)

Lemma grows_refl (w : World) : grows w w.
Proof. unfold grows. auto. Qed.

Lemma grows_trans (w1 w2 w3 : World) : grows w1 w2 -> grows w2 w3 -> grows w1 w3.
Proof.
  intros (Hn & Ha & Ht) (Hn' & Ha' & Ht'). split; [lia |]. split.
  - intros a Hlt. rewrite Ha' by lia. by apply Ha.
  - intros e He. by apply Ht', Ht.
Qed.

Lemma observer_step_refl (w : World) : observer_step w w.
Proof. split; [reflexivity | apply grows_refl]. Qed.

Lemma observer_step_trans (w1 w2 w3 : World) :
  observer_step w1 w2 -> observer_step w2 w3 -> observer_step w1 w3.
Proof.
  intros [Hm Hg] [Hm' Hg']. split; [congruence | by eapply grows_trans].
Qed.

(** A step that rewrites parts of the world the relation does not
    mention. *)
Ltac untouched :=
  intros w; split; [reflexivity |]; split; [cbn; lia |];
  split; [intros; reflexivity | intros; assumption].

Lemma stable_ret {A} (a : A) : stable (ret a).
Proof. intros w. apply observer_step_refl. Qed.

Lemma stable_raise {A} (e : PyExc) : stable (@raise A e).
Proof. intros w. apply observer_step_refl. Qed.

Lemma stable_get : stable get.
Proof. intros w. apply observer_step_refl. Qed.

Lemma stable_bind {A B} (m : M A) (k : A -> M B) :
  stable m -> (forall a, stable (k a)) -> stable (bind m k).
Proof.
  intros Hm Hk w. unfold bind. specialize (Hm w).
  destruct (m w) as [[a | e] w']; [| exact Hm].
  eapply observer_step_trans; [exact Hm | apply Hk].
Qed.

Lemma stable_try_except (body handler : M unit) (exc : PyExc) :
  stable body -> stable handler -> stable (try_except body exc handler).
Proof.
  intros Hb Hh w. unfold try_except. specialize (Hb w).
  destruct (body w) as [[a | e] w']; [exact Hb |].
  destruct (decide (e = exc)); [| exact Hb].
  eapply observer_step_trans; [exact Hb | apply Hh].
Qed.

Lemma stable_for_each {A} (l : list A) (body : A -> M unit) :
  (forall x, stable (body x)) -> stable (for_each l body).
Proof.
  intros Hb. induction l as [| x l IH]; cbn [for_each].
  - apply stable_ret.
  - apply stable_bind; [apply Hb | intros _; exact IH].
Qed.

Lemma stable_modify (f : World -> World) :
  (forall w, observer_step w (f w)) -> stable (modify f).
Proof. intros Hf w. apply Hf. Qed.

Lemma stable_fresh_id : stable fresh_id.
Proof.
  intros w. split; [reflexivity |]. split; [cbn; lia |]. split; auto.
Qed.

Lemma stable_with_connections (f : list Connection -> list Connection) :
  stable (modify (with_connections f)).
Proof. untouched. Qed.

Lemma stable_connect (obj : ObjRef) (signal : Signal) (callback : Callback)
    (data : option (nat * string)) :
  stable (connect obj signal callback data).
Proof.
  apply stable_bind; [apply stable_fresh_id |].
  intros h. apply stable_with_connections.
Qed.

Lemma stable_disconnect_by_func (obj : ObjRef) (callback : Callback) :
  stable (disconnect_by_func obj callback).
Proof.
  apply stable_bind; [apply stable_get |]. intros w.
  destruct (remove_first _ _);
    [apply stable_with_connections | apply stable_raise].
Qed.

Lemma stable_debug (msg : LogMsg) : stable (debug msg).
Proof. untouched. Qed.

Lemma stable_action_log_push (action : nat) : stable (action_log_push action).
Proof. untouched. Qed.

Lemma stable_new_action (fields : ActionFields) : stable (new_action fields).
Proof.
  intros w. split; [reflexivity |]. split; [cbn; lia |]. split; [| auto].
  intros a Hlt. cbn. rewrite lookup_insert_ne; [reflexivity | lia].
Qed.

Lemma stable_update_tracker (self : nat)
    (f : KeyframeChangeTracker -> KeyframeChangeTracker) :
  stable (update_tracker self f).
Proof. untouched. Qed.

Lemma stable_emit_with (run : Connection -> SignalArgs -> M unit)
    (obj : ObjRef) (signal : Signal) (args : SignalArgs) :
  (forall c, stable (run c args)) -> stable (emit_with run obj signal args).
Proof.
  intros Hrun w. unfold emit_with. cbn [snd].
  generalize (filter (fun c => listens obj signal c = true) (w_connections w)).
  intros l.
  assert (Hgen : forall w0, observer_step w w0 ->
            observer_step w
              (fold_left
                 (fun w' c =>
                    if still_connected c w' then exec (run c args) w' else w')
                 l w0)).
  { induction l as [| c l IH]; intros w0 Hw0; cbn [fold_left]; [exact Hw0 |].
    apply IH. destruct (still_connected c w0); [| exact Hw0].
    eapply observer_step_trans; [exact Hw0 | apply Hrun]. }
  apply Hgen, observer_step_refl.
Qed.

Lemma stable_snapshot_insert (track_element : nat)
    (properties : gmap string GValue) :
  stable (modify (with_tracked_track_elements <[track_element := properties]>)).
Proof.
  intros w. split; [reflexivity |]. split; [cbn; lia |].
  split; [intros; reflexivity |].
  intros e He. cbn. rewrite lookup_insert. by destruct (decide _).
Qed.

Lemma stable_snapshot_alter (track_element : nat)
    (f : gmap string GValue -> gmap string GValue) :
  stable (modify (with_tracked_track_elements (alter f track_element))).
Proof.
  intros w. split; [reflexivity |]. split; [cbn; lia |].
  split; [intros; reflexivity |].
  intros e [x He]. cbn. rewrite lookup_alter.
  destruct (decide (track_element = e)) as [-> | Hne].
  - rewrite He. by eexists.
  - rewrite He. by eexists.
Qed.

Create HintDb stable.

#[local] Hint Resolve stable_ret stable_raise stable_get stable_fresh_id
  stable_connect stable_disconnect_by_func stable_debug
  stable_action_log_push stable_new_action stable_update_tracker
  stable_snapshot_insert stable_snapshot_alter : stable.

(** Structural proof of stability of a callback body. *)
Ltac stable_tac :=
  repeat first
    [ solve [ auto with stable ]
    | apply stable_bind; [| intros ?]
    | apply stable_try_except
    | apply stable_for_each; intros ?
    | apply stable_emit_with; intros ?
    | match goal with
      | |- stable (match ?x with _ => _ end) => destruct x
      | |- stable (modify _) => untouched
      end ].

Lemma stable_discoverChildProperties (track_element : nat) :
  stable (TrackElementChildPropertyTracker_discoverChildProperties
            track_element).
Proof.
  unfold TrackElementChildPropertyTracker_discoverChildProperties. stable_tac.
Qed.

#[local] Hint Resolve stable_discoverChildProperties : stable.

Lemma stable_addTrackElement (track_element : nat) :
  stable (TrackElementChildPropertyTracker_addTrackElement track_element).
Proof.
  unfold TrackElementChildPropertyTracker_addTrackElement. stable_tac.
Qed.

Lemma stable_trackElementTrackSetCb (track_element : nat) :
  stable (TrackElementChildPropertyTracker_trackElementTrackSetCb
            track_element).
Proof.
  unfold TrackElementChildPropertyTracker_trackElementTrackSetCb. stable_tac.
Qed.

Lemma stable_propertyChangedCb (track_element : nat) (pspec : PSpec) :
  stable (TrackElementChildPropertyTracker_propertyChangedCb
            track_element pspec).
Proof.
  unfold TrackElementChildPropertyTracker_propertyChangedCb. stable_tac.
Qed.

#[local] Hint Resolve stable_addTrackElement stable_trackElementTrackSetCb
  stable_propertyChangedCb : stable.

Lemma stable_keyframeAddedCb (self control_source : nat) (keyframe : Keyframe) :
  stable (KeyframeChangeTracker_keyframeAddedCb self control_source keyframe).
Proof. unfold KeyframeChangeTracker_keyframeAddedCb. stable_tac. Qed.

Lemma stable_keyframeRemovedCb (self control_source : nat)
    (keyframe : Keyframe) :
  stable (KeyframeChangeTracker_keyframeRemovedCb self control_source keyframe).
Proof. unfold KeyframeChangeTracker_keyframeRemovedCb. stable_tac. Qed.

Lemma stable_controlSourceKeyFrameMovedCb (control_source : nat)
    (keyframe : Keyframe) (old_snapshot new_snapshot : N * Z) :
  stable (TimelineObserver_controlSourceKeyFrameMovedCb
            control_source keyframe old_snapshot new_snapshot).
Proof. unfold TimelineObserver_controlSourceKeyFrameMovedCb. stable_tac. Qed.

#[local] Hint Resolve stable_keyframeAddedCb stable_keyframeRemovedCb
  stable_controlSourceKeyFrameMovedCb : stable.

Lemma stable_run_keyframe_moved_callback (c : Connection) (args : SignalArgs) :
  stable (run_keyframe_moved_callback c args).
Proof. unfold run_keyframe_moved_callback. stable_tac. Qed.

#[local] Hint Resolve stable_run_keyframe_moved_callback : stable.

Lemma stable_keyframeMovedCb (self control_source : nat) (keyframe : Keyframe) :
  stable (KeyframeChangeTracker_keyframeMovedCb self control_source keyframe).
Proof. unfold KeyframeChangeTracker_keyframeMovedCb. stable_tac. Qed.

Lemma stable_connectToObject (self control_source : nat) :
  stable (KeyframeChangeTracker_connectToObject self control_source).
Proof.
  unfold KeyframeChangeTracker_connectToObject,
    KeyframeChangeTracker_takeCurrentSnapshot.
  stable_tac.
Qed.

Lemma stable_disconnectFromObject (self control_source : nat) :
  stable (KeyframeChangeTracker_disconnectFromObject self control_source).
Proof. unfold KeyframeChangeTracker_disconnectFromObject. stable_tac. Qed.

#[local] Hint Resolve stable_keyframeMovedCb stable_connectToObject
  stable_disconnectFromObject : stable.

Lemma stable_connectToControlSource (track_element : nat)
    (binding : ControlBinding) (existed : bool) :
  stable (TimelineObserver_connectToControlSource track_element binding existed).
Proof. unfold TimelineObserver_connectToControlSource. stable_tac. Qed.

Lemma stable_disconnectFromControlSource (binding : ControlBinding) :
  stable (TimelineObserver_disconnectFromControlSource binding).
Proof. unfold TimelineObserver_disconnectFromControlSource. stable_tac. Qed.

#[local] Hint Resolve stable_connectToControlSource
  stable_disconnectFromControlSource : stable.

Lemma stable_connectToTrackElement (track_element : nat) :
  stable (TimelineObserver_connectToTrackElement track_element).
Proof. unfold TimelineObserver_connectToTrackElement. stable_tac. Qed.

Lemma stable_disconnectFromTrackElement (track_element : nat) :
  stable (TimelineObserver_disconnectFromTrackElement track_element).
Proof. unfold TimelineObserver_disconnectFromTrackElement. stable_tac. Qed.

#[local] Hint Resolve stable_connectToTrackElement
  stable_disconnectFromTrackElement : stable.

Lemma stable_run_callback (c : Connection) (args : SignalArgs) :
  stable (run_callback c args).
Proof.
  unfold run_callback, TimelineObserver_controlBindingAddedCb,
    TimelineObserver_clipTrackElementAddedCb,
    TimelineObserver_clipTrackElementRemovedCb,
    TimelineObserver_controlSourceKeyFrameAddedCb,
    TimelineObserver_controlSourceKeyFrameRemovedCb,
    TrackElementAdded_init, TrackElementRemoved_init.
  stable_tac.
Qed.

(** Every emission is an observer step, and it returns. *)
Lemma emit_observer_step (obj : ObjRef) (signal : Signal) (args : SignalArgs)
    (w : World) :
  observer_step w (exec (emit obj signal args) w).
Proof.
  apply (stable_emit_with run_callback obj signal args).
  intros c. apply stable_run_callback.
Qed.

(** ** The model after the operations that emit *)

Lemma emit_after (w w_mid : World) (obj : ObjRef) (signal : Signal)
    (args : SignalArgs) :
  grows w w_mid ->
  w_model (exec (emit obj signal args) w_mid) = w_model w_mid /\
  grows w (exec (emit obj signal args) w_mid).
Proof.
  intros Hg. destruct (emit_observer_step obj signal args w_mid) as [Hm Hg'].
  split; [exact Hm | by eapply grows_trans].
Qed.

Lemma grows_with_model (f : Model -> Model) (w : World) :
  grows w (with_model f w).
Proof. split; [cbn; lia |]. split; [intros; reflexivity | intros; assumption]. Qed.

Lemma set_child_property_spec (e : nat) (name : string) (v : GValue)
    (w : World) :
  let w' := exec (set_child_property e name v) w in
  set_child_property e name v w = (Ok tt, w') /\
  w_model w' = model_set_child_property e name v (w_model w) /\
  grows w w'.
Proof.
  unfold exec, set_child_property, model_set_child_property, bind, get, element.
  destruct (snd (store_child name v _)) as [pspec |].
  - unfold update_element, modify. rewrite emit_returns. cbn [snd].
    split; [reflexivity |].
    apply emit_after, grows_with_model.
  - cbn. split; [reflexivity |]. split; [reflexivity | apply grows_refl].
Qed.

Lemma replay_spec (e : nat) (props : list (string * GValue)) (w : World) :
  let m := for_each props
             (fun item => set_child_property e (fst item) (snd item)) in
  m w = (Ok tt, exec m w) /\
  w_model (exec m w) = model_replay e props (w_model w) /\
  grows w (exec m w).
Proof.
  revert w. induction props as [| item props IH]; intros w; cbn [for_each].
  - split; [reflexivity |]. split; [reflexivity | apply grows_refl].
  - destruct (set_child_property_spec e (fst item) (snd item) w)
      as (Hrun & Hmodel & Hgrows).
    specialize (IH (exec (set_child_property e (fst item) (snd item)) w)).
    destruct IH as (Hrun' & Hmodel' & Hgrows').
    unfold exec, bind in *. rewrite Hrun. cbn [fst snd] in *.
    rewrite Hrun'. cbn [snd]. split; [reflexivity |].
    split; [| by eapply grows_trans].
    rewrite Hmodel', Hmodel. reflexivity.
Qed.

Lemma add_asset_spec (clip asset : nat) (w : World) :
  let e := w_next_id w in
  let w' := exec (add_asset clip asset) w in
  add_asset clip asset w = (Ok e, w') /\
  w_model w' = model_add_asset e clip asset (w_model w) /\
  grows w w' /\ e < w_next_id w'.
Proof.
  unfold exec, add_asset, fresh_id, update_clip, bind, modify, ret.
  rewrite emit_returns. cbn [fst snd].
  set (w_mid := with_model _ (with_model _ (with_next_id S w))).
  assert (Hmid : grows w w_mid).
  { split; [cbn; lia |]. split; [intros; reflexivity | intros; assumption]. }
  destruct (emit_after w w_mid (OClip clip) child_added
              (ArgsTrackElement (w_next_id w)) Hmid) as [Hmodel Hgrows].
  split; [reflexivity |]. split; [| split; [exact Hgrows |]].
  - rewrite Hmodel. reflexivity.
  - destruct (emit_observer_step (OClip clip) child_added
                (ArgsTrackElement (w_next_id w)) w_mid) as [_ (Hn & _)].
    change (w_next_id w_mid) with (S (w_next_id w)) in Hn. lia.
Qed.

Lemma remove_spec (clip e : nat) (w : World) :
  let w' := exec (remove clip e) w in
  remove clip e w = (Ok tt, w') /\
  w_model w' = model_remove clip e (w_model w) /\
  grows w w'.
Proof.
  unfold exec, remove, model_remove, bind, get, clip_of.
  destruct (decide (e ∈ c_children (m_clips (w_model w) !!! clip))).
  - unfold update_clip, modify. rewrite emit_returns. cbn [snd].
    split; [reflexivity |]. apply emit_after, grows_with_model.
  - cbn. split; [reflexivity |]. split; [reflexivity | apply grows_refl].
Qed.

(** ** The two bodies of the track-element actions *)

Lemma grows_action (w w' : World) (self : nat) :
  grows w w' -> self < w_next_id w -> action_of w' self = action_of w self.
Proof.
  intros (_ & Ha & _) Hlt. unfold action_of.
  rewrite !lookup_total_alt, Ha by exact Hlt. reflexivity.
Qed.

Lemma assign_eq (self : nat) (f : ActionFields -> ActionFields) (w : World) :
  assign self f w =
  (Ok tt,
   with_actions
     <[self := set_a_fields (f (a_fields (action_of w self)))
                 (action_of w self)]> w).
Proof. reflexivity. Qed.

Lemma reinstantiate_spec (self clip asset : nat)
    (props : list (string * GValue)) (w : World) :
  self < w_next_id w ->
  let e := w_next_id w in
  let w' := exec (reinstantiate self clip asset props) w in
  reinstantiate self clip asset props w = (Ok tt, w') /\
  w_model w' = model_replay e props (model_add_asset e clip asset (w_model w)) /\
  action_of w' self =
    set_a_fields
      (assign_props_changed NoPropsChanged
         (assign_track_element (Some e) (a_fields (action_of w self))))
      (action_of w self) /\
  w_next_id w < w_next_id w' /\
  (forall x, is_Some (w_tracked_track_elements w !! x) ->
             is_Some (w_tracked_track_elements w' !! x)).
Proof.
  intros Hself e w'.
  destruct (add_asset_spec clip asset w) as (Hadd & Hm1 & Hg1 & Hn1).
  fold e in Hadd, Hm1, Hn1.
  set (w1 := exec (add_asset clip asset) w) in *.
  set (w2 := with_actions
               <[self := set_a_fields
                           (assign_track_element (Some e)
                              (a_fields (action_of w1 self)))
                           (action_of w1 self)]> w1).
  destruct (replay_spec e props w2) as (Hrep & Hm3 & Hg3).
  set (w3 := exec (for_each props
                     (fun item => set_child_property e (fst item) (snd item)))
               w2) in *.
  assert (Hrun : reinstantiate self clip asset props w =
            (Ok tt,
             with_actions
               <[self := set_a_fields
                           (assign_props_changed NoPropsChanged
                              (a_fields (action_of w3 self)))
                           (action_of w3 self)]> w3)).
  { unfold reinstantiate. unfold bind at 1. rewrite Hadd.
    unfold bind at 1. rewrite assign_eq. fold w2.
    unfold bind at 1. rewrite Hrep. rewrite assign_eq. reflexivity. }
  assert (Ha1 : action_of w1 self = action_of w self)
    by (apply grows_action; assumption).
  assert (Ha3 : action_of w3 self = action_of w2 self).
  { apply grows_action; [exact Hg3 |].
    change (w_next_id w2) with (w_next_id w1). lia. }
  assert (Ha2 : action_of w2 self =
            set_a_fields (assign_track_element (Some e)
                            (a_fields (action_of w self))) (action_of w self)).
  { unfold w2. rewrite action_of_update, Ha1. reflexivity. }
  unfold w', exec. rewrite Hrun. cbn [snd].
  split; [reflexivity |]. split; [| split; [| split]].
  - change (w_model (with_actions _ w3)) with (w_model w3).
    rewrite Hm3. change (w_model w2) with (w_model w1). by rewrite Hm1.
  - rewrite action_of_update, Ha3, Ha2. reflexivity.
  - destruct Hg3 as (Hn3 & _).
    change (w_next_id (with_actions _ w3)) with (w_next_id w3).
    change (w_next_id w2) with (w_next_id w1) in Hn3. lia.
  - intros x Hx.
    change (w_tracked_track_elements (with_actions _ w3))
      with (w_tracked_track_elements w3).
    destruct Hg3 as (_ & _ & Ht3). apply Ht3.
    change (w_tracked_track_elements w2) with (w_tracked_track_elements w1).
    destruct Hg1 as (_ & _ & Ht1). by apply Ht1.
Qed.

Lemma capture_and_remove_spec (self clip track_element : nat) (w : World) :
  self < w_next_id w ->
  let captured := writable_child_properties (element w track_element) in
  let w1 :=
    exec (assign self (assign_track_element_props captured) ;;
          remove clip track_element) w in
  capture_and_remove self clip (Some track_element) w =
    match w_tracked_track_elements w1 !! track_element with
    | None => (Raise KeyError, w1)
    | Some _ =>
        (Ok tt,
         with_actions
           <[self := set_a_fields
                       (assign_track_element None
                          (assign_props_changed (TrackedPropsOf track_element)
                             (assign_track_element_props captured
                                (a_fields (action_of w self)))))
                       (action_of w self)]> w1)
    end /\
  w_model w1 = model_remove clip track_element (w_model w) /\
  w_next_id w <= w_next_id w1 /\
  (forall x, is_Some (w_tracked_track_elements w !! x) ->
             is_Some (w_tracked_track_elements w1 !! x)).
Proof.
  intros Hself captured w1.
  set (w0 := with_actions
               <[self := set_a_fields
                           (assign_track_element_props captured
                              (a_fields (action_of w self)))
                           (action_of w self)]> w).
  destruct (remove_spec clip track_element w0) as (Hrem & Hm1 & Hg1).
  assert (Hw1 : w1 = exec (remove clip track_element) w0).
  { unfold w1, exec, bind. rewrite assign_eq. reflexivity. }
  rewrite <- Hw1 in Hrem, Hm1, Hg1.
  assert (Ha1 : action_of w1 self =
            set_a_fields (assign_track_element_props captured
                            (a_fields (action_of w self))) (action_of w self)).
  { rewrite (grows_action w0 w1 self Hg1) by exact Hself.
    unfold w0. by rewrite action_of_update. }
  split; [| split; [exact Hm1 | split]].
  - unfold capture_and_remove. unfold bind at 1, get.
    fold captured. unfold bind at 1. rewrite assign_eq. fold w0.
    unfold bind at 1. rewrite Hrem.
    unfold TrackElementChildPropertyTracker_getPropChangedFromTrackElement,
      bind at 1 2, get.
    destruct (w_tracked_track_elements w1 !! track_element);
      [| reflexivity].
    unfold ret, bind. rewrite !assign_eq. rewrite action_of_update, Ha1.
    unfold with_actions; cbn. rewrite insert_insert_eq.
    by destruct (action_of w self) as [st []].
  - destruct Hg1 as (Hn & _). exact Hn.
  - intros x Hx. destruct Hg1 as (_ & _ & Ht). by apply Ht.
Qed.

(** ** Writing and reading child properties *)

Lemma store_child_unwritten (name : string) (v : GValue)
    (l : list (PSpec * GValue)) :
  snd (store_child name v l) = None -> fst (store_child name v l) = l.
Proof.
  induction l as [| [p old] l IH]; [reflexivity |]. cbn [store_child].
  destruct (decide (child_property_name p = name)).
  - destruct (ps_writable p); [discriminate | reflexivity].
  - destruct (store_child name v l) as [r written]. cbn in *.
    intros Hw. by rewrite IH.
Qed.

Lemma lookup_store_same (name : string) (v tv : GValue) (p : PSpec)
    (l : list (PSpec * GValue)) :
  lookup_child name l = Some (p, tv) -> ps_writable p = true ->
  lookup_child name (fst (store_child name v l)) = Some (p, v).
Proof.
  induction l as [| [q old] l IH]; [discriminate |].
  cbn [lookup_child store_child].
  destruct (decide (child_property_name q = name)) as [Hq | Hq].
  - intros [= -> ->] Hw. rewrite Hw. cbn. by rewrite decide_True.
  - intros Hl Hw. destruct (store_child name v l) as [r written]. cbn in *.
    rewrite decide_False by done. by apply IH.
Qed.

Lemma lookup_store_other (name name' : string) (v : GValue)
    (l : list (PSpec * GValue)) :
  name' <> name ->
  lookup_child name (fst (store_child name' v l)) = lookup_child name l.
Proof.
  intros Hne. induction l as [| [q old] l IH]; [reflexivity |].
  cbn [lookup_child store_child].
  destruct (decide (child_property_name q = name')) as [Hq | Hq].
  - destruct (ps_writable q); cbn [fst lookup_child];
      rewrite !decide_False by congruence; reflexivity.
  - destruct (store_child name' v l) as [r written]. cbn in *.
    by rewrite IH.
Qed.

Lemma replayed_lookup_other (name : string) (props : list (string * GValue))
    (l : list (PSpec * GValue)) :
  name ∉ map fst props ->
  lookup_child name (replayed props l) = lookup_child name l.
Proof.
  revert l. induction props as [| [n v] props IH]; intros l Hn;
    [reflexivity |].
  cbn [map fst] in Hn. apply not_elem_of_cons in Hn as [Hne Hn].
  cbn [replayed fold_left fst snd].
  fold (replayed props (fst (store_child n v l))).
  rewrite IH by exact Hn. apply lookup_store_other. congruence.
Qed.

(** Replaying pairs with distinct names gives every writable property
    that is named the value paired with its name. *)
Lemma replayed_lookup (name : string) (v tv : GValue) (p : PSpec)
    (props : list (string * GValue)) (l : list (PSpec * GValue)) :
  NoDup (map fst props) -> (name, v) ∈ props ->
  lookup_child name l = Some (p, tv) -> ps_writable p = true ->
  lookup_child name (replayed props l) = Some (p, v).
Proof.
  revert l tv. induction props as [| [n v'] props IH]; intros l tv Hnd Hin Hl Hw.
  - by apply elem_of_nil in Hin.
  - cbn [map fst] in Hnd. apply NoDup_cons in Hnd as [Hfresh Hnd].
    cbn [replayed fold_left fst snd].
    fold (replayed props (fst (store_child n v' l))).
    apply elem_of_cons in Hin as [[= <- <-] | Hin].
    + rewrite replayed_lookup_other by exact Hfresh.
      by eapply lookup_store_same.
    + assert (Hne : n <> name).
      { intros ->. apply Hfresh. apply list_elem_of_fmap. by exists (name, v). }
      eapply IH; [exact Hnd | exact Hin | | exact Hw].
      rewrite lookup_store_other by exact Hne. exact Hl.
Qed.

Lemma writable_child_properties_elem (te : TrackElement) (name : string)
    (v : GValue) :
  (name, v) ∈ writable_child_properties te <->
  exists prop, prop ∈ list_children_properties te /\
               ps_writable prop = true /\
               (ps_name prop ∉ PROPS_TO_IGNORE) /\
               name = child_property_name prop /\
               v = snd (get_child_property te name).
Proof.
  unfold writable_child_properties. rewrite list_elem_of_fmap. split.
  - intros (prop & [= -> ->] & Hin).
    apply list_elem_of_filter in Hin as [[Hw Hn] Hin]. eauto 10.
  - intros (prop & Hin & Hw & Hn & -> & ->). exists prop.
    split; [reflexivity |]. apply list_elem_of_filter. auto.
Qed.

Lemma set_te_children_props_same (te : TrackElement) :
  set_te_children_props (te_children_props te) te = te.
Proof. by destruct te. Qed.

Lemma model_set_child_property_element (e : nat) (name : string) (v : GValue)
    (m : Model) :
  m_elements (model_set_child_property e name v m) !!! e
  = set_te_children_props
      (fst (store_child name v (te_children_props (m_elements m !!! e))))
      (m_elements m !!! e) /\
  m_clips (model_set_child_property e name v m) = m_clips m.
Proof.
  unfold model_set_child_property.
  destruct (snd (store_child name v _)) as [pspec |] eqn:Hw.
  - cbn. by rewrite lookup_total_insert_eq.
  - rewrite store_child_unwritten by exact Hw.
    by rewrite set_te_children_props_same.
Qed.

Lemma model_replay_element (e : nat) (props : list (string * GValue))
    (m : Model) :
  m_elements (model_replay e props m) !!! e
  = set_te_children_props
      (replayed props (te_children_props (m_elements m !!! e)))
      (m_elements m !!! e) /\
  m_clips (model_replay e props m) = m_clips m.
Proof.
  revert m. induction props as [| [n v] props IH]; intros m.
  - cbn. by rewrite set_te_children_props_same.
  - cbn [model_replay replayed fold_left fst snd].
    fold (model_replay e props (model_set_child_property e n v m)).
    fold (replayed props
            (fst (store_child n v (te_children_props (m_elements m !!! e))))).
    destruct (IH (model_set_child_property e n v m)) as [-> ->].
    destruct (model_set_child_property_element e n v m) as [-> ->].
    by destruct (m_elements m !!! e).
Qed.

Lemma filter_other_id (e : nat) (l : list nat) :
  e ∉ l -> filter (fun e' => e' ≠ e) l = l.
Proof.
  induction l as [| x l IH]; [reflexivity |]. intros Hn.
  apply not_elem_of_cons in Hn as [Hne Hn].
  rewrite filter_cons, decide_True by congruence. by rewrite IH.
Qed.

Lemma model_remove_children (clip e : nat) (m : Model) :
  c_children (m_clips (model_remove clip e m) !!! clip)
  = filter (fun e' => e' ≠ e) (c_children (m_clips m !!! clip)).
Proof.
  unfold model_remove. destruct (decide (e ∈ _)) as [Hin | Hnin].
  - cbn. by rewrite lookup_total_insert_eq.
  - by rewrite filter_other_id.
Qed.

Lemma capture_and_remove_achieves (m : M unit) (self clip track_element : nat)
    (mark : ActionState) (w : World) :
  self < w_next_id w ->
  match a_fields (action_of w self) with
  | TrackElementAdded _ _ _ _ _ | TrackElementRemoved _ _ _ _ _ => True
  | _ => False
  end ->
  m w = bind (capture_and_remove self clip (Some track_element))
             (fun _ => update_action self (set_a_state mark)) w ->
  captures_then_removes m self clip track_element mark w.
Proof.
  intros Hself Hkind Hm.
  destruct (capture_and_remove_spec self clip track_element w Hself)
    as (Hrun & Hmodel & _ & Htracked).
  set (w1 := exec _ w) in *.
  unfold captures_then_removes, exec. rewrite Hm. unfold bind. rewrite Hrun.
  destruct (w_tracked_track_elements w1 !! track_element) as [x |] eqn:Hx.
  - unfold update_action, modify. cbn [fst snd].
    split; [| split; [reflexivity |]].
    + unfold clip_of. change (w_model (with_actions _ (with_actions _ w1)))
        with (w_model w1). rewrite Hmodel. apply model_remove_children.
    + intros _. rewrite !action_of_update.
      by destruct (a_fields (action_of w self)).
  - cbn [fst snd]. split; [| split].
    + unfold clip_of. rewrite Hmodel. apply model_remove_children.
    + intros Hknown. apply Htracked in Hknown. rewrite Hx in Hknown.
      by destruct Hknown.
    + discriminate.
Qed.

Lemma reinstantiate_achieves (m : M unit) (self clip asset : nat)
    (props : list (string * GValue)) (mark : ActionState) (w : World) :
  self < w_next_id w ->
  match a_fields (action_of w self) with
  | TrackElementAdded _ _ _ props' _ | TrackElementRemoved _ _ _ props' _ =>
      props' = props
  | _ => False
  end ->
  m w = bind (reinstantiate self clip asset props)
             (fun _ => update_action self (set_a_state mark)) w ->
  reinstantiates m self clip asset props mark w.
Proof.
  intros Hself Hkind Hm.
  destruct (reinstantiate_spec self clip asset props w Hself)
    as (Hrun & Hmodel & Haction & _ & _).
  set (w1 := exec _ w) in *.
  unfold reinstantiates, exec. rewrite Hm. unfold bind. rewrite Hrun.
  unfold update_action, modify. cbn [fst snd].
  rewrite !action_of_update, Haction.
  unfold clip_of, element.
  change (w_model (with_actions _ w1)) with (w_model w1). rewrite Hmodel.
  destruct (model_replay_element (w_next_id w) props
              (model_add_asset (w_next_id w) clip asset (w_model w)))
    as [-> ->].
  unfold model_add_asset. cbn. rewrite !lookup_total_insert_eq.
  split; [reflexivity |].
  destruct (a_fields (action_of w self)); try contradiction; subst; by cbn.
Qed.

(** ** Round trips *)

Lemma observably_equal_refl (w : World) : observably_equal w w.
Proof. by repeat split. Qed.

Lemma observably_equal_model (w w' : World) :
  w_model w = w_model w' -> observably_equal w w'.
Proof.
  intros Hm. unfold observably_equal, layer_of, observed_clip, source_of,
    clip_of, element. rewrite Hm. by repeat split.
Qed.

Lemma seq3_returns (a b c : M unit) (w : World) :
  fst ((a ;; b ;; c) w) = Ok tt ->
  a w = (Ok tt, exec a w) /\
  b (exec a w) = (Ok tt, exec b (exec a w)) /\
  c (exec b (exec a w)) = (Ok tt, exec c (exec b (exec a w))) /\
  exec (a ;; b ;; c) w = exec c (exec b (exec a w)).
Proof.
  unfold exec, bind.
  destruct (a w) as [[[] | e] w1]; [| discriminate]. cbn [snd].
  destruct (b w1) as [[[] | e] w2]; [| discriminate]. cbn [snd].
  destruct (c w2) as [[[] | e] w3]; [| discriminate]. cbn [snd].
  by intros _.
Qed.

Lemma round_trip_runs (a b : M unit) (w w1 w2 w3 : World) :
  a w = (Ok tt, w1) -> b w1 = (Ok tt, w2) -> a w2 = (Ok tt, w3) ->
  exec (a ;; b ;; a) w = w3 /\ exec a w = w1.
Proof.
  intros H1 H2 H3. unfold exec, bind. by rewrite H1, H2, H3.
Qed.

Lemma LayerMoved_round_trip (w : World) (self ges_layer : nat)
    (old_priority priority : N) :
  a_fields (action_of w self) = LayerMoved ges_layer old_priority priority ->
  observably_equal (exec (do self ;; undo self ;; do self) w)
                   (exec (do self) w).
Proof.
  intros Hf. apply observably_equal_model.
  assert (Hdo : forall w0, a_fields (action_of w0 self)
                  = LayerMoved ges_layer old_priority priority ->
            do self w0 = (Ok tt, with_model (with_layers
              <[ges_layer := set_ly_priority priority (layer_of w0 ges_layer)]>)
              w0)).
  { intros w0 Hf0. unfold do, bind, get. by rewrite Hf0. }
  assert (Hundo : forall w0, a_fields (action_of w0 self)
                  = LayerMoved ges_layer old_priority priority ->
            undo self w0 = (Ok tt, with_model (with_layers
              <[ges_layer := set_ly_priority old_priority
                               (layer_of w0 ges_layer)]>) w0)).
  { intros w0 Hf0. unfold undo, bind, get. by rewrite Hf0. }
  unfold exec, bind.
  rewrite (Hdo w Hf). rewrite Hundo by exact Hf. rewrite Hdo by exact Hf.
  cbn [snd]. unfold layer_of, with_model, with_layers; cbn.
  rewrite !lookup_total_insert_eq, !insert_insert_eq. reflexivity.
Qed.

(** Reading a layer after the layer operations. *)
Lemma add_layer_reads (timeline layer : nat) (w : World) :
  let w' := exec (add_layer timeline layer) w in
  (forall l, layer_of w' l =
     if decide (l = layer) then
       set_ly_timeline
         (match ly_timeline (layer_of w layer) with
          | None => Some timeline
          | Some t => Some t
          end) (layer_of w layer)
     else layer_of w l) /\
  m_clips (w_model w') = m_clips (w_model w) /\
  m_elements (w_model w') = m_elements (w_model w) /\
  m_sources (w_model w') = m_sources (w_model w) /\
  w_actions w' = w_actions w.
Proof.
  unfold exec. rewrite add_layer_eq. cbn [snd].
  destruct (ly_timeline (layer_of w layer)) as [t |] eqn:Ht.
  - repeat split. intros l. destruct (decide (l = layer)) as [-> |]; [| done].
    rewrite <- Ht. by destruct (layer_of w layer).
  - repeat split. intros l. unfold layer_of at 1.
    cbn [w_model with_model with_layers m_layers].
    destruct (decide (l = layer)) as [-> |].
    + by rewrite lookup_total_insert_eq.
    + by rewrite lookup_total_insert_ne.
Qed.

Lemma remove_layer_reads (timeline layer : nat) (w : World) :
  let w' := exec (remove_layer timeline layer ;; commit_timeline timeline) w in
  (remove_layer timeline layer ;; commit_timeline timeline) w = (Ok tt, w') /\
  (forall l, layer_of w' l =
     if decide (l = layer) then
       set_ly_timeline
         (if decide (ly_timeline (layer_of w layer) = Some timeline)
          then None else ly_timeline (layer_of w layer)) (layer_of w layer)
     else layer_of w l) /\
  m_clips (w_model w') = m_clips (w_model w) /\
  m_elements (w_model w') = m_elements (w_model w) /\
  m_sources (w_model w') = m_sources (w_model w) /\
  w_actions w' = w_actions w.
Proof.
  unfold exec, bind. rewrite remove_layer_eq. cbn [snd fst].
  unfold commit_timeline, modify. cbn [snd].
  destruct (decide (ly_timeline (layer_of w layer) = Some timeline))
    as [Ht | Ht].
  - repeat split. intros l. unfold layer_of at 1.
    cbn [w_model with_model with_layers with_timelines m_layers].
    destruct (decide (l = layer)) as [-> |].
    + by rewrite lookup_total_insert_eq.
    + by rewrite lookup_total_insert_ne.
  - repeat split. intros l. destruct (decide (l = layer)) as [-> |]; [| done].
    unfold layer_of at 1.
    cbn [w_model with_model with_layers with_timelines m_layers].
    fold (layer_of w layer). by destruct (layer_of w layer).
Qed.

Lemma observably_equal_reads (w w' : World) :
  (forall l, layer_of w l = layer_of w' l) ->
  (forall c, clip_of w c = clip_of w' c) ->
  (forall e, element w e = element w' e) ->
  (forall cs, source_of w cs = source_of w' cs) ->
  observably_equal w w'.
Proof.
  intros Hl Hc He Hs. split; [exact Hl |]. split; [| exact Hs].
  intros c. unfold observed_clip. rewrite Hc. f_equal.
  apply map_ext. intros e. apply He.
Qed.

Lemma add_layer_run (timeline layer : nat) (w : World) :
  add_layer timeline layer w = (Ok tt, exec (add_layer timeline layer) w).
Proof. unfold exec. by rewrite add_layer_eq. Qed.

Lemma layer_set_round_trip (timeline layer : nat) (w : World) :
  let added := exec (add_layer timeline layer) in
  let removed :=
    exec (remove_layer timeline layer ;; commit_timeline timeline) in
  observably_equal (added (removed (added w))) (added w) /\
  observably_equal (removed (added (removed w))) (removed w).
Proof.
  intros added removed.
  assert (Hadd : forall w0, _) by exact (add_layer_reads timeline layer).
  assert (Hrem : forall w0, _) by exact (remove_layer_reads timeline layer).
  cbv zeta in Hadd, Hrem. fold added in Hadd. fold removed in Hrem.
  split.
  - destruct (Hadd w) as (Hl1 & Hc1 & He1 & Hs1 & _).
    destruct (Hrem (added w)) as (_ & Hl2 & Hc2 & He2 & Hs2 & _).
    destruct (Hadd (removed (added w))) as (Hl3 & Hc3 & He3 & Hs3 & _).
    apply observably_equal_reads.
    + intros l. rewrite Hl3, Hl1.
      destruct (decide (l = layer)) as [-> |].
      * rewrite Hl2, Hl1. rewrite !(decide_True (P := layer = layer)) by done.
        generalize (layer_of w layer).
        intros [pr au [t |]]; unfold set_ly_timeline; cbn;
          repeat (case_decide; cbn in * ); congruence.
      * rewrite Hl2, decide_False by done.
        rewrite Hl1, decide_False by done. reflexivity.
    + intros c. unfold clip_of. by rewrite Hc3, Hc2.
    + intros e. unfold element. by rewrite He3, He2.
    + intros cs. unfold source_of. by rewrite Hs3, Hs2.
  - destruct (Hrem w) as (_ & Hl1 & Hc1 & He1 & Hs1 & _).
    destruct (Hadd (removed w)) as (Hl2 & Hc2 & He2 & Hs2 & _).
    destruct (Hrem (added (removed w))) as (_ & Hl3 & Hc3 & He3 & Hs3 & _).
    apply observably_equal_reads.
    + intros l. rewrite Hl3, Hl1.
      destruct (decide (l = layer)) as [-> |].
      * rewrite Hl2, Hl1. rewrite !(decide_True (P := layer = layer)) by done.
        generalize (layer_of w layer).
        intros [pr au [t |]]; unfold set_ly_timeline; cbn;
          repeat (case_decide; cbn in * ); congruence.
      * rewrite Hl2, decide_False by done.
        rewrite Hl1, decide_False by done. reflexivity.
    + intros c. unfold clip_of. by rewrite Hc3, Hc2.
    + intros e. unfold element. by rewrite He3, He2.
    + intros cs. unfold source_of. by rewrite Hs3, Hs2.
Qed.

Lemma LayerAdded_round_trip (w : World) (self ges_timeline ges_layer : nat) :
  a_fields (action_of w self) = LayerAdded ges_timeline ges_layer ->
  observably_equal (exec (do self ;; undo self ;; do self) w)
                   (exec (do self) w).
Proof.
  intros Hf.
  assert (Hdo : forall w0, w_actions w0 = w_actions w ->
            do self w0 = (Ok tt, exec (add_layer ges_timeline ges_layer) w0)).
  { intros w0 Ha. unfold do, bind at 1, get, action_of. rewrite Ha.
    fold (action_of w self). rewrite Hf. apply add_layer_run. }
  assert (Hundo : forall w0, w_actions w0 = w_actions w ->
            undo self w0
            = (Ok tt, exec (remove_layer ges_timeline ges_layer ;;
                            commit_timeline ges_timeline) w0)).
  { intros w0 Ha. unfold undo, bind at 1, get, action_of. rewrite Ha.
    fold (action_of w self). rewrite Hf.
    apply (remove_layer_reads ges_timeline ges_layer w0). }
  destruct (add_layer_reads ges_timeline ges_layer w) as (_ & _ & _ & _ & Ha1).
  destruct (remove_layer_reads ges_timeline ges_layer
              (exec (add_layer ges_timeline ges_layer) w))
    as (_ & _ & _ & _ & _ & Ha2).
  destruct (round_trip_runs (do self) (undo self) w _ _ _
              (Hdo w eq_refl) (Hundo _ Ha1) (Hdo _ (eq_trans Ha2 Ha1)))
    as [-> ->].
  apply (layer_set_round_trip ges_timeline ges_layer w).
Qed.

Lemma LayerRemoved_round_trip (w : World) (self ges_timeline ges_layer : nat) :
  a_fields (action_of w self) = LayerRemoved ges_timeline ges_layer ->
  observably_equal (exec (do self ;; undo self ;; do self) w)
                   (exec (do self) w).
Proof.
  intros Hf.
  assert (Hundo : forall w0, w_actions w0 = w_actions w ->
            undo self w0 = (Ok tt, exec (add_layer ges_timeline ges_layer) w0)).
  { intros w0 Ha. unfold undo, bind at 1, get, action_of. rewrite Ha.
    fold (action_of w self). rewrite Hf. apply add_layer_run. }
  assert (Hdo : forall w0, w_actions w0 = w_actions w ->
            do self w0
            = (Ok tt, exec (remove_layer ges_timeline ges_layer ;;
                            commit_timeline ges_timeline) w0)).
  { intros w0 Ha. unfold do, bind at 1, get, action_of. rewrite Ha.
    fold (action_of w self). rewrite Hf.
    apply (remove_layer_reads ges_timeline ges_layer w0). }
  destruct (remove_layer_reads ges_timeline ges_layer w)
    as (_ & _ & _ & _ & _ & Ha1).
  destruct (add_layer_reads ges_timeline ges_layer
              (exec (remove_layer ges_timeline ges_layer ;;
                     commit_timeline ges_timeline) w))
    as (_ & _ & _ & _ & Ha2).
  destruct (round_trip_runs (do self) (undo self) w _ _ _
              (Hdo w eq_refl) (Hundo _ Ha1) (Hdo _ (eq_trans Ha2 Ha1)))
    as [-> ->].
  apply (layer_set_round_trip ges_timeline ges_layer w).
Qed.

Lemma bind_assoc {A B C} (m : M A) (k : A -> M B) (k' : B -> M C) (w : World) :
  bind (bind m k) k' w = bind m (fun x => bind (k x) k') w.
Proof. unfold bind. by destruct (m w) as [[a | e] w']. Qed.

(** Two sequences of the same statements, grouped differently. *)
Ltac regroup :=
  unfold bind;
  repeat match goal with
         | |- context [let (_, _) := ?x in _] => destruct x as [[[] | ?] ?]
         end;
  reflexivity.

(** The method of the action's class, once its attributes are known. *)
Ltac method Hf :=
  split;
  [ unfold do; unfold bind at 1, get; rewrite Hf; regroup
  | unfold undo; unfold bind at 1, get; rewrite Hf; regroup ].

(** A method that runs a body and then marks the action. *)
Lemma run_marked (body : M unit) (self : nat) (mark : ActionState)
    (w : World) :
  body w = (Ok tt, exec body w) ->
  (body ;; update_action self (set_a_state mark)) w
  = (Ok tt,
     with_actions
       <[self := set_a_state mark (action_of (exec body w) self)]>
       (exec body w)).
Proof. intros Hb. unfold bind. rewrite Hb. reflexivity. Qed.

Lemma marked_returns (body : M unit) (self : nat) (mark : ActionState)
    (w : World) :
  fst ((body ;; update_action self (set_a_state mark)) w) = Ok tt ->
  body w = (Ok tt, exec body w).
Proof.
  unfold bind, exec. destruct (body w) as [[[] | e] w']; [done | discriminate].
Qed.

Lemma observably_equal_fields (w w' : World) :
  (forall l, layer_of w l = layer_of w' l) ->
  (forall c, c_layer (clip_of w c) = c_layer (clip_of w' c) /\
             c_props (clip_of w c) = c_props (clip_of w' c) /\
             c_transition (clip_of w c) = c_transition (clip_of w' c) /\
             c_children (clip_of w c) = c_children (clip_of w' c)) ->
  (forall e, element w e = element w' e) ->
  (forall cs, source_of w cs = source_of w' cs) ->
  observably_equal w w'.
Proof.
  intros Hl Hc He Hs. split; [exact Hl |]. split; [| exact Hs].
  intros c. unfold observed_clip.
  destruct (Hc c) as (-> & -> & -> & ->). f_equal.
  apply map_ext. intros e. apply He.
Qed.

(** Reading a store after one of its objects was replaced. *)
Lemma clip_of_insert (clip c : nat) (x : Clip) (w : World) :
  clip_of (with_model (with_clips <[clip := x]>) w) c
  = if decide (c = clip) then x else clip_of w c.
Proof.
  unfold clip_of. cbn. destruct (decide (c = clip)) as [-> | Hne].
  - apply lookup_total_insert_eq.
  - by apply lookup_total_insert_ne.
Qed.

Lemma element_insert (e x : nat) (te : TrackElement) (w : World) :
  element (with_model (with_elements <[e := te]>) w) x
  = if decide (x = e) then te else element w x.
Proof.
  unfold element. cbn. destruct (decide (x = e)) as [-> | Hne].
  - apply lookup_total_insert_eq.
  - by apply lookup_total_insert_ne.
Qed.

Lemma source_of_insert (cs x : nat) (src : gmap N Z) (w : World) :
  source_of (with_model (with_sources <[cs := src]>) w) x
  = if decide (x = cs) then src else source_of w x.
Proof.
  unfold source_of. cbn. destruct (decide (x = cs)) as [-> | Hne].
  - apply lookup_total_insert_eq.
  - by apply lookup_total_insert_ne.
Qed.

(** The clip operations in closed form. *)
Lemma set_name_None_eq (clip : nat) (w : World) :
  set_name_None clip w =
  (Ok tt,
   with_model
     (with_clips <[clip := set_c_name (w_next_id w) (clip_of w clip)]>)
     (with_next_id S w)).
Proof. reflexivity. Qed.

Lemma add_clip_eq (layer clip : nat) (w : World) :
  add_clip layer clip w =
  (Ok tt,
   match c_layer (clip_of w clip) with
   | None =>
       with_model
         (with_clips <[clip := set_c_layer (Some layer) (clip_of w clip)]>) w
   | Some _ => w
   end).
Proof.
  unfold add_clip, bind, get. by destruct (c_layer (clip_of w clip)).
Qed.

Lemma remove_clip_eq (layer clip : nat) (w : World) :
  remove_clip layer clip w =
  (Ok tt,
   if decide (c_layer (clip_of w clip) = Some layer) then
     with_model (with_clips <[clip := set_c_layer None (clip_of w clip)]>) w
   else w).
Proof.
  unfold remove_clip, bind, get.
  by destruct (decide (c_layer (clip_of w clip) = Some layer)).
Qed.

Lemma commit_timeline_of_layer_eq (layer : nat) (w : World) :
  commit_timeline_of_layer layer w =
  match ly_timeline (layer_of w layer) with
  | None => (Raise AttributeError, w)
  | Some timeline =>
      (Ok tt,
       with_model
         (with_timelines
            <[timeline :=
                {| tl_commits :=
                     S (tl_commits (m_timelines (w_model w) !!! timeline)) |}]>)
         w)
  end.
Proof.
  unfold commit_timeline_of_layer, bind, get.
  by destruct (ly_timeline (layer_of w layer)).
Qed.

(** A commit, granted or refused, leaves layers, clips, elements,
    sources and actions as they are. *)
Lemma commit_timeline_of_layer_reads (layer : nat) (w : World) :
  let w' := exec (commit_timeline_of_layer layer) w in
  m_layers (w_model w') = m_layers (w_model w) /\
  m_clips (w_model w') = m_clips (w_model w) /\
  m_elements (w_model w') = m_elements (w_model w) /\
  m_sources (w_model w') = m_sources (w_model w) /\
  w_actions w' = w_actions w /\ w_next_id w' = w_next_id w.
Proof.
  unfold exec. rewrite commit_timeline_of_layer_eq.
  by destruct (ly_timeline (layer_of w layer)).
Qed.

(** Reading the clips after the two bodies of the clip actions. *)
Lemma clip_add_reads (layer clip : nat) (w : World) :
  let body := set_name_None clip ;; add_clip layer clip ;;
              commit_timeline_of_layer layer in
  let w' := exec body w in
  (forall c, clip_of w' c =
     if decide (c = clip) then clip_entered layer (w_next_id w) (clip_of w clip)
     else clip_of w c) /\
  m_layers (w_model w') = m_layers (w_model w) /\
  m_elements (w_model w') = m_elements (w_model w) /\
  m_sources (w_model w') = m_sources (w_model w) /\
  w_actions w' = w_actions w.
Proof.
  intros body w'.
  set (w1 := with_model
               (with_clips <[clip := set_c_name (w_next_id w) (clip_of w clip)]>)
               (with_next_id S w)).
  set (w2 := exec (add_clip layer clip) w1).
  assert (Hw' : w' = exec (commit_timeline_of_layer layer) w2).
  { unfold w', body, exec, bind. rewrite set_name_None_eq. fold w1.
    unfold w2, exec. rewrite add_clip_eq. cbn [fst snd].
    by destruct (commit_timeline_of_layer layer _) as [[[] | e] w3]. }
  destruct (commit_timeline_of_layer_reads layer w2)
    as (Hl & Hc & He & Hs & Ha & _).
  rewrite <- Hw' in Hl, Hc, He, Hs, Ha.
  assert (Hclip1 : clip_of w1 clip = set_c_name (w_next_id w) (clip_of w clip)).
  { unfold w1. rewrite clip_of_insert. by rewrite decide_True. }
  assert (H2 : (forall c, clip_of w2 c =
                  if decide (c = clip)
                  then clip_entered layer (w_next_id w) (clip_of w clip)
                  else clip_of w c) /\
               m_layers (w_model w2) = m_layers (w_model w) /\
               m_elements (w_model w2) = m_elements (w_model w) /\
               m_sources (w_model w2) = m_sources (w_model w) /\
               w_actions w2 = w_actions w).
  { unfold w2, exec. rewrite add_clip_eq. cbn [snd]. rewrite Hclip1.
    unfold clip_entered.
    destruct (c_layer (set_c_name (w_next_id w) (clip_of w clip)))
      as [l |] eqn:Hlayer.
    - assert (Hl0 : c_layer (clip_of w clip) = Some l) by exact Hlayer.
      rewrite Hl0. split; [| by repeat split].
      intros c. unfold w1. rewrite clip_of_insert.
      destruct (decide (c = clip)); [| reflexivity].
      rewrite <- Hl0. by destruct (clip_of w clip).
    - assert (Hl0 : c_layer (clip_of w clip) = None) by exact Hlayer.
      rewrite Hl0. split; [| by repeat split].
      intros c. rewrite clip_of_insert.
      destruct (decide (c = clip)); [reflexivity |].
      unfold w1. rewrite clip_of_insert. by rewrite decide_False. }
  destruct H2 as (Hc2 & Hl2 & He2 & Hs2 & Ha2).
  split; [| by rewrite Hl, He, Hs, Ha].
  intros c. unfold clip_of. rewrite Hc. apply Hc2.
Qed.

Lemma clip_remove_reads (layer clip : nat) (w : World) :
  let body := remove_clip layer clip ;; commit_timeline_of_layer layer in
  let w' := exec body w in
  (forall c, clip_of w' c =
     if decide (c = clip) then clip_left layer (clip_of w clip)
     else clip_of w c) /\
  m_layers (w_model w') = m_layers (w_model w) /\
  m_elements (w_model w') = m_elements (w_model w) /\
  m_sources (w_model w') = m_sources (w_model w) /\
  w_actions w' = w_actions w.
Proof.
  intros body w'.
  set (w2 := exec (remove_clip layer clip) w).
  assert (Hw' : w' = exec (commit_timeline_of_layer layer) w2).
  { unfold w', body, exec, bind. unfold w2, exec.
    rewrite remove_clip_eq. cbn [fst snd].
    by destruct (commit_timeline_of_layer layer _) as [[[] | e] w3]. }
  destruct (commit_timeline_of_layer_reads layer w2)
    as (Hl & Hc & He & Hs & Ha & _).
  rewrite <- Hw' in Hl, Hc, He, Hs, Ha.
  assert (H2 : (forall c, clip_of w2 c =
                  if decide (c = clip) then clip_left layer (clip_of w clip)
                  else clip_of w c) /\
               m_layers (w_model w2) = m_layers (w_model w) /\
               m_elements (w_model w2) = m_elements (w_model w) /\
               m_sources (w_model w2) = m_sources (w_model w) /\
               w_actions w2 = w_actions w).
  { unfold w2, exec. rewrite remove_clip_eq. cbn [snd]. unfold clip_left.
    destruct (decide (c_layer (clip_of w clip) = Some layer)) as [Hin | Hout].
    - split; [| by repeat split]. intros c. apply clip_of_insert.
    - split; [| by repeat split]. intros c.
      destruct (decide (c = clip)) as [-> |]; [| reflexivity].
      by destruct (clip_of w clip). }
  destruct H2 as (Hc2 & Hl2 & He2 & Hs2 & Ha2).
  split; [| by rewrite Hl, He, Hs, Ha].
  intros c. unfold clip_of. rewrite Hc. apply Hc2.
Qed.

(** The round trip of an action whose two methods run a body and mark,
    and whose bodies leave the attributes of the action alone. *)
Lemma marked_round_trip (P : World -> Prop) (bd bu : M unit)
    (md mu : ActionState) (self : nat) (fields : ActionFields) (w : World) :
  (forall w0, a_fields (action_of w0 self) = fields ->
     do self w0 = (bd ;; update_action self (set_a_state md)) w0 /\
     undo self w0 = (bu ;; update_action self (set_a_state mu)) w0) ->
  (forall w0, P w0 -> a_fields (action_of w0 self) = fields ->
     a_fields (action_of (exec bd w0) self) = fields /\ P (exec bd w0)) ->
  (forall w0, P w0 -> a_fields (action_of w0 self) = fields ->
     a_fields (action_of (exec bu w0) self) = fields /\ P (exec bu w0)) ->
  (forall w0 mark, P w0 -> P (marked self mark w0)) ->
  P w -> a_fields (action_of w self) = fields ->
  fst ((do self ;; undo self ;; do self) w) = Ok tt ->
  let w1 := marked self md (exec bd w) in
  let w2 := marked self mu (exec bu w1) in
  let w3 := marked self md (exec bd w2) in
  exec (do self ;; undo self ;; do self) w = w3 /\ exec (do self) w = w1.
Proof.
  intros Hmethods Hbd Hbu Hmark HP Hf Hret w1 w2 w3.
  assert (Hfm : forall w0 mark, a_fields (action_of (marked self mark w0) self)
                                = a_fields (action_of w0 self)).
  { intros w0 mark. unfold marked. by rewrite action_of_update. }
  destruct (seq3_returns _ _ _ w Hret) as (H1 & H2 & H3 & Hexec).
  assert (Hw1 : exec (do self) w = w1).
  { unfold exec in *. destruct (Hmethods w Hf) as [Hdo _].
    rewrite Hdo in H1 |- *.
    rewrite (run_marked bd self md w); [reflexivity |].
    apply (marked_returns bd self md). by rewrite H1. }
  destruct (Hbd w HP Hf) as [Hf1' HP1'].
  assert (Hf1 : a_fields (action_of w1 self) = fields)
    by (unfold w1; by rewrite Hfm).
  assert (HP1 : P w1) by (by apply Hmark).
  rewrite Hw1 in H2, H3, Hexec.
  assert (Hw2 : exec (undo self) w1 = w2).
  { unfold exec in *. destruct (Hmethods w1 Hf1) as [_ Hundo].
    rewrite Hundo in H2 |- *.
    rewrite (run_marked bu self mu w1); [reflexivity |].
    apply (marked_returns bu self mu). by rewrite H2. }
  destruct (Hbu w1 HP1 Hf1) as [Hf2' HP2'].
  assert (Hf2 : a_fields (action_of w2 self) = fields)
    by (unfold w2; by rewrite Hfm).
  rewrite Hw2 in H3, Hexec.
  assert (Hw3 : exec (do self) w2 = w3).
  { unfold exec in *. destruct (Hmethods w2 Hf2) as [Hdo _].
    rewrite Hdo in H3 |- *.
    rewrite (run_marked bd self md w2); [reflexivity |].
    apply (marked_returns bd self md). by rewrite H3. }
  split; [by rewrite Hexec, Hw3 | exact Hw1].
Qed.

Lemma w_model_marked (self : nat) (mark : ActionState) (w : World) :
  w_model (marked self mark w) = w_model w.
Proof. reflexivity. Qed.

Lemma clip_of_marked (self : nat) (mark : ActionState) (w : World) (c : nat) :
  clip_of (marked self mark w) c = clip_of w c.
Proof. reflexivity. Qed.

Lemma layer_of_marked (self : nat) (mark : ActionState) (w : World) (l : nat) :
  layer_of (marked self mark w) l = layer_of w l.
Proof. reflexivity. Qed.

Lemma element_marked (self : nat) (mark : ActionState) (w : World) (e : nat) :
  element (marked self mark w) e = element w e.
Proof. reflexivity. Qed.

Lemma source_of_marked (self : nat) (mark : ActionState) (w : World) (cs : nat) :
  source_of (marked self mark w) cs = source_of w cs.
Proof. reflexivity. Qed.

Lemma w_next_id_marked (self : nat) (mark : ActionState) (w : World) :
  w_next_id (marked self mark w) = w_next_id w.
Proof. reflexivity. Qed.

Lemma fields_of_same_actions (w w' : World) (self : nat) :
  w_actions w' = w_actions w ->
  a_fields (action_of w' self) = a_fields (action_of w self).
Proof. intros Ha. unfold action_of. by rewrite Ha. Qed.

(** What is observed of a clip survives entering, leaving and entering
    again, and leaving, entering and leaving again. *)
Lemma clip_enter_leave (layer n n' : nat) (x : Clip) :
  let same (y z : Clip) :=
    c_layer y = c_layer z /\ c_props y = c_props z /\
    c_transition y = c_transition z /\ c_children y = c_children z in
  same (clip_entered layer n' (clip_left layer (clip_entered layer n x)))
       (clip_entered layer n x) /\
  same (clip_left layer (clip_entered layer n (clip_left layer x)))
       (clip_left layer x).
Proof.
  destruct x as [nm [l |] ch pr tr];
    unfold clip_entered, clip_left, set_c_layer, set_c_name; cbn;
    repeat (case_decide; cbn in * ); repeat split; congruence.
Qed.

Lemma clip_set_round_trip (self layer clip : nat) (md mu md' mu' : ActionState)
    (w : World) :
  let entered := exec (set_name_None clip ;; add_clip layer clip ;;
                       commit_timeline_of_layer layer) in
  let left := exec (remove_clip layer clip ;;
                    commit_timeline_of_layer layer) in
  observably_equal
    (marked self md (entered (marked self mu (left (marked self md (entered w))))))
    (marked self md (entered w)) /\
  observably_equal
    (marked self md' (left (marked self mu' (entered (marked self md' (left w))))))
    (marked self md' (left w)).
Proof.
  intros entered left.
  assert (Hin : forall w0, _) by exact (clip_add_reads layer clip).
  assert (Hout : forall w0, _) by exact (clip_remove_reads layer clip).
  cbv zeta in Hin, Hout. fold entered in Hin. fold left in Hout.
  split.
  - destruct (Hin w) as (Hc1 & Hl1 & He1 & Hs1 & _).
    destruct (Hout (marked self md (entered w)))
      as (Hc2 & Hl2 & He2 & Hs2 & _).
    destruct (Hin (marked self mu (left (marked self md (entered w)))))
      as (Hc3 & Hl3 & He3 & Hs3 & _).
    apply observably_equal_fields.
    + intros l. rewrite !layer_of_marked. unfold layer_of.
      rewrite Hl3, w_model_marked, Hl2, w_model_marked. reflexivity.
    + intros c. rewrite !clip_of_marked, Hc3, !clip_of_marked.
      destruct (decide (c = clip)) as [-> | Hne].
      * rewrite Hc2, !clip_of_marked, Hc1, !decide_True by done.
        destruct (clip_enter_leave layer (w_next_id w)
                    (w_next_id (marked self mu
                                  (left (marked self md (entered w)))))
                    (clip_of w clip)) as [Hseen _].
        exact Hseen.
      * rewrite Hc2, decide_False by done.
        rewrite !clip_of_marked, Hc1, decide_False by done. done.
    + intros e. rewrite !element_marked. unfold element.
      rewrite He3, w_model_marked, He2, w_model_marked. reflexivity.
    + intros cs. rewrite !source_of_marked. unfold source_of.
      rewrite Hs3, w_model_marked, Hs2, w_model_marked. reflexivity.
  - destruct (Hout w) as (Hc1 & Hl1 & He1 & Hs1 & _).
    destruct (Hin (marked self md' (left w)))
      as (Hc2 & Hl2 & He2 & Hs2 & _).
    destruct (Hout (marked self mu' (entered (marked self md' (left w)))))
      as (Hc3 & Hl3 & He3 & Hs3 & _).
    apply observably_equal_fields.
    + intros l. rewrite !layer_of_marked. unfold layer_of.
      rewrite Hl3, w_model_marked, Hl2, w_model_marked. reflexivity.
    + intros c. rewrite !clip_of_marked, Hc3, !clip_of_marked.
      destruct (decide (c = clip)) as [-> | Hne].
      * rewrite Hc2, !clip_of_marked, Hc1, !decide_True by done.
        destruct (clip_enter_leave layer
                    (w_next_id (marked self md' (left w))) 0
                    (clip_of w clip)) as [_ Hseen].
        exact Hseen.
      * rewrite Hc2, decide_False by done.
        rewrite !clip_of_marked, Hc1, decide_False by done. done.
    + intros e. rewrite !element_marked. unfold element.
      rewrite He3, w_model_marked, He2, w_model_marked. reflexivity.
    + intros cs. rewrite !source_of_marked. unfold source_of.
      rewrite Hs3, w_model_marked, Hs2, w_model_marked. reflexivity.
Qed.

Lemma ClipAdded_round_trip (w : World) (self layer clip : nat) :
  a_fields (action_of w self) = ClipAdded layer clip ->
  fst ((do self ;; undo self ;; do self) w) = Ok tt ->
  observably_equal (exec (do self ;; undo self ;; do self) w)
                   (exec (do self) w).
Proof.
  intros Hf Hret.
  destruct (marked_round_trip (fun _ => True)
              (set_name_None clip ;; add_clip layer clip ;;
               commit_timeline_of_layer layer)
              (remove_clip layer clip ;; commit_timeline_of_layer layer)
              Done Undone self (ClipAdded layer clip) w) as [-> ->];
    try done.
  - intros w0 Hf0. method Hf0.
  - intros w0 _ Hf0. split; [| done]. rewrite <- Hf0.
    apply fields_of_same_actions, (clip_add_reads layer clip w0).
  - intros w0 _ Hf0. split; [| done]. rewrite <- Hf0.
    apply fields_of_same_actions, (clip_remove_reads layer clip w0).
  - apply (clip_set_round_trip self layer clip Done Undone Done Undone w).
Qed.

Lemma ClipRemoved_round_trip (w : World) (self layer clip : nat) :
  a_fields (action_of w self) = ClipRemoved layer clip ->
  fst ((do self ;; undo self ;; do self) w) = Ok tt ->
  observably_equal (exec (do self ;; undo self ;; do self) w)
                   (exec (do self) w).
Proof.
  intros Hf Hret.
  destruct (marked_round_trip (fun _ => True)
              (remove_clip layer clip ;; commit_timeline_of_layer layer)
              (set_name_None clip ;; add_clip layer clip ;;
               commit_timeline_of_layer layer)
              Done Undone self (ClipRemoved layer clip) w) as [-> ->];
    try done.
  - intros w0 Hf0. method Hf0.
  - intros w0 _ Hf0. split; [| done]. rewrite <- Hf0.
    apply fields_of_same_actions, (clip_remove_reads layer clip w0).
  - intros w0 _ Hf0. split; [| done]. rewrite <- Hf0.
    apply fields_of_same_actions, (clip_add_reads layer clip w0).
  - apply (clip_set_round_trip self layer clip Done Undone Done Undone w).
Qed.

(** ** Round trips of the actions that emit *)

Lemma control_source_set_spec (cs : nat) (t : N) (v : Z) (w : World) :
  let w' := exec (control_source_set cs t v) w in
  control_source_set cs t v w = (Ok tt, w') /\
  w_model w' = model_control_source_set cs t v (w_model w) /\
  grows w w'.
Proof.
  unfold exec, control_source_set, bind, get, modify.
  rewrite emit_returns. cbn [snd]. split; [reflexivity |].
  apply emit_after, grows_with_model.
Qed.

Lemma control_source_unset_spec (cs : nat) (t : N) (w : World) :
  let w' := exec (control_source_unset cs t) w in
  control_source_unset cs t w = (Ok tt, w') /\
  w_model w' = model_control_source_unset cs t (w_model w) /\
  grows w w'.
Proof.
  unfold exec, control_source_unset, model_control_source_unset, bind, get,
    source_of.
  destruct ((m_sources (w_model w) !!! cs) !! t) as [v |].
  - unfold modify. rewrite emit_returns. cbn [snd]. split; [reflexivity |].
    apply emit_after, grows_with_model.
  - cbn. split; [reflexivity |]. split; [reflexivity | apply grows_refl].
Qed.

Lemma store_child_twice (name : string) (v v' : GValue)
    (l : list (PSpec * GValue)) :
  store_child name v' (fst (store_child name v l)) = store_child name v' l.
Proof.
  induction l as [| [p old] l IH]; [reflexivity |]. cbn [store_child].
  destruct (decide (child_property_name p = name)) as [Hp | Hp].
  - destruct (ps_writable p) eqn:Hw; cbn [fst store_child];
      rewrite decide_True by done; by rewrite Hw.
  - destruct (store_child name v l) as [r written] eqn:Hs. cbn [fst] in *.
    cbn [store_child]. rewrite decide_False by done. by rewrite IH.
Qed.

Lemma model_set_child_property_twice (e : nat) (name : string)
    (v v' : GValue) (m : Model) :
  model_set_child_property e name v' (model_set_child_property e name v m)
  = model_set_child_property e name v' m.
Proof.
  unfold model_set_child_property at 2.
  destruct (snd (store_child name v _)) as [pspec |] eqn:Hw; [| reflexivity].
  unfold model_set_child_property. cbn [m_elements with_elements].
  rewrite lookup_total_insert_eq. cbn [te_children_props set_te_children_props].
  rewrite store_child_twice.
  destruct (snd (store_child name v' _)) as [pspec' |] eqn:Hw'.
  - unfold with_elements; cbn. rewrite insert_insert_eq.
    by destruct (m_elements m !!! e).
  - assert (Hsnd : snd (store_child name v'
                          (te_children_props (m_elements m !!! e))) <> None).
    { clear Hw'. revert Hw.
      generalize (te_children_props (m_elements m !!! e)). intros l.
      induction l as [| [p old] l IH]; cbn [store_child]; [discriminate |].
      destruct (decide (child_property_name p = name)).
      - by destruct (ps_writable p).
      - destruct (store_child name v l) as [r written].
        destruct (store_child name v' l) as [r' written']. cbn in *. exact IH. }
    by rewrite Hw' in Hsnd.
Qed.

Lemma TrackElementPropertyChanged_round_trip (w : World)
    (self track_element : nat) (property_name : string)
    (old_value new_value : GValue) :
  self < w_next_id w ->
  a_fields (action_of w self)
    = TrackElementPropertyChanged track_element property_name
        old_value new_value ->
  fst ((do self ;; undo self ;; do self) w) = Ok tt ->
  observably_equal (exec (do self ;; undo self ;; do self) w)
                   (exec (do self) w).
Proof.
  intros Hself Hf Hret.
  assert (Hbody : forall v w0, self < w_next_id w0 ->
            a_fields (action_of w0 self) = a_fields (action_of w self) ->
            a_fields (action_of
                        (exec (set_child_property track_element
                                 property_name v) w0) self)
              = a_fields (action_of w self) /\
            self < w_next_id
                     (exec (set_child_property track_element
                              property_name v) w0)).
  { intros v w0 Hlt Hf0.
    destruct (set_child_property_spec track_element property_name v w0)
      as (_ & _ & Hg).
    rewrite (grows_action _ _ self Hg Hlt). split; [exact Hf0 |].
    destruct Hg as (Hn & _). lia. }
  destruct (marked_round_trip (fun w0 => self < w_next_id w0)
              (set_child_property track_element property_name new_value)
              (set_child_property track_element property_name old_value)
              Done Undone self
              (TrackElementPropertyChanged track_element property_name
                 old_value new_value) w) as [-> ->]; try done.
  - intros w0 Hf0. method Hf0.
  - intros w0 Hlt Hf0. rewrite <- Hf. apply Hbody; [exact Hlt | congruence].
  - intros w0 Hlt Hf0. rewrite <- Hf. apply Hbody; [exact Hlt | congruence].
  - apply observably_equal_model. rewrite !w_model_marked.
    rewrite (proj1 (proj2 (set_child_property_spec _ _ _ _))).
    rewrite w_model_marked.
    rewrite (proj1 (proj2 (set_child_property_spec _ _ _ _))).
    rewrite w_model_marked.
    rewrite (proj1 (proj2 (set_child_property_spec _ _ _ _))).
    by rewrite !model_set_child_property_twice.
Qed.

Lemma observably_equal_sources (w w' : World) :
  m_layers (w_model w) = m_layers (w_model w') ->
  m_clips (w_model w) = m_clips (w_model w') ->
  m_elements (w_model w) = m_elements (w_model w') ->
  (forall cs, m_sources (w_model w) !!! cs = m_sources (w_model w') !!! cs) ->
  observably_equal w w'.
Proof.
  intros Hl Hc He Hs. apply observably_equal_reads.
  - intros l. unfold layer_of. by rewrite Hl.
  - intros c. unfold clip_of. by rewrite Hc.
  - intros e. unfold element. by rewrite He.
  - exact Hs.
Qed.

Lemma model_set_unset_set (cs : nat) (t : N) (v : Z) (m : Model) :
  model_control_source_set cs t v
    (model_control_source_unset cs t (model_control_source_set cs t v m))
  = model_control_source_set cs t v m.
Proof.
  unfold model_control_source_unset, model_control_source_set.
  cbn [m_sources with_sources].
  rewrite !lookup_total_insert_eq, lookup_insert_eq.
  cbn [m_sources with_sources]. rewrite lookup_total_insert_eq.
  unfold with_sources; cbn.
  by rewrite !insert_insert_eq, insert_delete_eq, insert_insert_eq.
Qed.

Lemma model_set_set_set (cs : nat) (t : N) (v v' : Z) (m : Model) :
  model_control_source_set cs t v
    (model_control_source_set cs t v' (model_control_source_set cs t v m))
  = model_control_source_set cs t v m.
Proof.
  unfold model_control_source_set. cbn [m_sources with_sources].
  rewrite !lookup_total_insert_eq.
  unfold with_sources; cbn. by rewrite !insert_insert_eq.
Qed.

Lemma model_unset_reads (cs : nat) (t : N) (m : Model) :
  (forall x, m_sources (model_control_source_unset cs t m) !!! x
             = if decide (x = cs) then delete t (m_sources m !!! cs)
               else m_sources m !!! x) /\
  m_layers (model_control_source_unset cs t m) = m_layers m /\
  m_clips (model_control_source_unset cs t m) = m_clips m /\
  m_elements (model_control_source_unset cs t m) = m_elements m.
Proof.
  unfold model_control_source_unset.
  destruct ((m_sources m !!! cs) !! t) as [v |] eqn:Ht.
  - split; [| done]. intros x. cbn. destruct (decide (x = cs)) as [-> |].
    + apply lookup_total_insert_eq.
    + by apply lookup_total_insert_ne.
  - split; [| done]. intros x. destruct (decide (x = cs)) as [-> |]; [| done].
    by rewrite delete_id.
Qed.

Lemma model_set_reads (cs : nat) (t : N) (v : Z) (m : Model) :
  (forall x, m_sources (model_control_source_set cs t v m) !!! x
             = if decide (x = cs) then <[t := v]> (m_sources m !!! cs)
               else m_sources m !!! x) /\
  m_layers (model_control_source_set cs t v m) = m_layers m /\
  m_clips (model_control_source_set cs t v m) = m_clips m /\
  m_elements (model_control_source_set cs t v m) = m_elements m.
Proof.
  split; [| done]. intros x. cbn. destruct (decide (x = cs)) as [-> |].
  - apply lookup_total_insert_eq.
  - by apply lookup_total_insert_ne.
Qed.

Lemma control_source_body_keeps (body : M unit) (self : nat) (w w0 : World) :
  grows w0 (exec body w0) ->
  self < w_next_id w0 ->
  a_fields (action_of w0 self) = a_fields (action_of w self) ->
  a_fields (action_of (exec body w0) self) = a_fields (action_of w self) /\
  self < w_next_id (exec body w0).
Proof.
  intros Hg Hlt Hf0. rewrite (grows_action _ _ self Hg Hlt).
  split; [exact Hf0 |]. destruct Hg as (Hn & _). lia.
Qed.

Lemma ControlSourceValueAdded_round_trip (w : World)
    (self track_element control_source : nat) (keyframe : Keyframe)
    (property_name : string) :
  self < w_next_id w ->
  a_fields (action_of w self)
    = ControlSourceValueAdded track_element control_source keyframe
        property_name ->
  fst ((do self ;; undo self ;; do self) w) = Ok tt ->
  observably_equal (exec (do self ;; undo self ;; do self) w)
                   (exec (do self) w).
Proof.
  intros Hself Hf Hret.
  destruct (marked_round_trip (fun w0 => self < w_next_id w0)
              (control_source_set control_source (kf_timestamp keyframe)
                 (kf_value keyframe))
              (control_source_unset control_source (kf_timestamp keyframe))
              Done Undone self
              (ControlSourceValueAdded track_element control_source keyframe
                 property_name) w) as [-> ->]; try done.
  - intros w0 Hf0. method Hf0.
  - intros w0 Hlt Hf0. rewrite <- Hf.
    apply control_source_body_keeps; [| exact Hlt | congruence].
    apply control_source_set_spec.
  - intros w0 Hlt Hf0. rewrite <- Hf.
    apply control_source_body_keeps; [| exact Hlt | congruence].
    apply control_source_unset_spec.
  - apply observably_equal_model. rewrite !w_model_marked.
    rewrite (proj1 (proj2 (control_source_set_spec _ _ _ _))).
    rewrite w_model_marked.
    rewrite (proj1 (proj2 (control_source_unset_spec _ _ _))).
    rewrite w_model_marked.
    rewrite (proj1 (proj2 (control_source_set_spec _ _ _ _))).
    apply model_set_unset_set.
Qed.

Lemma ControlSourceValueRemoved_round_trip (w : World)
    (self track_element control_source : nat) (keyframe : Keyframe)
    (property_name : string) :
  self < w_next_id w ->
  a_fields (action_of w self)
    = ControlSourceValueRemoved track_element control_source keyframe
        property_name ->
  fst ((do self ;; undo self ;; do self) w) = Ok tt ->
  observably_equal (exec (do self ;; undo self ;; do self) w)
                   (exec (do self) w).
Proof.
  intros Hself Hf Hret.
  destruct (marked_round_trip (fun w0 => self < w_next_id w0)
              (control_source_unset control_source (kf_timestamp keyframe))
              (control_source_set control_source (kf_timestamp keyframe)
                 (kf_value keyframe))
              Undone Done self
              (ControlSourceValueRemoved track_element control_source keyframe
                 property_name) w) as [-> ->]; try done.
  - intros w0 Hf0. method Hf0.
  - intros w0 Hlt Hf0. rewrite <- Hf.
    apply control_source_body_keeps; [| exact Hlt | congruence].
    apply control_source_unset_spec.
  - intros w0 Hlt Hf0. rewrite <- Hf.
    apply control_source_body_keeps; [| exact Hlt | congruence].
    apply control_source_set_spec.
  - set (t := kf_timestamp keyframe). set (v := kf_value keyframe).
    set (m := w_model w).
    assert (H3 : w_model (marked self Undone
                   (exec (control_source_unset control_source t)
                      (marked self Done
                         (exec (control_source_set control_source t v)
                            (marked self Undone
                               (exec (control_source_unset control_source t)
                                  w))))))
                 = model_control_source_unset control_source t
                     (model_control_source_set control_source t v
                        (model_control_source_unset control_source t m))).
    { rewrite !w_model_marked.
      rewrite (proj1 (proj2 (control_source_unset_spec _ _ _))).
      rewrite w_model_marked.
      rewrite (proj1 (proj2 (control_source_set_spec _ _ _ _))).
      rewrite w_model_marked.
      by rewrite (proj1 (proj2 (control_source_unset_spec _ _ _))). }
    assert (H1 : w_model (marked self Undone
                   (exec (control_source_unset control_source t) w))
                 = model_control_source_unset control_source t m).
    { rewrite w_model_marked.
      by rewrite (proj1 (proj2 (control_source_unset_spec _ _ _))). }
    destruct (model_unset_reads control_source t m) as (Hs1 & Hl1 & Hc1 & He1).
    destruct (model_set_reads control_source t v
                (model_control_source_unset control_source t m))
      as (Hs2 & Hl2 & Hc2 & He2).
    destruct (model_unset_reads control_source t
                (model_control_source_set control_source t v
                   (model_control_source_unset control_source t m)))
      as (Hs3 & Hl3 & Hc3 & He3).
    apply observably_equal_sources; rewrite H3, H1.
    + by rewrite Hl3, Hl2.
    + by rewrite Hc3, Hc2.
    + by rewrite He3, He2.
    + intros x. rewrite Hs3, Hs1.
      destruct (decide (x = control_source)) as [-> |].
      * rewrite Hs2, decide_True by done. rewrite Hs1, decide_True by done.
        by rewrite delete_insert_eq, delete_delete_eq.
      * rewrite Hs2, decide_False by done. rewrite Hs1, decide_False by done.
        done.
Qed.

Lemma ControlSourceKeyframeChanged_round_trip (w : World)
    (self control_source : nat) (old_snapshot new_snapshot : N * Z) :
  self < w_next_id w ->
  fst old_snapshot = fst new_snapshot ->
  a_fields (action_of w self)
    = ControlSourceKeyframeChanged control_source old_snapshot new_snapshot ->
  fst ((do self ;; undo self ;; do self) w) = Ok tt ->
  observably_equal (exec (do self ;; undo self ;; do self) w)
                   (exec (do self) w).
Proof.
  intros Hself Hsame Hf Hret.
  destruct old_snapshot as [t vo], new_snapshot as [t' vn].
  cbn in Hsame. subst t'.
  destruct (marked_round_trip (fun w0 => self < w_next_id w0)
              (control_source_set control_source t vn)
              (control_source_set control_source t vo)
              Done Undone self
              (ControlSourceKeyframeChanged control_source (t, vo) (t, vn)) w)
    as [-> ->]; try done.
  - intros w0 Hf0.
    split; [unfold do | unfold undo]; unfold bind at 1, get; rewrite Hf0;
      unfold ControlSourceKeyframeChanged_applySnapshot; regroup.
  - intros w0 Hlt Hf0. rewrite <- Hf.
    apply control_source_body_keeps; [| exact Hlt | congruence].
    apply control_source_set_spec.
  - intros w0 Hlt Hf0. rewrite <- Hf.
    apply control_source_body_keeps; [| exact Hlt | congruence].
    apply control_source_set_spec.
  - apply observably_equal_model. rewrite !w_model_marked.
    rewrite (proj1 (proj2 (control_source_set_spec _ _ _ _))).
    rewrite w_model_marked.
    rewrite (proj1 (proj2 (control_source_set_spec _ _ _ _))).
    rewrite w_model_marked.
    rewrite (proj1 (proj2 (control_source_set_spec _ _ _ _))).
    apply model_set_set_set.
Qed.

(** ** Round trip of ClipPropertyChanged *)

Lemma set_property_eq (clip : nat) (name : string) (v : GValue) (w : World) :
  exec (set_property clip name v) w
  = with_model
      (with_clips
         <[clip := clip_written (replace "_"%char "-"%char name) v
                     (clip_of w clip)]>) w
  \/ exec (set_property clip name v) w = w /\
     clip_written (replace "_"%char "-"%char name) v (clip_of w clip)
     = clip_of w clip.
Proof.
  unfold exec, set_property, bind, get, clip_written.
  destruct (c_props (clip_of w clip) !! replace "_"%char "-"%char name);
    [left | right]; done.
Qed.

Lemma set_property_reads (clip : nat) (name : string) (v : GValue)
    (w : World) :
  let w' := exec (set_property clip name v) w in
  w_actions w' = w_actions w /\
  (forall l, layer_of w' l = layer_of w l) /\
  (forall c, clip_of w' c
             = if decide (c = clip)
               then clip_written (replace "_"%char "-"%char name) v
                      (clip_of w clip)
               else clip_of w c) /\
  (forall e, element w' e = element w e) /\
  (forall cs, source_of w' cs = source_of w cs).
Proof.
  intros w'. unfold w'.
  destruct (set_property_eq clip name v w) as [-> | [-> Hsame]].
  - split; [done |]. split; [done |]. split; [| done].
    intros c. apply clip_of_insert.
  - split; [done |]. split; [done |]. split; [| done].
    intros c. destruct (decide (c = clip)) as [-> |]; [by rewrite Hsame | done].
Qed.

Lemma clip_written_thrice (k : string) (v v' : GValue) (x : Clip) :
  clip_written k v (clip_written k v' (clip_written k v x))
  = clip_written k v x.
Proof.
  destruct x as [n l ch props tr]. unfold clip_written; cbn.
  destruct (props !! k) as [u |] eqn:Hk; cbn.
  - rewrite lookup_insert_eq; cbn. rewrite lookup_insert_eq; cbn.
    unfold set_c_props; cbn. by rewrite !insert_insert_eq.
  - rewrite Hk; cbn. by rewrite Hk.
Qed.

Lemma ClipPropertyChanged_round_trip (w : World) (self clip : nat)
    (property_name : string) (old_value new_value : GValue) :
  a_fields (action_of w self)
    = ClipPropertyChanged clip property_name old_value new_value ->
  fst ((do self ;; undo self ;; do self) w) = Ok tt ->
  observably_equal (exec (do self ;; undo self ;; do self) w)
                   (exec (do self) w).
Proof.
  intros Hf Hret.
  set (name := replace "-"%char "_"%char property_name).
  destruct (marked_round_trip (fun _ => True)
              (set_property clip name new_value)
              (set_property clip name old_value)
              Done Undone self
              (ClipPropertyChanged clip property_name old_value new_value) w)
    as [-> ->]; try done.
  - intros w0 Hf0. unfold name. method Hf0.
  - intros w0 _ Hf0. split; [| done]. rewrite <- Hf0.
    apply fields_of_same_actions. apply set_property_reads.
  - intros w0 _ Hf0. split; [| done]. rewrite <- Hf0.
    apply fields_of_same_actions. apply set_property_reads.
  - set (w1 := marked self Done (exec (set_property clip name new_value) w)).
    set (w2 := marked self Undone (exec (set_property clip name old_value) w1)).
    destruct (set_property_reads clip name new_value w)
      as (_ & Hl1 & Hc1 & He1 & Hs1).
    destruct (set_property_reads clip name old_value w1)
      as (_ & Hl2 & Hc2 & He2 & Hs2).
    destruct (set_property_reads clip name new_value w2)
      as (_ & Hl3 & Hc3 & He3 & Hs3).
    apply observably_equal_reads.
    + intros l. rewrite layer_of_marked, Hl3. unfold w2.
      rewrite layer_of_marked, Hl2. done.
    + intros c. rewrite clip_of_marked, Hc3. unfold w2.
      rewrite !clip_of_marked, !Hc2. unfold w1.
      rewrite !clip_of_marked, !Hc1.
      destruct (decide (c = clip)) as [-> |]; [| done].
      rewrite !(decide_True (P := clip = clip)) by done.
      apply clip_written_thrice.
    + intros e. rewrite element_marked, He3. unfold w2.
      rewrite element_marked, He2. done.
    + intros cs. rewrite source_of_marked, Hs3. unfold w2.
      rewrite source_of_marked, Hs2. done.
Qed.

(** ** Round trip of ActivePropertyChanged *)

Lemma w_model_toggled (self effect_action track_element : nat)
    (stored : bool) (mark : ActionState) (w : World) :
  w_model (toggled self effect_action track_element stored mark w)
  = model_set_active track_element stored (w_model w).
Proof. reflexivity. Qed.

Lemma model_set_active_thrice (e : nat) (v v' : bool) (m : Model) :
  model_set_active e v (model_set_active e v' (model_set_active e v m))
  = model_set_active e v m.
Proof.
  unfold model_set_active. cbn [m_elements with_elements].
  rewrite !lookup_total_insert_eq. unfold with_elements; cbn.
  by rewrite !insert_insert_eq.
Qed.

Lemma toggle_needs_element (w : World) (self effect_action : nat)
    (stored : bool) :
  a_fields (action_of w self) = ActivePropertyChanged effect_action stored ->
  fst (do self w) = Ok tt ->
  exists track_element,
    track_element_attribute (a_fields (action_of w effect_action))
    = Some track_element.
Proof.
  intros Hf.
  destruct (track_element_attribute (a_fields (action_of w effect_action)))
    as [te |] eqn:Hte; [by exists te |].
  unfold do. unfold bind at 1, get. rewrite Hf.
  unfold bind at 1, toggle_active. unfold bind at 1, get. rewrite Hte.
  discriminate.
Qed.

Lemma ActivePropertyChanged_round_trip (w : World)
    (self effect_action : nat) (active : bool) :
  a_fields (action_of w self) = ActivePropertyChanged effect_action active ->
  fst ((do self ;; undo self ;; do self) w) = Ok tt ->
  observably_equal (exec (do self ;; undo self ;; do self) w)
                   (exec (do self) w).
Proof.
  intros Hf Hret.
  destruct (seq3_returns _ _ _ w Hret) as (H1 & _).
  destruct (toggle_needs_element w self effect_action active Hf) as [te Hte];
    [by rewrite H1 |].
  set (w1 := toggled self effect_action te active Done w).
  set (w2 := toggled self effect_action te (negb active) Undone w1).
  set (w3 := toggled self effect_action te (negb (negb active)) Done w2).
  destruct (toggled_facts w self effect_action te active Done Hf Hte)
    as (Hf1 & _ & Hte1 & _). fold w1 in Hf1, Hte1.
  destruct (toggled_facts w1 self effect_action te (negb active) Undone
              Hf1 Hte1) as (Hf2 & _ & Hte2 & _). fold w2 in Hf2, Hte2.
  destruct (round_trip_runs (do self) (undo self) w w1 w2 w3) as [-> ->].
  - apply (toggle_once w self effect_action te active Hf Hte).
  - apply (toggle_once w1 self effect_action te (negb active) Hf1 Hte1).
  - apply (toggle_once w2 self effect_action te (negb (negb active)) Hf2 Hte2).
  - apply observably_equal_model. unfold w3, w2, w1.
    rewrite !w_model_toggled, negb_involutive.
    apply model_set_active_thrice.
Qed.

(** ** Replaying what was captured *)

Lemma overwritten_ext (f g : string -> option GValue) (seen : list string)
    (l : list (PSpec * GValue)) :
  (forall n, n ∉ seen -> f n = g n) ->
  overwritten f seen l = overwritten g seen l.
Proof.
  revert seen. induction l as [| [p old] l IH]; intros seen Hfg;
    [reflexivity |].
  cbn [overwritten]. f_equal.
  - destruct (decide (child_property_name p ∈ seen)) as [| Hn]; [reflexivity |].
    by rewrite (Hfg _ Hn).
  - apply IH. intros n Hn. apply Hfg. set_solver.
Qed.

Lemma overwritten_none (seen : list string) (l : list (PSpec * GValue)) :
  overwritten (fun _ => None) seen l = l.
Proof.
  revert seen. induction l as [| [p old] l IH]; intros seen; [reflexivity |].
  cbn [overwritten]. rewrite IH.
  by destruct (decide (child_property_name p ∈ seen)), (ps_writable p).
Qed.

Lemma overwritten_names (f : string -> option GValue) (seen : list string)
    (l : list (PSpec * GValue)) :
  map fst (overwritten f seen l) = map fst l.
Proof.
  revert seen. induction l as [| [p old] l IH]; intros seen; [reflexivity |].
  cbn [overwritten map fst]. by rewrite IH.
Qed.

Lemma overwritten_store (f : string -> option GValue) (n : string)
    (v : GValue) (seen : list string) (l : list (PSpec * GValue)) :
  n ∉ seen ->
  overwritten f seen (fst (store_child n v l))
  = overwritten
      (fun x => match f x with
                | Some y => Some y
                | None => if decide (n = x) then Some v else None
                end) seen l.
Proof.
  revert seen. induction l as [| [p old] l IH]; intros seen Hn;
    [reflexivity |].
  cbn [store_child].
  destruct (decide (child_property_name p = n)) as [Hp | Hp].
  - assert (Htail : forall l0,
              overwritten f (child_property_name p :: seen) l0
              = overwritten
                  (fun x => match f x with
                            | Some y => Some y
                            | None => if decide (n = x) then Some v else None
                            end) (child_property_name p :: seen) l0).
    { intros l0. apply overwritten_ext. intros x Hx.
      rewrite decide_False by set_solver. by destruct (f x). }
    destruct (ps_writable p) eqn:Hw; cbn [fst overwritten]; rewrite Hw.
    + rewrite Htail. f_equal. f_equal.
      rewrite !decide_False by (by rewrite Hp).
      rewrite Hp, decide_True by done. by destruct (f n).
    + by rewrite Htail.
  - specialize (IH (child_property_name p :: seen)).
    destruct (store_child n v l) as [r written]. cbn [fst] in *.
    cbn [overwritten].
    rewrite IH by (intros [? | ?]%elem_of_cons; [congruence | done]).
    f_equal. f_equal.
    rewrite (decide_False (P := n = child_property_name p)) by done.
    by destruct (f (child_property_name p)).
Qed.

Lemma replayed_overwritten (props : list (string * GValue))
    (l : list (PSpec * GValue)) :
  replayed props l = overwritten (fun x => last_value x props) [] l.
Proof.
  revert l. induction props as [| [n v] props IH]; intros l.
  - cbn. by rewrite overwritten_none.
  - cbn [replayed fold_left fst snd].
    fold (replayed props (fst (store_child n v l))).
    rewrite IH, overwritten_store by set_solver. reflexivity.
Qed.

Lemma lookup_overwritten (f : string -> option GValue) (seen : list string)
    (l : list (PSpec * GValue)) (n : string) :
  n ∉ seen ->
  lookup_child n (overwritten f seen l)
  = match lookup_child n l with
    | Some (p, old) =>
        Some (p, if ps_writable p then default old (f n) else old)
    | None => None
    end.
Proof.
  revert seen. induction l as [| [p old] l IH]; intros seen Hn;
    [reflexivity |].
  cbn [overwritten lookup_child].
  destruct (decide (child_property_name p = n)) as [Hp | Hp].
  - rewrite decide_False by (by rewrite Hp). by rewrite Hp.
  - apply IH. intros [? | ?]%elem_of_cons; [congruence | done].
Qed.

Lemma overwritten_pointwise (f g : string -> option GValue)
    (seen : list string) (l : list (PSpec * GValue)) :
  (forall n p old, n ∉ seen -> lookup_child n l = Some (p, old) ->
     ps_writable p = true -> default old (g n) = default old (f n)) ->
  overwritten g seen l = overwritten f seen l.
Proof.
  revert seen. induction l as [| [p old] l IH]; intros seen Hfg;
    [reflexivity |].
  cbn [overwritten]. f_equal.
  - destruct (decide (child_property_name p ∈ seen)) as [| Hn]; [reflexivity |].
    destruct (ps_writable p) eqn:Hw; [| reflexivity]. f_equal.
    apply (Hfg _ p old Hn); [| exact Hw].
    cbn [lookup_child]. by rewrite decide_True.
  - apply IH. intros n q old' Hn Hl Hw.
    apply (Hfg n q old'); [set_solver | | exact Hw].
    cbn [lookup_child]. rewrite decide_False by set_solver. exact Hl.
Qed.

Lemma last_value_absent (n : string) (props : list (string * GValue)) :
  n ∉ map fst props -> last_value n props = None.
Proof.
  induction props as [| [n' v] props IH]; [reflexivity |].
  cbn [map fst last_value]. intros Hn.
  apply not_elem_of_cons in Hn as [Hne Hn].
  rewrite IH by exact Hn. by rewrite decide_False.
Qed.

Lemma last_value_map {A} (h : A -> string) (val : string -> GValue)
    (l : list A) (n : string) :
  last_value n (map (fun q => (h q, val (h q))) l)
  = if decide (n ∈ map h l) then Some (val n) else None.
Proof.
  induction l as [| q l IH]; [reflexivity |].
  cbn [map last_value]. rewrite IH.
  destruct (decide (n ∈ map h l)) as [Hin | Hnin].
  - rewrite decide_True by (by right). reflexivity.
  - destruct (decide (h q = n)) as [<- | Hne].
    + rewrite decide_True by set_solver. reflexivity.
    + rewrite decide_False; [reflexivity |].
      intros [? | ?]%elem_of_cons; congruence.
Qed.

(** Replaying on what the asset yields the pairs captured from an element
    gives the child properties of that element, when the element itself
    came from replaying pairs that name writable, not ignored properties. *)
Lemma replayed_captured (extracted : TrackElement)
    (props : list (string * GValue)) :
  (forall name, name ∈ map fst props ->
     exists prop, prop ∈ list_children_properties extracted /\
       ps_writable prop = true /\ (ps_name prop ∉ PROPS_TO_IGNORE) /\
       child_property_name prop = name) ->
  let live := replayed props (te_children_props extracted) in
  replayed (writable_child_properties (set_te_children_props live extracted))
           (te_children_props extracted)
  = live.
Proof.
  intros Hprops live. unfold live.
  rewrite (replayed_overwritten (writable_child_properties _)).
  rewrite !replayed_overwritten.
  apply overwritten_pointwise. intros n p old _ Hl Hw.
  unfold writable_child_properties.
  rewrite (last_value_map child_property_name
             (fun name => snd (get_child_property
                (set_te_children_props
                   (overwritten (fun x => last_value x props) []
                      (te_children_props extracted)) extracted) name))).
  unfold list_children_properties.
  replace (te_children_props (set_te_children_props
             (overwritten (fun x => last_value x props) []
                (te_children_props extracted)) extracted))
    with (overwritten (fun x => last_value x props) []
            (te_children_props extracted)) by (by destruct extracted).
  rewrite overwritten_names.
  destruct (decide (n ∈ _)) as [Hin | Hnin].
  - unfold get_child_property.
    replace (te_children_props (set_te_children_props
               (overwritten (fun x => last_value x props) []
                  (te_children_props extracted)) extracted))
      with (overwritten (fun x => last_value x props) []
              (te_children_props extracted)) by (by destruct extracted).
    rewrite lookup_overwritten by set_solver. rewrite Hl, Hw. cbn.
    by destruct (last_value n props).
  - rewrite last_value_absent; [reflexivity |].
    intros Hn. apply Hnin. destruct (Hprops n Hn) as (prop & Hp & Hpw & Hpi & <-).
    apply list_elem_of_fmap. exists prop. split; [reflexivity |].
    apply list_elem_of_filter. auto.
Qed.

(** ** Reading the model after the operations on track elements *)

Lemma model_set_child_property_reads (e : nat) (name : string) (v : GValue)
    (m : Model) :
  let m' := model_set_child_property e name v m in
  m_layers m' = m_layers m /\ m_sources m' = m_sources m /\
  m_assets m' = m_assets m /\
  (forall x, x <> e -> m_elements m' !!! x = m_elements m !!! x).
Proof.
  unfold model_set_child_property.
  destruct (snd (store_child name v _)) as [pspec |]; [| done].
  split; [done |]. split; [done |]. split; [done |].
  intros x Hx. cbn. by apply lookup_total_insert_ne.
Qed.

Lemma model_replay_reads (e : nat) (props : list (string * GValue))
    (m : Model) :
  let m' := model_replay e props m in
  m_layers m' = m_layers m /\ m_sources m' = m_sources m /\
  m_assets m' = m_assets m /\
  (forall x, x <> e -> m_elements m' !!! x = m_elements m !!! x).
Proof.
  revert m. induction props as [| [n v] props IH]; intros m; [done |].
  cbn [model_replay fold_left fst snd].
  fold (model_replay e props (model_set_child_property e n v m)).
  destruct (IH (model_set_child_property e n v m)) as (-> & -> & -> & He).
  destruct (model_set_child_property_reads e n v m) as (-> & -> & -> & He').
  split; [done |]. split; [done |]. split; [done |].
  intros x Hx. by rewrite He, He'.
Qed.

Lemma model_add_asset_reads (e clip asset : nat) (m : Model) :
  let m' := model_add_asset e clip asset m in
  m_layers m' = m_layers m /\ m_sources m' = m_sources m /\
  m_assets m' = m_assets m /\
  (forall x, m_elements m' !!! x
             = if decide (x = e)
               then set_te_asset asset (m_assets m !!! asset)
               else m_elements m !!! x) /\
  (forall c, m_clips m' !!! c
             = if decide (c = clip)
               then set_c_children (c_children (m_clips m !!! clip) ++ [e])
                      (m_clips m !!! clip)
               else m_clips m !!! c).
Proof.
  split; [done |]. split; [done |]. split; [done |]. split.
  - intros x. cbn. destruct (decide (x = e)) as [-> |].
    + apply lookup_total_insert_eq.
    + by apply lookup_total_insert_ne.
  - intros c. cbn. destruct (decide (c = clip)) as [-> |].
    + apply lookup_total_insert_eq.
    + by apply lookup_total_insert_ne.
Qed.

Lemma model_remove_reads (clip e : nat) (m : Model) :
  let m' := model_remove clip e m in
  m_layers m' = m_layers m /\ m_sources m' = m_sources m /\
  m_assets m' = m_assets m /\ m_elements m' = m_elements m /\
  (forall c, m_clips m' !!! c
             = if decide (c = clip)
               then set_c_children
                      (filter (fun e' => e' ≠ e)
                         (c_children (m_clips m !!! clip)))
                      (m_clips m !!! clip)
               else m_clips m !!! c).
Proof.
  unfold model_remove.
  destruct (decide (e ∈ c_children (m_clips m !!! clip))) as [Hin | Hnin].
  - split; [done |]. split; [done |]. split; [done |]. split; [done |].
    intros c. cbn. destruct (decide (c = clip)) as [-> |].
    + apply lookup_total_insert_eq.
    + by apply lookup_total_insert_ne.
  - split; [done |]. split; [done |]. split; [done |]. split; [done |].
    intros c. destruct (decide (c = clip)) as [-> |]; [| done].
    rewrite filter_other_id by exact Hnin. by destruct (m_clips m !!! clip).
Qed.

(** ** The methods of the track-element actions, step by step *)

Lemma reinstantiate_step (m : M unit) (self clip asset : nat)
    (props : list (string * GValue)) (mark : ActionState) (w : World) :
  self < w_next_id w ->
  m w = (reinstantiate self clip asset props ;;
         update_action self (set_a_state mark)) w ->
  m w = (Ok tt, exec m w) /\
  w_model (exec m w)
    = model_replay (w_next_id w) props
        (model_add_asset (w_next_id w) clip asset (w_model w)) /\
  a_fields (action_of (exec m w) self)
    = assign_props_changed NoPropsChanged
        (assign_track_element (Some (w_next_id w))
           (a_fields (action_of w self))) /\
  w_next_id w < w_next_id (exec m w).
Proof.
  intros Hself Hm.
  destruct (reinstantiate_spec self clip asset props w Hself)
    as (Hrun & Hmodel & Haction & Hn & _).
  set (w1 := exec (reinstantiate self clip asset props) w) in *.
  unfold exec. rewrite Hm. unfold bind. rewrite Hrun.
  unfold update_action, modify. cbn [fst snd].
  split; [reflexivity |]. split; [exact Hmodel |]. split; [| exact Hn].
  rewrite action_of_update, Haction. reflexivity.
Qed.

Lemma capture_step (m : M unit) (self clip track_element : nat)
    (mark : ActionState) (w : World) :
  self < w_next_id w ->
  m w = (capture_and_remove self clip (Some track_element) ;;
         update_action self (set_a_state mark)) w ->
  fst (m w) = Ok tt ->
  m w = (Ok tt, exec m w) /\
  w_model (exec m w) = model_remove clip track_element (w_model w) /\
  a_fields (action_of (exec m w) self)
    = assign_track_element None
        (assign_props_changed (TrackedPropsOf track_element)
           (assign_track_element_props
              (writable_child_properties (element w track_element))
              (a_fields (action_of w self)))) /\
  w_next_id w <= w_next_id (exec m w).
Proof.
  intros Hself Hm.
  destruct (capture_and_remove_spec self clip track_element w Hself)
    as (Hrun & Hmodel & Hn & _).
  set (w1 := exec (assign self _ ;; remove clip track_element) w) in *.
  unfold exec. rewrite Hm. unfold bind. rewrite Hrun.
  destruct (w_tracked_track_elements w1 !! track_element); [| discriminate].
  intros _. unfold update_action, modify. cbn [fst snd].
  split; [reflexivity |]. split; [exact Hmodel |]. split; [| exact Hn].
  rewrite !action_of_update. reflexivity.
Qed.

Lemma capture_needs_element (self clip : nat) (mark : ActionState)
    (w : World) :
  fst ((capture_and_remove self clip None ;;
        update_action self (set_a_state mark)) w) = Ok tt -> False.
Proof. discriminate. Qed.

Lemma observably_equal_children (w w' : World) :
  m_layers (w_model w) = m_layers (w_model w') ->
  m_sources (w_model w) = m_sources (w_model w') ->
  (forall c,
     c_layer (m_clips (w_model w) !!! c) = c_layer (m_clips (w_model w') !!! c) /\
     c_props (m_clips (w_model w) !!! c) = c_props (m_clips (w_model w') !!! c) /\
     c_transition (m_clips (w_model w) !!! c)
       = c_transition (m_clips (w_model w') !!! c) /\
     map (fun e => m_elements (w_model w) !!! e)
         (c_children (m_clips (w_model w) !!! c))
     = map (fun e => m_elements (w_model w') !!! e)
         (c_children (m_clips (w_model w') !!! c))) ->
  observably_equal w w'.
Proof.
  intros Hl Hs Hc.
  unfold observably_equal, layer_of, source_of, observed_clip, clip_of.
  rewrite Hl, Hs. split; [done |]. split; [| done]. intros c.
  destruct (Hc c) as (-> & -> & -> & Hch). f_equal. exact Hch.
Qed.

(** ** Round trip of TrackElementRemoved *)

Lemma set_c_children_same (x : Clip) : set_c_children (c_children x) x = x.
Proof. by destruct x. Qed.

Lemma filter_last_out (e : nat) (l : list nat) :
  e ∉ l -> filter (fun e' => e' ≠ e) (l ++ [e]) = l.
Proof.
  intros Hn. rewrite filter_app, filter_other_id by exact Hn.
  rewrite filter_cons, decide_False by (intros Hne; by apply Hne).
  rewrite filter_nil. apply app_nil_r.
Qed.

Lemma model_remove_allocated (clip e bound : nat) (m : Model) :
  (forall c x, x ∈ c_children (m_clips m !!! c) -> x < bound) ->
  forall c x, x ∈ c_children (m_clips (model_remove clip e m) !!! c) ->
              x < bound.
Proof.
  intros Hwf c x.
  destruct (model_remove_reads clip e m) as (_ & _ & _ & _ & ->).
  destruct (decide (c = clip)) as [-> |]; [| apply Hwf].
  cbn. intros [_ Hin]%list_elem_of_filter. by apply (Hwf clip).
Qed.

Lemma model_remove_readded (clip e0 e1 asset : nat)
    (props : list (string * GValue)) (m : Model) :
  (forall c x, x ∈ c_children (m_clips m !!! c) -> x < e1) ->
  let m1 := model_remove clip e0 m in
  let m3 := model_remove clip e1
              (model_replay e1 props (model_add_asset e1 clip asset m1)) in
  m_layers m3 = m_layers m1 /\ m_sources m3 = m_sources m1 /\
  (forall c, m_clips m3 !!! c = m_clips m1 !!! c) /\
  (forall c x, x ∈ c_children (m_clips m1 !!! c) ->
     m_elements m3 !!! x = m_elements m1 !!! x).
Proof.
  intros Hwf m1 m3.
  assert (Hwf1 : forall c x, x ∈ c_children (m_clips m1 !!! c) -> x < e1)
    by (by apply model_remove_allocated).
  set (m2a := model_add_asset e1 clip asset m1) in *.
  set (m2 := model_replay e1 props m2a) in *.
  destruct (model_add_asset_reads e1 clip asset m1)
    as (Hla & Hsa & _ & Hea & Hca). fold m2a in Hla, Hsa, Hea, Hca.
  destruct (model_replay_reads e1 props m2a) as (Hl2 & Hs2 & _ & He2).
  destruct (model_replay_element e1 props m2a) as [_ Hc2].
  fold m2 in Hl2, Hs2, He2, Hc2.
  destruct (model_remove_reads clip e1 m2) as (Hl3 & Hs3 & _ & He3 & Hc3).
  fold m3 in Hl3, Hs3, He3, Hc3.
  split; [by rewrite Hl3, Hl2, Hla |]. split; [by rewrite Hs3, Hs2, Hsa |].
  split.
  - intros c. rewrite Hc3, Hc2, !Hca.
    destruct (decide (c = clip)) as [-> |]; [| done].
    rewrite decide_True by done.
    assert (Hfresh : e1 ∉ c_children (m_clips m1 !!! clip)).
    { intros Hin. apply Hwf1 in Hin. lia. }
    generalize dependent (m_clips m1 !!! clip). intros x _ Hfresh.
    destruct x as [n l ch pr tr]. unfold set_c_children; cbn in *.
    by rewrite filter_last_out.
  - intros c x Hin. apply Hwf1 in Hin.
    rewrite He3, He2, Hea by lia. by rewrite decide_False by lia.
Qed.

Lemma TrackElementRemoved_round_trip (w : World) (self clip asset : nat)
    (held : option nat) (props : list (string * GValue))
    (changed : PropsChanged) :
  self < w_next_id w ->
  (forall c e, e ∈ c_children (clip_of w c) -> e < w_next_id w) ->
  a_fields (action_of w self)
    = TrackElementRemoved clip held asset props changed ->
  fst ((do self ;; undo self ;; do self) w) = Ok tt ->
  observably_equal (exec (do self ;; undo self ;; do self) w)
                   (exec (do self) w).
Proof.
  intros Hself Hwf Hf Hret.
  destruct (seq3_returns _ _ _ w Hret) as (H1 & H2 & H3 & ->).
  assert (Hdo : forall w0 held0 props0 changed0,
            a_fields (action_of w0 self)
              = TrackElementRemoved clip held0 asset props0 changed0 ->
            do self w0 = (capture_and_remove self clip held0 ;;
                          update_action self (set_a_state Done)) w0).
  { intros w0 held0 props0 changed0 Hf0.
    unfold do. unfold bind at 1, get. by rewrite Hf0. }
  destruct held as [e0 |];
    [| exfalso; apply (capture_needs_element self clip Done w);
       by rewrite <- (Hdo w None props changed Hf), H1].
  destruct (capture_step (do self) self clip e0 Done w Hself)
    as (_ & Hm1 & Hf1 & Hn1);
    [by apply (Hdo w (Some e0) props changed) | by rewrite H1 |].
  set (w1 := exec (do self) w) in *.
  rewrite Hf in Hf1. cbn in Hf1.
  destruct (reinstantiate_step (undo self) self clip asset
              (writable_child_properties (element w e0)) Undone w1)
    as (_ & Hm2 & Hf2 & Hn2); [lia | |].
  { unfold undo. unfold bind at 1, get. by rewrite Hf1. }
  set (w2 := exec (undo self) w1) in *.
  rewrite Hf1 in Hf2. cbn in Hf2.
  destruct (capture_step (do self) self clip (w_next_id w1) Done w2)
    as (_ & Hm3 & _ & _); [lia | | by rewrite H3 |].
  { by apply (Hdo w2 _ _ _ Hf2). }
  set (w3 := exec (do self) w2) in *.
  destruct (model_remove_readded clip e0 (w_next_id w1) asset
              (writable_child_properties (element w e0)) (w_model w))
    as (Hl & Hs & Hc & He).
  { intros c x Hin. apply Hwf in Hin. lia. }
  rewrite <- Hm1, <- Hm2, <- Hm3 in Hl, Hs, Hc, He.
  apply observably_equal_children; [exact Hl | exact Hs |].
  intros c. rewrite Hc. split; [done |]. split; [done |]. split; [done |].
  apply map_ext_in. intros x Hin. apply (He c). by apply list_elem_of_In.
Qed.

(** ** Round trip of TrackElementAdded *)

Lemma model_added_readded (clip e1 e3 asset : nat)
    (props : list (string * GValue)) (m : Model) :
  (forall c x, x ∈ c_children (m_clips m !!! c) -> x < e1) ->
  e1 < e3 ->
  (forall name, name ∈ map fst props ->
     exists prop,
       prop ∈ list_children_properties (m_assets m !!! asset) /\
       ps_writable prop = true /\ (ps_name prop ∉ PROPS_TO_IGNORE) /\
       child_property_name prop = name) ->
  let m1 := model_replay e1 props (model_add_asset e1 clip asset m) in
  let m3 := model_replay e3
              (writable_child_properties (m_elements m1 !!! e1))
              (model_add_asset e3 clip asset (model_remove clip e1 m1)) in
  m_layers m3 = m_layers m1 /\ m_sources m3 = m_sources m1 /\
  (forall c,
     c_layer (m_clips m3 !!! c) = c_layer (m_clips m1 !!! c) /\
     c_props (m_clips m3 !!! c) = c_props (m_clips m1 !!! c) /\
     c_transition (m_clips m3 !!! c) = c_transition (m_clips m1 !!! c) /\
     map (fun e => m_elements m3 !!! e) (c_children (m_clips m3 !!! c))
     = map (fun e => m_elements m1 !!! e) (c_children (m_clips m1 !!! c))).
Proof.
  intros Hwf Hlt Hprops. cbv zeta.
  pose proof (model_add_asset_reads e1 clip asset m) as R1a.
  set (m1a := model_add_asset e1 clip asset m) in *.
  pose proof (model_replay_reads e1 props m1a) as R1.
  pose proof (model_replay_element e1 props m1a) as R1'.
  set (m1 := model_replay e1 props m1a) in *.
  pose proof (model_remove_reads clip e1 m1) as R2.
  set (m2 := model_remove clip e1 m1) in *.
  pose proof (model_add_asset_reads e3 clip asset m2) as R3a.
  set (m3a := model_add_asset e3 clip asset m2) in *.
  set (captured := writable_child_properties (m_elements m1 !!! e1)) in *.
  pose proof (model_replay_reads e3 captured m3a) as R3.
  pose proof (model_replay_element e3 captured m3a) as R3'.
  set (m3 := model_replay e3 captured m3a) in *.
  set (extracted := set_te_asset asset (m_assets m !!! asset)) in *.
  cbv zeta in R1a, R1, R2, R3a, R3.
  destruct R1a as (Hl1a & Hs1a & Ha1a & He1a & Hc1a).
  destruct R1 as (Hl1 & Hs1 & Ha1 & He1). destruct R1' as [Hnew1 Hc1].
  destruct R2 as (Hl2 & Hs2 & Ha2 & He2 & Hc2).
  destruct R3a as (Hl3a & Hs3a & Ha3a & He3a & Hc3a).
  destruct R3 as (Hl3 & Hs3 & Ha3 & He3). destruct R3' as [Hnew3 Hc3].
  assert (Hold : forall x, x < e1 -> m_elements m3 !!! x = m_elements m1 !!! x).
  { intros x Hx. rewrite He3, He3a by lia. rewrite decide_False by lia.
    by rewrite He2. }
  assert (Hx1 : m_elements m1 !!! e1
                = set_te_children_props
                    (replayed props (te_children_props extracted)) extracted).
  { rewrite Hnew1, He1a, decide_True by done. reflexivity. }
  assert (Hlast : m_elements m3 !!! e3 = m_elements m1 !!! e1).
  { rewrite Hnew3, He3a, decide_True by done.
    rewrite Ha2, Ha1, Ha1a. fold extracted.
    unfold captured. rewrite Hx1.
    by rewrite (replayed_captured extracted props Hprops). }
  split; [by rewrite Hl3, Hl3a, Hl2 |]. split; [by rewrite Hs3, Hs3a, Hs2 |].
  intros c. rewrite Hc3, Hc3a, !Hc2, Hc1, !Hc1a.
  destruct (decide (c = clip)) as [-> | Hne].
  - rewrite !(decide_True (P := clip = clip)) by done.
    assert (Hfresh : e1 ∉ c_children (m_clips m !!! clip)).
    { intros Hin. apply Hwf in Hin. lia. }
    assert (Hch : forall x, x ∈ c_children (m_clips m !!! clip) -> x < e1)
      by apply Hwf.
    revert Hfresh Hch. generalize (m_clips m !!! clip). intros x Hfresh Hch.
    destruct x as [n l ch pr tr]. unfold set_c_children; cbn in Hfresh, Hch |- *.
    split; [done |]. split; [done |]. split; [done |].
    rewrite filter_last_out by exact Hfresh. rewrite !map_app. cbn [map].
    rewrite Hlast. f_equal.
    apply map_ext_in. intros y Hin. apply Hold, Hch. by apply list_elem_of_In.
  - split; [done |]. split; [done |]. split; [done |].
    apply map_ext_in. intros y Hin. apply Hold, (Hwf c).
    by apply list_elem_of_In.
Qed.

Lemma TrackElementAdded_round_trip (w : World) (self clip asset : nat)
    (held : option nat) (props : list (string * GValue))
    (changed : PropsChanged) :
  self < w_next_id w ->
  (forall c e, e ∈ c_children (clip_of w c) -> e < w_next_id w) ->
  (forall name, name ∈ map fst props ->
     exists prop,
       prop ∈ list_children_properties (m_assets (w_model w) !!! asset) /\
       ps_writable prop = true /\ (ps_name prop ∉ PROPS_TO_IGNORE) /\
       child_property_name prop = name) ->
  a_fields (action_of w self)
    = TrackElementAdded clip held asset props changed ->
  fst ((do self ;; undo self ;; do self) w) = Ok tt ->
  observably_equal (exec (do self ;; undo self ;; do self) w)
                   (exec (do self) w).
Proof.
  intros Hself Hwf Hprops Hf Hret.
  destruct (seq3_returns _ _ _ w Hret) as (H1 & H2 & H3 & ->).
  assert (Hdo : forall w0 held0 props0 changed0,
            a_fields (action_of w0 self)
              = TrackElementAdded clip held0 asset props0 changed0 ->
            do self w0 = (reinstantiate self clip asset props0 ;;
                          update_action self (set_a_state Done)) w0).
  { intros w0 held0 props0 changed0 Hf0.
    unfold do. unfold bind at 1, get. by rewrite Hf0. }
  destruct (reinstantiate_step (do self) self clip asset props Done w Hself)
    as (_ & Hm1 & Hf1 & Hn1); [by apply (Hdo w held props changed) |].
  set (w1 := exec (do self) w) in *.
  rewrite Hf in Hf1. cbn in Hf1.
  destruct (capture_step (undo self) self clip (w_next_id w) Undone w1)
    as (_ & Hm2 & Hf2 & Hn2); [lia | | by rewrite H2 |].
  { unfold undo. unfold bind at 1, get. by rewrite Hf1. }
  set (w2 := exec (undo self) w1) in *.
  rewrite Hf1 in Hf2. cbn in Hf2.
  destruct (reinstantiate_step (do self) self clip asset
              (writable_child_properties (element w1 (w_next_id w))) Done w2)
    as (_ & Hm3 & _ & _); [lia | by apply (Hdo w2 _ _ _ Hf2) |].
  set (w3 := exec (do self) w2) in *.
  destruct (model_added_readded clip (w_next_id w) (w_next_id w2) asset props
              (w_model w)) as (Hl & Hs & Hc);
    [exact Hwf | lia | exact Hprops |].
  unfold element in Hm3.
  rewrite <- Hm1 in Hl, Hs, Hc. rewrite <- Hm2, <- Hm3 in Hl, Hs, Hc.
  by apply observably_equal_children.
Qed.

(** ** The round trip of every action *)

Lemma allocated_children (w : World) :
  map_Forall (fun _ x => Forall (fun e => e < w_next_id w) (c_children x))
             (m_clips (w_model w)) ->
  forall c e, e ∈ c_children (clip_of w c) -> e < w_next_id w.
Proof.
  intros Hall c e. unfold clip_of. rewrite lookup_total_alt.
  destruct (m_clips (w_model w) !! c) as [x |] eqn:Hc; cbn.
  - intros Hin. specialize (Hall c x Hc). cbn in Hall.
    rewrite Forall_forall in Hall. by apply Hall.
  - intros Hin. by apply elem_of_nil in Hin.
Qed.

(** C1 (amended): for an action of any of the thirteen classes, taken in
    a state in which the action and the track elements of the clips were
    allocated, [do(); undo(); do()] shows the same layers, clips, track
    elements, properties and keyframes as a single [do()], provided that
    the three calls return, that the two snapshots of a
    ControlSourceKeyframeChanged carry the same timestamp and that the
    pairs held by a TrackElementAdded name writable, not ignored child
    properties of what its asset yields.  The track elements of a clip
    are compared by what they hold, in order, since TrackElementAdded and
    TrackElementRemoved put a new instance in place of the one removed;
    the name that [set_name(None)] generates for a clip is not compared. *)
Theorem do_undo_do_round_trip (w : World) (self : nat) :
  round_trip_ready w self ->
  fst ((do self ;; undo self ;; do self) w) = Ok tt ->
  observably_equal (exec (do self ;; undo self ;; do self) w)
                   (exec (do self) w).
Proof.
  intros (Hself & Hwf & Hkind) Hret.
  destruct (a_fields (action_of w self)) eqn:Hf;
    first [ eapply TrackElementPropertyChanged_round_trip; eassumption
          | eapply TrackElementAdded_round_trip; eassumption
          | eapply TrackElementRemoved_round_trip; eassumption
          | eapply ClipPropertyChanged_round_trip; eassumption
          | eapply ClipAdded_round_trip; eassumption
          | eapply ClipRemoved_round_trip; eassumption
          | eapply LayerAdded_round_trip; eassumption
          | eapply LayerRemoved_round_trip; eassumption
          | eapply LayerMoved_round_trip; eassumption
          | eapply ControlSourceValueAdded_round_trip; eassumption
          | eapply ControlSourceValueRemoved_round_trip; eassumption
          | eapply ControlSourceKeyframeChanged_round_trip; eassumption
          | eapply ActivePropertyChanged_round_trip; eassumption ].
Qed.

(** * Further properties of the code *)

(** ** The cache of a keyframe tracker *)

Lemma snapshot_of_lookup (src : gmap N Z) (t : N) :
  snapshot_of src !! t
  = match src !! t with Some v => Some (t, v) | None => None end.
Proof.
  unfold snapshot_of. rewrite map_lookup_imap. by destruct (src !! t).
Qed.

Lemma snapshot_of_insert (src : gmap N Z) (t : N) (v : Z) :
  snapshot_of (<[t := v]> src) = <[t := (t, v)]> (snapshot_of src).
Proof.
  apply map_eq. intros t'. rewrite snapshot_of_lookup.
  destruct (decide (t' = t)) as [-> | Hne].
  - by rewrite !lookup_insert_eq.
  - rewrite !lookup_insert_ne by done. by rewrite snapshot_of_lookup.
Qed.

Lemma snapshot_of_delete (src : gmap N Z) (t : N) :
  snapshot_of (delete t src) = delete t (snapshot_of src).
Proof.
  apply map_eq. intros t'. rewrite snapshot_of_lookup.
  destruct (decide (t' = t)) as [-> | Hne].
  - by rewrite !lookup_delete_eq.
  - rewrite !lookup_delete_ne by done. by rewrite snapshot_of_lookup.
Qed.

Lemma snapshot_fold (l : list (N * Z)) (acc : gmap N (N * Z)) (t : N) :
  NoDup (map fst l) ->
  fold_left
    (fun keyframes keyframe =>
       <[kf_timestamp keyframe :=
           KeyframeChangeTracker_getKeyframeSnapshot keyframe]> keyframes)
    (map (fun tv => {| kf_timestamp := fst tv; kf_value := snd tv |}) l) acc
  !! t
  = match (list_to_map l : gmap N Z) !! t with
    | Some v => Some (t, v)
    | None => acc !! t
    end.
Proof.
  revert acc. induction l as [| [t0 v0] l IH]; intros acc Hnd; [done |].
  cbn [map fst] in Hnd. apply NoDup_cons in Hnd as [Hfresh Hnd].
  cbn [map fold_left list_to_map foldr]. rewrite IH by exact Hnd.
  unfold KeyframeChangeTracker_getKeyframeSnapshot; cbn.
  destruct (decide (t = t0)) as [-> | Hne].
  - rewrite (not_elem_of_list_to_map_1 l t0) by exact Hfresh.
    by rewrite !lookup_insert_eq.
  - by rewrite !lookup_insert_ne by done.
Qed.

Lemma snapshot_of_get_all (w : World) (control_source : nat) :
  fold_left
    (fun keyframes keyframe =>
       <[kf_timestamp keyframe :=
           KeyframeChangeTracker_getKeyframeSnapshot keyframe]> keyframes)
    (get_all w control_source) ∅
  = snapshot_of (source_of w control_source).
Proof.
  apply map_eq. intros t. unfold get_all.
  rewrite snapshot_fold by apply NoDup_fst_map_to_list.
  rewrite list_to_map_to_list, snapshot_of_lookup, lookup_empty. reflexivity.
Qed.

(** X1: [connectToObject] returns with the tracker attached to the
    control source, its cache holding the snapshot (timestamp, value) of
    every keyframe the source has, and three new connections on the
    source, in the order value-added, value-removed, value-changed.  The
    model, the actions and the log are untouched. *)
Theorem connectToObject_snapshots_source (w : World)
    (self control_source : nat) :
  let w' := exec (KeyframeChangeTracker_connectToObject self control_source) w in
  let n := w_next_id w in
  KeyframeChangeTracker_connectToObject self control_source w = (Ok tt, w') /\
  tracker_of w' self
    = {| kt_keyframes := Some (snapshot_of (source_of w control_source));
         kt_control_source := Some control_source |} /\
  w_connections w'
    = w_connections w ++
      [ {| cn_id := n; cn_obj := OControlSource control_source;
           cn_signal := value_added;
           cn_callback := KCT_keyframeAddedCb self; cn_data := None |};
        {| cn_id := S n; cn_obj := OControlSource control_source;
           cn_signal := value_removed;
           cn_callback := KCT_keyframeRemovedCb self; cn_data := None |};
        {| cn_id := S (S n); cn_obj := OControlSource control_source;
           cn_signal := value_changed;
           cn_callback := KCT_keyframeMovedCb self; cn_data := None |} ] /\
  w_model w' = w_model w /\ w_actions w' = w_actions w /\
  w_action_log w' = w_action_log w.
Proof.
  unfold exec, KeyframeChangeTracker_connectToObject,
    KeyframeChangeTracker_takeCurrentSnapshot, update_tracker, connect,
    fresh_id, bind, modify, get, ret, tracker_of.
  cbn [fst snd w_keyframe_trackers with_keyframe_trackers].
  rewrite lookup_total_insert_eq.
  cbn [kt_control_source set_kt_control_source fst snd].
  rewrite snapshot_of_get_all.
  cbn [fst snd w_keyframe_trackers with_keyframe_trackers with_connections
       with_next_id w_connections w_next_id w_model w_actions w_action_log].
  rewrite !lookup_total_insert_eq.
  split; [reflexivity |]. split; [reflexivity |].
  split; [by rewrite <- !app_assoc |]. done.
Qed.

(** X2: when the cache of a tracker is the snapshot of the keyframes
    [src], it is the snapshot of [src] with the keyframe added after
    [_keyframeAddedCb] and the snapshot of [src] without it after
    [_keyframeRemovedCb]: the two callbacks keep the cache in step with
    the source.  [_keyframeRemovedCb] returns when the timestamp is
    cached; for a timestamp that is not, its [del] raises KeyError and
    nothing changes. *)
Theorem keyframe_cache_follows_source (w : World)
    (self control_source : nat) (src : gmap N Z) (keyframe : Keyframe) :
  kt_keyframes (tracker_of w self) = Some (snapshot_of src) ->
  let t := kf_timestamp keyframe in
  let added :=
    KeyframeChangeTracker_keyframeAddedCb self control_source keyframe in
  let removed :=
    KeyframeChangeTracker_keyframeRemovedCb self control_source keyframe in
  fst (added w) = Ok tt /\
  kt_keyframes (tracker_of (exec added w) self)
    = Some (snapshot_of (<[t := kf_value keyframe]> src)) /\
  kt_keyframes (tracker_of (exec removed w) self)
    = Some (snapshot_of (delete t src)) /\
  (is_Some (src !! t) -> fst (removed w) = Ok tt) /\
  (src !! t = None -> removed w = (Raise KeyError, w)).
Proof.
  intros Hcache t added removed.
  unfold added, removed, exec, KeyframeChangeTracker_keyframeAddedCb,
    KeyframeChangeTracker_keyframeRemovedCb, bind, get.
  cbn [fst snd]. rewrite Hcache, snapshot_of_lookup. fold t.
  split; [reflexivity |]. split.
  { unfold update_tracker, modify, tracker_of. cbn.
    rewrite lookup_total_insert_eq. cbn.
    unfold KeyframeChangeTracker_getKeyframeSnapshot.
    by rewrite snapshot_of_insert. }
  destruct (src !! t) as [v |] eqn:Ht.
  - split; [| split; [done | discriminate]].
    unfold update_tracker, modify, tracker_of. cbn.
    rewrite lookup_total_insert_eq. cbn. by rewrite snapshot_of_delete.
  - split; [| split; [by intros [? ?] | done]].
    cbn. rewrite Hcache. by rewrite delete_id.
Qed.

(** X3: [_keyframeMovedCb] for a keyframe whose timestamp is cached, on a
    tracker whose "keyframe-moved" signal reaches the observer's
    [_controlSourceKeyFrameMovedCb] only: the call returns, the cache
    follows the source, and exactly one new, pending
    ControlSourceKeyframeChanged is pushed; it carries the cached
    snapshot and the new one, which have the same timestamp.  For a
    timestamp that is not cached the lookup raises KeyError; nothing is
    pushed and nothing changes. *)
Theorem keyframeMovedCb_logs_change (w : World) (self control_source : nat)
    (src : gmap N Z) (keyframe : Keyframe) (c : Connection) :
  kt_keyframes (tracker_of w self) = Some (snapshot_of src) ->
  filter (fun c' => listens (OKeyframeTracker self) keyframe_moved c' = true)
         (w_connections w) = [c] ->
  cn_callback c = TO_controlSourceKeyFrameMovedCb ->
  let t := kf_timestamp keyframe in
  let moved :=
    KeyframeChangeTracker_keyframeMovedCb self control_source keyframe in
  (forall old, src !! t = Some old ->
     fst (moved w) = Ok tt /\
     kt_keyframes (tracker_of (exec moved w) self)
       = Some (snapshot_of (<[t := kf_value keyframe]> src)) /\
     w_action_log (exec moved w) = w_action_log w ++ [w_next_id w] /\
     action_of (exec moved w) (w_next_id w)
       = {| a_state := Pending;
            a_fields := ControlSourceKeyframeChanged control_source
                          (t, old) (t, kf_value keyframe) |} /\
     w_model (exec moved w) = w_model w) /\
  (src !! t = None -> moved w = (Raise KeyError, w)).
Proof.
  intros Hcache Hfilter Hcb t moved.
  assert (Hin : c ∈ w_connections w).
  { assert (Hc : c ∈ filter
                (fun c' => listens (OKeyframeTracker self) keyframe_moved c'
                           = true) (w_connections w))
      by (rewrite Hfilter; by left).
    by apply list_elem_of_filter in Hc as [_ ?]. }
  unfold moved, exec, KeyframeChangeTracker_keyframeMovedCb, bind, get.
  cbn [fst snd]. rewrite Hcache, snapshot_of_lookup. fold t.
  split; [| by intros ->].
  intros old ->. unfold update_tracker, modify, emit_with.
  cbn [fst snd w_connections with_keyframe_trackers].
  rewrite Hfilter. cbn [fold_left]. unfold still_connected.
  cbn [w_connections with_keyframe_trackers].
  rewrite bool_decide_eq_true_2
    by (apply list_elem_of_fmap; by exists c).
  unfold run_keyframe_moved_callback. rewrite Hcb.
  unfold exec, TimelineObserver_controlSourceKeyFrameMovedCb, new_action,
    action_log_push, fresh_id, bind, modify, ret, tracker_of, action_of.
  cbn. rewrite !lookup_total_insert_eq. cbn.
  unfold KeyframeChangeTracker_getKeyframeSnapshot.
  rewrite snapshot_of_insert. done.
Qed.

(** ** Observing a control source *)

Lemma world_eq (w w' : World) :
  w_model w = w_model w' -> w_connections w = w_connections w' ->
  w_next_id w = w_next_id w' ->
  w_tracked_track_elements w = w_tracked_track_elements w' ->
  w_keyframe_trackers w = w_keyframe_trackers w' ->
  w_control_source_keyframe_trackers w
    = w_control_source_keyframe_trackers w' ->
  w_actions w = w_actions w' -> w_action_log w = w_action_log w' ->
  w_debug w = w_debug w' -> w_scenario w = w_scenario w' ->
  w = w'.
Proof. destruct w, w'; cbn; intros; by subst. Qed.

Ltac fields :=
  cbn [w_model w_connections w_next_id w_tracked_track_elements
       w_keyframe_trackers w_control_source_keyframe_trackers w_actions
       w_action_log w_debug w_scenario
       with_model with_connections with_next_id with_tracked_track_elements
       with_keyframe_trackers with_control_source_keyframe_trackers
       with_actions with_action_log with_debug with_scenario].

Lemma connectToControlSource_eq (track_element : nat)
    (binding : ControlBinding) (existed : bool) (w : World) :
  TimelineObserver_connectToControlSource track_element binding existed w
  = (Ok tt, observing_source track_element binding existed w).
Proof.
  unfold TimelineObserver_connectToControlSource,
    KeyframeChangeTracker_connectToObject,
    KeyframeChangeTracker_takeCurrentSnapshot, update_tracker, connect,
    fresh_id, bind, modify, get, ret, tracker_of.
  cbn [fst snd w_keyframe_trackers with_keyframe_trackers].
  rewrite !lookup_total_insert_eq.
  cbn [kt_control_source set_kt_control_source fst snd].
  rewrite snapshot_of_get_all.
  cbn [fst snd w_keyframe_trackers with_keyframe_trackers with_connections
       with_next_id].
  rewrite !lookup_total_insert_eq.
  destruct existed; cbn [fst snd]; f_equal; apply world_eq;
    unfold observing_source, source_connections; fields;
    rewrite ?insert_insert_eq, <- ?app_assoc; reflexivity.
Qed.

Lemma listens_iff (obj : ObjRef) (signal : Signal) (c : Connection) :
  listens obj signal c = true <-> cn_obj c = obj /\ cn_signal c = signal.
Proof.
  unfold listens. rewrite andb_true_iff, !bool_decide_eq_true. reflexivity.
Qed.

Lemma filter_listens_cons (obj : ObjRef) (signal : Signal) (c : Connection)
    (l : list Connection) :
  filter (fun c' => listens obj signal c' = true) (c :: l)
  = if decide (cn_obj c = obj /\ cn_signal c = signal)
    then c :: filter (fun c' => listens obj signal c' = true) l
    else filter (fun c' => listens obj signal c' = true) l.
Proof.
  rewrite filter_cons.
  destruct (decide (listens obj signal c = true)) as [Hc | Hc];
    rewrite listens_iff in Hc.
  - by rewrite decide_True.
  - by rewrite decide_False.
Qed.

Lemma unobserved_listeners (w : World) (control_source : nat) (obj : ObjRef)
    (signal : Signal) :
  unobserved w control_source ->
  obj = OControlSource control_source \/
  obj = OKeyframeTracker (2 + w_next_id w) ->
  filter (fun c => listens obj signal c = true) (w_connections w) = [].
Proof.
  intros Hun Hobj. apply filter_listens_none, Forall_forall. intros c Hc.
  destruct (Hun c Hc) as [H1 H2].
  destruct (listens obj signal c) eqn:Hl; [| reflexivity].
  apply listens_iff in Hl as [Ho _]. destruct Hobj; congruence.
Qed.

(** The connections that an emission reaches once the control source is
    observed. *)
Ltac listeners Hun :=
  unfold observing_source; fields;
  rewrite filter_app, (unobserved_listeners _ _ _ _ Hun) by auto;
  unfold source_connections; rewrite !filter_listens_cons, filter_nil;
  cbn [cn_obj cn_signal];
  repeat case_decide;
  try match goal with
      | H : ~ (_ /\ _) |- _ => exfalso; apply H; by split
      | H : _ /\ _ |- _ => exfalso; destruct H; congruence
      end.

Lemma observing_connected (track_element : nat) (binding : ControlBinding)
    (existed : bool) (w : World) (i : nat) :
  i ∈ map cn_id (source_connections (w_next_id w) track_element binding) ->
  i ∈ map cn_id
    (w_connections (observing_source track_element binding existed w)).
Proof.
  intros Hi. unfold observing_source; fields. rewrite map_app.
  apply elem_of_app. by right.
Qed.

Lemma observing_tracker (track_element : nat) (binding : ControlBinding)
    (existed : bool) (w : World) :
  w_keyframe_trackers (observing_source track_element binding existed w)
  !!! (2 + w_next_id w)
  = {| kt_keyframes :=
         Some (snapshot_of (source_of w (cb_control_source binding)));
       kt_control_source := Some (cb_control_source binding) |}.
Proof. unfold observing_source; fields. apply lookup_total_insert_eq. Qed.

(** The connection [i] of the observed control source is still there. *)
Ltac connected i track_element binding existed w :=
  rewrite (bool_decide_eq_true_2
             (i ∈ map cn_id
                (w_connections
                   (observing_source track_element binding existed w))))
    by (apply (observing_connected track_element binding existed w);
        cbn; solve [repeat (first [left; reflexivity | right])]).

Lemma observing_set_new (w : World) (track_element : nat)
    (binding : ControlBinding) (existed : bool) (t : N) (v : Z) :
  let control_source := cb_control_source binding in
  let n := w_next_id w in
  let keyframe := {| kf_timestamp := t; kf_value := v |} in
  unobserved w control_source ->
  source_of w control_source !! t = None ->
  exec (control_source_set control_source t v)
       (observing_source track_element binding existed w)
  = with_keyframe_trackers
      <[2 + n := {| kt_keyframes :=
                      Some (<[t := (t, v)]>
                              (snapshot_of (source_of w control_source)));
                    kt_control_source := Some control_source |}]>
      (with_action_log (fun l => l ++ [7 + n])
         (with_actions
            <[7 + n := {| a_state := Pending;
                          a_fields := ControlSourceValueAdded track_element
                                        control_source keyframe
                                        (cb_name binding) |}]>
            (with_next_id S
               (with_model
                  (with_sources
                     <[control_source :=
                         <[t := v]> (source_of w control_source)]>)
                  (observing_source track_element binding existed w))))).
Proof.
  intros cs n keyframe Hun Hnew.
  unfold exec, control_source_set, bind, get, modify.
  change (source_of (observing_source track_element binding existed w) cs)
    with (source_of w cs).
  rewrite Hnew. cbn [fst snd]. unfold emit, emit_with. cbn [snd].
  change (w_connections (with_model ?f ?x)) with (w_connections x).
  set (w1 := with_model _ (observing_source track_element binding existed w)).
  replace (filter _ _)
    with [ {| cn_id := n; cn_obj := OControlSource cs;
              cn_signal := value_added;
              cn_callback := TO_controlSourceKeyFrameAddedCb;
              cn_data := Some (track_element, cb_name binding) |};
           {| cn_id := 3 + n; cn_obj := OControlSource cs;
              cn_signal := value_added;
              cn_callback := KCT_keyframeAddedCb (2 + n);
              cn_data := None |} ]
    by (symmetry; listeners Hun; reflexivity).
  cbn [fold_left]. unfold still_connected. cbn [cn_id].
  change (w_connections w1)
    with (w_connections (observing_source track_element binding existed w)).
  connected n track_element binding existed w.
  change (exec (run_callback _ _) w1)
    with (with_action_log (fun l => l ++ [7 + n])
            (with_actions
               <[7 + n := {| a_state := Pending;
                             a_fields := ControlSourceValueAdded track_element
                                           cs keyframe (cb_name binding) |}]>
               (with_next_id S w1))).
  set (w2 := with_action_log _ _).
  change (w_connections w2)
    with (w_connections (observing_source track_element binding existed w)).
  connected (3 + n) track_element binding existed w.
  unfold run_callback. cbn [cn_callback cn_obj].
  unfold exec, KeyframeChangeTracker_keyframeAddedCb, bind, get.
  cbn [fst snd]. unfold tracker_of.
  change (w_keyframe_trackers w2)
    with (w_keyframe_trackers
            (observing_source track_element binding existed w)).
  unfold n. rewrite observing_tracker. cbn [kt_keyframes].
  unfold update_tracker, modify, tracker_of. cbn [snd].
  change (w_keyframe_trackers w2)
    with (w_keyframe_trackers
            (observing_source track_element binding existed w)).
  rewrite observing_tracker. reflexivity.
Qed.

(** X4: once [_connectToControlSource] has run for a binding of a track
    element, on a control source nothing was connected to, setting a
    keyframe at a timestamp the source does not have pushes exactly one
    new, pending ControlSourceValueAdded to the log; it holds the track
    element, the control source, the keyframe and the name of the
    binding.  The source gets the keyframe and the cache of the tracker
    registered for the source follows it.  Connecting alone pushes
    nothing. *)
Theorem observed_source_logs_added_keyframe (w : World) (track_element : nat)
    (binding : ControlBinding) (existed : bool) (t : N) (v : Z) :
  let control_source := cb_control_source binding in
  unobserved w control_source ->
  source_of w control_source !! t = None ->
  let observed :=
    exec (TimelineObserver_connectToControlSource track_element binding
            existed) w in
  let w' := exec (control_source_set control_source t v) observed in
  w_action_log observed = w_action_log w /\
  w_action_log w' = w_action_log w ++ [w_next_id observed] /\
  action_of w' (w_next_id observed)
    = {| a_state := Pending;
         a_fields := ControlSourceValueAdded track_element control_source
                       {| kf_timestamp := t; kf_value := v |}
                       (cb_name binding) |} /\
  source_of w' control_source = <[t := v]> (source_of w control_source) /\
  exists tracker,
    w_control_source_keyframe_trackers w' !! control_source = Some tracker /\
    kt_keyframes (tracker_of w' tracker)
      = Some (snapshot_of (source_of w' control_source)).
Proof.
  intros cs Hun Hnew observed w'.
  assert (Hobs : observed = observing_source track_element binding existed w)
    by (unfold observed, exec; by rewrite connectToControlSource_eq).
  unfold w'. rewrite Hobs. clear w' observed Hobs. unfold cs in *.
  rewrite (observing_set_new w track_element binding existed t v Hun Hnew).
  unfold action_of, source_of, tracker_of, observing_source. fields.
  split; [reflexivity |]. split; [reflexivity |].
  split; [by rewrite lookup_total_insert_eq |].
  cbn [m_sources with_sources]. rewrite !lookup_total_insert_eq.
  split; [reflexivity |].
  exists (2 + w_next_id w). split; [by rewrite lookup_insert_eq |].
  rewrite !lookup_total_insert_eq. cbn. by rewrite snapshot_of_insert.
Qed.

Lemma observing_set_existing (w : World) (track_element : nat)
    (binding : ControlBinding) (existed : bool) (t : N) (old v : Z) :
  let control_source := cb_control_source binding in
  let n := w_next_id w in
  unobserved w control_source ->
  source_of w control_source !! t = Some old ->
  exec (control_source_set control_source t v)
       (observing_source track_element binding existed w)
  = with_action_log (fun l => l ++ [7 + n])
      (with_actions
         <[7 + n := {| a_state := Pending;
                       a_fields := ControlSourceKeyframeChanged
                                     control_source (t, old) (t, v) |}]>
         (with_next_id S
            (with_keyframe_trackers
               <[2 + n := {| kt_keyframes :=
                               Some (<[t := (t, v)]>
                                       (snapshot_of
                                          (source_of w control_source)));
                             kt_control_source := Some control_source |}]>
               (with_model
                  (with_sources
                     <[control_source :=
                         <[t := v]> (source_of w control_source)]>)
                  (observing_source track_element binding existed w))))).
Proof.
  intros cs n Hun Hold.
  unfold exec, control_source_set, bind, get, modify.
  change (source_of (observing_source track_element binding existed w) cs)
    with (source_of w cs).
  rewrite Hold. cbn [fst snd]. unfold emit, emit_with. cbn [snd].
  change (w_connections (with_model ?f ?x)) with (w_connections x).
  set (w1 := with_model _ (observing_source track_element binding existed w)).
  replace (filter _ _)
    with [ {| cn_id := 5 + n; cn_obj := OControlSource cs;
              cn_signal := value_changed;
              cn_callback := KCT_keyframeMovedCb (2 + n);
              cn_data := None |} ]
    by (symmetry; listeners Hun; reflexivity).
  cbn [fold_left]. unfold still_connected. cbn [cn_id].
  change (w_connections w1)
    with (w_connections (observing_source track_element binding existed w)).
  connected (5 + n) track_element binding existed w.
  unfold run_callback. cbn [cn_callback cn_obj].
  unfold exec, KeyframeChangeTracker_keyframeMovedCb, bind, get.
  cbn [fst snd]. unfold tracker_of.
  change (w_keyframe_trackers w1)
    with (w_keyframe_trackers
            (observing_source track_element binding existed w)).
  unfold n. rewrite observing_tracker. cbn [kt_keyframes kf_timestamp].
  rewrite snapshot_of_lookup. fold cs. rewrite Hold.
  unfold update_tracker, modify, tracker_of, emit_with. cbn [fst snd].
  change (w_keyframe_trackers w1)
    with (w_keyframe_trackers
            (observing_source track_element binding existed w)).
  unfold cs. rewrite observing_tracker.
  change (w_connections (with_keyframe_trackers ?f ?x))
    with (w_connections x).
  change (w_connections w1)
    with (w_connections (observing_source track_element binding existed w)).
  replace (filter _ _)
    with [ {| cn_id := 6 + w_next_id w;
              cn_obj := OKeyframeTracker (2 + w_next_id w);
              cn_signal := keyframe_moved;
              cn_callback := TO_controlSourceKeyFrameMovedCb;
              cn_data := None |} ]
    by (symmetry; listeners Hun; reflexivity).
  cbn [fold_left]. unfold still_connected. cbn [cn_id].
  change (w_connections (with_keyframe_trackers ?f ?x))
    with (w_connections x).
  change (w_connections w1)
    with (w_connections (observing_source track_element binding existed w)).
  connected (6 + w_next_id w) track_element binding existed w.
  reflexivity.
Qed.

Lemma observing_unset (w : World) (track_element : nat)
    (binding : ControlBinding) (existed : bool) (t : N) (old : Z) :
  let control_source := cb_control_source binding in
  let n := w_next_id w in
  unobserved w control_source ->
  source_of w control_source !! t = Some old ->
  exec (control_source_unset control_source t)
       (observing_source track_element binding existed w)
  = with_keyframe_trackers
      <[2 + n := {| kt_keyframes :=
                      Some (delete t
                              (snapshot_of (source_of w control_source)));
                    kt_control_source := Some control_source |}]>
      (with_action_log (fun l => l ++ [7 + n])
         (with_actions
            <[7 + n := {| a_state := Pending;
                          a_fields := ControlSourceValueRemoved track_element
                                        control_source
                                        {| kf_timestamp := t;
                                           kf_value := old |}
                                        (cb_name binding) |}]>
            (with_next_id S
               (with_model
                  (with_sources
                     <[control_source :=
                         delete t (source_of w control_source)]>)
                  (observing_source track_element binding existed w))))).
Proof.
  intros cs n Hun Hold.
  unfold exec, control_source_unset, bind, get, modify.
  change (source_of (observing_source track_element binding existed w) cs)
    with (source_of w cs).
  rewrite Hold. cbn [fst snd]. unfold emit, emit_with. cbn [snd].
  change (w_connections (with_model ?f ?x)) with (w_connections x).
  set (w1 := with_model _ (observing_source track_element binding existed w)).
  replace (filter _ _)
    with [ {| cn_id := 1 + n; cn_obj := OControlSource cs;
              cn_signal := value_removed;
              cn_callback := TO_controlSourceKeyFrameRemovedCb;
              cn_data := Some (track_element, cb_name binding) |};
           {| cn_id := 4 + n; cn_obj := OControlSource cs;
              cn_signal := value_removed;
              cn_callback := KCT_keyframeRemovedCb (2 + n);
              cn_data := None |} ]
    by (symmetry; listeners Hun; reflexivity).
  cbn [fold_left]. unfold still_connected. cbn [cn_id].
  change (w_connections w1)
    with (w_connections (observing_source track_element binding existed w)).
  connected (1 + n) track_element binding existed w.
  change (exec (run_callback _ _) w1)
    with (with_action_log (fun l => l ++ [7 + n])
            (with_actions
               <[7 + n := {| a_state := Pending;
                             a_fields := ControlSourceValueRemoved
                                           track_element cs
                                           {| kf_timestamp := t;
                                              kf_value := old |}
                                           (cb_name binding) |}]>
               (with_next_id S w1))).
  set (w2 := with_action_log _ _).
  change (w_connections w2)
    with (w_connections (observing_source track_element binding existed w)).
  connected (4 + n) track_element binding existed w.
  unfold run_callback. cbn [cn_callback cn_obj].
  unfold exec, KeyframeChangeTracker_keyframeRemovedCb, bind, get.
  cbn [fst snd]. unfold tracker_of.
  change (w_keyframe_trackers w2)
    with (w_keyframe_trackers
            (observing_source track_element binding existed w)).
  unfold n. rewrite observing_tracker. cbn [kt_keyframes kf_timestamp].
  rewrite snapshot_of_lookup. fold cs. rewrite Hold.
  unfold update_tracker, modify, tracker_of. cbn [snd].
  change (w_keyframe_trackers w2)
    with (w_keyframe_trackers
            (observing_source track_element binding existed w)).
  unfold cs. rewrite observing_tracker. reflexivity.
Qed.

(** X5: once [_connectToControlSource] has run, on a control source
    nothing was connected to, setting a new value at a timestamp the
    source has pushes exactly one new, pending
    ControlSourceKeyframeChanged: it holds the control source, the
    snapshot with the value the keyframe had and the snapshot with the
    new value, both of the same timestamp.  The source and the cache of
    the tracker hold the new value. *)
Theorem observed_source_logs_changed_keyframe (w : World)
    (track_element : nat) (binding : ControlBinding) (existed : bool)
    (t : N) (old v : Z) :
  let control_source := cb_control_source binding in
  unobserved w control_source ->
  source_of w control_source !! t = Some old ->
  let observed :=
    exec (TimelineObserver_connectToControlSource track_element binding
            existed) w in
  let w' := exec (control_source_set control_source t v) observed in
  w_action_log w' = w_action_log w ++ [w_next_id observed] /\
  action_of w' (w_next_id observed)
    = {| a_state := Pending;
         a_fields := ControlSourceKeyframeChanged control_source
                       (t, old) (t, v) |} /\
  source_of w' control_source = <[t := v]> (source_of w control_source) /\
  exists tracker,
    w_control_source_keyframe_trackers w' !! control_source = Some tracker /\
    kt_keyframes (tracker_of w' tracker)
      = Some (snapshot_of (source_of w' control_source)).
Proof.
  intros cs Hun Hold observed w'.
  assert (Hobs : observed = observing_source track_element binding existed w)
    by (unfold observed, exec; by rewrite connectToControlSource_eq).
  unfold w'. rewrite Hobs. clear w' observed Hobs. unfold cs in *.
  rewrite (observing_set_existing w track_element binding existed t old v
             Hun Hold).
  unfold action_of, source_of, tracker_of, observing_source. fields.
  split; [reflexivity |].
  split; [by rewrite lookup_total_insert_eq |].
  cbn [m_sources with_sources]. rewrite !lookup_total_insert_eq.
  split; [reflexivity |].
  exists (2 + w_next_id w). split; [by rewrite lookup_insert_eq |].
  rewrite !lookup_total_insert_eq. cbn. by rewrite snapshot_of_insert.
Qed.

(** X6: once [_connectToControlSource] has run, on a control source
    nothing was connected to, unsetting a timestamp the source has pushes
    exactly one new, pending ControlSourceValueRemoved: it holds the
    track element, the control source, the keyframe that was removed and
    the name of the binding.  The source and the cache of the tracker
    lose the keyframe. *)
Theorem observed_source_logs_removed_keyframe (w : World)
    (track_element : nat) (binding : ControlBinding) (existed : bool)
    (t : N) (old : Z) :
  let control_source := cb_control_source binding in
  unobserved w control_source ->
  source_of w control_source !! t = Some old ->
  let observed :=
    exec (TimelineObserver_connectToControlSource track_element binding
            existed) w in
  let w' := exec (control_source_unset control_source t) observed in
  w_action_log w' = w_action_log w ++ [w_next_id observed] /\
  action_of w' (w_next_id observed)
    = {| a_state := Pending;
         a_fields := ControlSourceValueRemoved track_element control_source
                       {| kf_timestamp := t; kf_value := old |}
                       (cb_name binding) |} /\
  source_of w' control_source = delete t (source_of w control_source) /\
  exists tracker,
    w_control_source_keyframe_trackers w' !! control_source = Some tracker /\
    kt_keyframes (tracker_of w' tracker)
      = Some (snapshot_of (source_of w' control_source)).
Proof.
  intros cs Hun Hold observed w'.
  assert (Hobs : observed = observing_source track_element binding existed w)
    by (unfold observed, exec; by rewrite connectToControlSource_eq).
  unfold w'. rewrite Hobs. clear w' observed Hobs. unfold cs in *.
  rewrite (observing_unset w track_element binding existed t old Hun Hold).
  unfold action_of, source_of, tracker_of, observing_source. fields.
  split; [reflexivity |].
  split; [by rewrite lookup_total_insert_eq |].
  cbn [m_sources with_sources]. rewrite !lookup_total_insert_eq.
  split; [reflexivity |].
  exists (2 + w_next_id w). split; [by rewrite lookup_insert_eq |].
  rewrite !lookup_total_insert_eq. cbn. by rewrite snapshot_of_delete.
Qed.

(** ** Ending the observation of a control source *)

Lemma connected_to_false (obj : ObjRef) (callback : Callback)
    (c : Connection) :
  ~ (cn_obj c = obj /\ cn_callback c = callback) ->
  connected_to obj callback c = false.
Proof.
  intros Hn. unfold connected_to.
  destruct (bool_decide (cn_obj c = obj)) eqn:Ho; [| reflexivity].
  destruct (bool_decide (cn_callback c = callback)) eqn:Hc; [| reflexivity].
  apply bool_decide_eq_true in Ho, Hc. by destruct Hn.
Qed.

Lemma connected_to_true (obj : ObjRef) (callback : Callback)
    (c : Connection) :
  cn_obj c = obj -> cn_callback c = callback ->
  connected_to obj callback c = true.
Proof.
  intros Ho Hc. unfold connected_to.
  by rewrite !bool_decide_eq_true_2.
Qed.

Lemma disconnect_by_func_eq (obj : ObjRef) (callback : Callback) (w : World)
    (l r : list Connection) (c : Connection) :
  w_connections w = l ++ c :: r ->
  Forall (fun c' => connected_to obj callback c' = false) l ->
  connected_to obj callback c = true ->
  disconnect_by_func obj callback w
  = (Ok tt, with_connections (fun _ => l ++ r) w).
Proof.
  intros Hw Hl Hc. unfold disconnect_by_func, bind, get. cbn [fst snd].
  rewrite Hw, (remove_first_skips _ l r c Hl Hc). reflexivity.
Qed.

(** No connection before the one sought is on the object (those of the
    world) or has the callback (those made since). *)
Ltac unmatched Hun :=
  apply Forall_app; split;
  [ apply Forall_forall; intros ? ?Hc; apply connected_to_false;
    intros [? _]; destruct (Hun _ Hc); congruence
  | repeat constructor; apply connected_to_false; cbn;
    intros [? ?]; congruence ].

Lemma observing_disconnect (w : World) (track_element : nat)
    (binding : ControlBinding) (existed : bool) :
  let control_source := cb_control_source binding in
  let n := w_next_id w in
  unobserved w control_source ->
  TimelineObserver_disconnectFromControlSource binding
    (observing_source track_element binding existed w)
  = (Ok tt,
     with_connections (fun _ => w_connections w ++ tracker_leftovers n binding)
       (with_keyframe_trackers
          <[2 + n := {| kt_keyframes :=
                          Some (snapshot_of (source_of w control_source));
                        kt_control_source := None |}]>
          (with_control_source_keyframe_trackers (delete control_source)
             (observing_source track_element binding existed w)))).
Proof.
  intros cs n Hun.
  set (w0 := observing_source track_element binding existed w).
  set (c1 := {| cn_id := n; cn_obj := OControlSource cs;
                cn_signal := value_added;
                cn_callback := TO_controlSourceKeyFrameAddedCb;
                cn_data := Some (track_element, cb_name binding) |}).
  set (c2 := {| cn_id := 1 + n; cn_obj := OControlSource cs;
                cn_signal := value_removed;
                cn_callback := TO_controlSourceKeyFrameRemovedCb;
                cn_data := Some (track_element, cb_name binding) |}).
  set (c3 := {| cn_id := 3 + n; cn_obj := OControlSource cs;
                cn_signal := value_added;
                cn_callback := KCT_keyframeAddedCb (2 + n);
                cn_data := None |}).
  set (c4 := {| cn_id := 4 + n; cn_obj := OControlSource cs;
                cn_signal := value_removed;
                cn_callback := KCT_keyframeRemovedCb (2 + n);
                cn_data := None |}).
  set (c5 := {| cn_id := 5 + n; cn_obj := OControlSource cs;
                cn_signal := value_changed;
                cn_callback := KCT_keyframeMovedCb (2 + n);
                cn_data := None |}).
  set (c6 := {| cn_id := 6 + n; cn_obj := OKeyframeTracker (2 + n);
                cn_signal := keyframe_moved;
                cn_callback := TO_controlSourceKeyFrameMovedCb;
                cn_data := None |}).
  assert (H1 : disconnect_by_func (OControlSource cs)
                 TO_controlSourceKeyFrameAddedCb w0
               = (Ok tt, with_connections
                           (fun _ => w_connections w ++ [c2; c3; c4; c5; c6])
                           w0)).
  { apply (disconnect_by_func_eq _ _ w0 (w_connections w)
             [c2; c3; c4; c5; c6] c1); [reflexivity | | by apply connected_to_true].
    rewrite <- (app_nil_r (w_connections w)). unmatched Hun. }
  set (w1 := with_connections _ w0) in H1.
  assert (H2 : disconnect_by_func (OControlSource cs)
                 TO_controlSourceKeyFrameRemovedCb w1
               = (Ok tt, with_connections
                           (fun _ => w_connections w ++ [c3; c4; c5; c6])
                           w1)).
  { apply (disconnect_by_func_eq _ _ w1 (w_connections w)
             [c3; c4; c5; c6] c2); [reflexivity | | by apply connected_to_true].
    rewrite <- (app_nil_r (w_connections w)). unmatched Hun. }
  set (w2 := with_connections _ w1) in H2.
  set (w3 := with_keyframe_trackers
               <[2 + n := set_kt_control_source None (tracker_of
                    (with_control_source_keyframe_trackers (delete cs) w2)
                    (2 + n))]>
               (with_control_source_keyframe_trackers (delete cs) w2)).
  assert (H3 : disconnect_by_func (OControlSource cs)
                 (KCT_keyframeMovedCb (2 + n)) w3
               = (Ok tt, with_connections
                           (fun _ => (w_connections w ++ [c3; c4]) ++ [c6])
                           w3)).
  { apply (disconnect_by_func_eq _ _ w3 (w_connections w ++ [c3; c4])
             [c6] c5);
      [by rewrite <- app_assoc | | by apply connected_to_true].
    unmatched Hun. }
  set (w4 := with_connections _ w3) in H3.
  assert (H4 : disconnect_by_func (OKeyframeTracker (2 + n))
                 TO_controlSourceKeyFrameMovedCb w4
               = (Ok tt, with_connections
                           (fun _ => (w_connections w ++ [c3; c4]) ++ [])
                           w4)).
  { apply (disconnect_by_func_eq _ _ w4 (w_connections w ++ [c3; c4])
             [] c6); [reflexivity | | by apply connected_to_true].
    apply Forall_app; split;
      [ apply Forall_forall; intros c Hc; apply connected_to_false;
        intros [Ho _]; destruct (Hun c Hc); unfold n in *; congruence
      | repeat constructor; apply connected_to_false; cbn;
        intros [? ?]; congruence ]. }
  unfold TimelineObserver_disconnectFromControlSource.
  fold cs. unfold bind at 1, try_except at 1. unfold bind at 1.
  rewrite H1, H2. unfold try_except, bind at 1, get.
  change (w_control_source_keyframe_trackers w2 !! cs)
    with (<[cs := 2 + n]> (w_control_source_keyframe_trackers w) !! cs).
  rewrite lookup_insert_eq.
  unfold bind at 1, modify. unfold bind at 1.
  unfold KeyframeChangeTracker_disconnectFromObject, bind at 1,
    update_tracker, modify.
  fold w3. rewrite H3, H4.
  f_equal. apply world_eq; try reflexivity.
  - unfold w4, w3; fields. by rewrite app_nil_r.
  - unfold w4, w3, tracker_of, w2, w1, w0, n; fields.
    rewrite observing_tracker. reflexivity.
Qed.

Lemma detached_quiet (w : World) (binding : ControlBinding)
    (signal : Signal) (keyframe : Keyframe) (w0 : World) :
  let control_source := cb_control_source binding in
  let n := w_next_id w in
  unobserved w control_source ->
  w_connections w0 = w_connections w ++ tracker_leftovers n binding ->
  w_action_log
    (exec (emit (OControlSource control_source) signal
             (ArgsKeyframe keyframe)) w0)
  = w_action_log w0.
Proof.
  intros cs n Hun Hconns. unfold exec, emit, emit_with. cbn [snd].
  rewrite Hconns.
  assert (Hstep : forall c w1,
            c ∈ tracker_leftovers n binding ->
            w_action_log
              (if still_connected c w1
               then exec (run_callback c (ArgsKeyframe keyframe)) w1
               else w1) = w_action_log w1).
  { intros c w1 Hc. destruct (still_connected c w1); [| reflexivity].
    unfold tracker_leftovers in Hc.
    apply elem_of_cons in Hc as [-> | Hc];
      [| apply elem_of_cons in Hc as [-> | Hc];
         [| by apply elem_of_nil in Hc]].
    - unfold exec, run_callback, KeyframeChangeTracker_keyframeAddedCb,
        bind, get. cbn [cn_callback cn_obj fst snd].
      by destruct (kt_keyframes (tracker_of w1 (2 + n))).
    - unfold exec, run_callback, KeyframeChangeTracker_keyframeRemovedCb,
        bind, get. cbn [cn_callback cn_obj fst snd].
      destruct (kt_keyframes (tracker_of w1 (2 + n))) as [k |]; [| done].
      by destruct (k !! kf_timestamp keyframe). }
  assert (Hsub : forall l, l ⊆ tracker_leftovers n binding ->
            forall w1,
            w_action_log
              (fold_left
                 (fun w' c =>
                    if still_connected c w'
                    then exec (run_callback c (ArgsKeyframe keyframe)) w'
                    else w') l w1) = w_action_log w1).
  { induction l as [| c l IH]; intros Hl w1; [reflexivity |].
    cbn [fold_left]. rewrite IH by (intros x Hx; apply Hl; by right).
    apply Hstep, Hl. by left. }
  apply Hsub. intros c Hc.
  apply list_elem_of_filter in Hc as [Hl Hc].
  apply elem_of_app in Hc as [Hc | Hc]; [| exact Hc].
  apply listens_iff in Hl as [Ho _]. destruct (Hun c Hc). congruence.
Qed.

(** X7: [_connectToControlSource] followed by
    [_disconnectFromControlSource] for the same binding, on a control
    source nothing was connected to: the second call returns without a
    debug line, the control source has no tracker in the observer's
    dictionary any more, and of the six connections made only the
    tracker's value-added and value-removed callbacks stay.  From then on
    setting or unsetting a keyframe of the source pushes nothing to the
    log. *)
Theorem control_source_observation_ends (w : World) (track_element : nat)
    (binding : ControlBinding) (existed : bool) :
  let control_source := cb_control_source binding in
  unobserved w control_source ->
  let observed :=
    exec (TimelineObserver_connectToControlSource track_element binding
            existed) w in
  let w' := exec (TimelineObserver_disconnectFromControlSource binding)
              observed in
  TimelineObserver_disconnectFromControlSource binding observed
    = (Ok tt, w') /\
  w_control_source_keyframe_trackers w'
    = delete control_source (w_control_source_keyframe_trackers w) /\
  w_connections w'
    = w_connections w ++ tracker_leftovers (w_next_id w) binding /\
  w_debug w' = w_debug w /\
  w_action_log w' = w_action_log w /\
  (forall t v,
     w_action_log (exec (control_source_set control_source t v) w')
     = w_action_log w) /\
  (forall t,
     w_action_log (exec (control_source_unset control_source t) w')
     = w_action_log w).
Proof.
  intros cs Hun observed w'.
  assert (Hobs : observed = observing_source track_element binding existed w)
    by (unfold observed, exec; by rewrite connectToControlSource_eq).
  unfold w', exec. rewrite Hobs. clear w' observed Hobs. unfold cs in *.
  rewrite (observing_disconnect w track_element binding existed Hun).
  cbn [snd]. set (w' := with_connections _ _).
  assert (Hconns : w_connections w'
            = w_connections w ++ tracker_leftovers (w_next_id w) binding)
    by reflexivity.
  assert (Hlog : w_action_log w' = w_action_log w) by reflexivity.
  split; [reflexivity |].
  split; [unfold w', observing_source; fields; by rewrite delete_insert_eq |].
  split; [exact Hconns |]. split; [reflexivity |]. split; [exact Hlog |].
  split.
  - intros t v. unfold control_source_set, bind, get, modify.
    cbn [fst snd]. fold (exec (emit (OControlSource (cb_control_source
      binding)) (match source_of w' (cb_control_source binding) !! t with
                 | Some _ => value_changed | None => value_added end)
      (ArgsKeyframe {| kf_timestamp := t; kf_value := v |}))
      (with_model (with_sources
         <[cb_control_source binding :=
             <[t := v]> (source_of w' (cb_control_source binding))]>) w')).
    by rewrite (detached_quiet w binding _ _ _ Hun).
  - intros t. unfold control_source_unset, bind, get.
    destruct (source_of w' (cb_control_source binding) !! t) as [old |];
      [| exact Hlog].
    unfold modify. cbn [fst snd].
    fold (exec (emit (OControlSource (cb_control_source binding))
                  value_removed
                  (ArgsKeyframe {| kf_timestamp := t; kf_value := old |}))
            (with_model (with_sources
               <[cb_control_source binding :=
                   delete t (source_of w' (cb_control_source binding))]>)
               w')).
    by rewrite (detached_quiet w binding _ _ _ Hun).
Qed.

(** ** What connecting and disconnecting never do *)

Lemma unlogged_refl (w : World) : unlogged w w.
Proof. by repeat split. Qed.

Lemma unlogged_trans (w1 w2 w3 : World) :
  unlogged w1 w2 -> unlogged w2 w3 -> unlogged w1 w3.
Proof.
  intros (Hl & Ha & Hs) (Hl' & Ha' & Hs').
  split; [congruence |]. split; congruence.
Qed.

Ltac same_log := intros ?; split; [| split]; reflexivity.

Lemma quiet_ret {A} (a : A) : quiet (ret a).
Proof. same_log. Qed.

Lemma quiet_raise {A} (e : PyExc) : quiet (@raise A e).
Proof. same_log. Qed.

Lemma quiet_get : quiet get.
Proof. same_log. Qed.

Lemma quiet_bind {A B} (m : M A) (k : A -> M B) :
  quiet m -> (forall a, quiet (k a)) -> quiet (bind m k).
Proof.
  intros Hm Hk w. unfold bind. specialize (Hm w).
  destruct (m w) as [[a | e] w']; [| exact Hm].
  eapply unlogged_trans; [exact Hm | apply Hk].
Qed.

Lemma quiet_try_except (body handler : M unit) (exc : PyExc) :
  quiet body -> quiet handler -> quiet (try_except body exc handler).
Proof.
  intros Hb Hh w. unfold try_except. specialize (Hb w).
  destruct (body w) as [[a | e] w']; [exact Hb |].
  destruct (decide (e = exc)); [| exact Hb].
  eapply unlogged_trans; [exact Hb | apply Hh].
Qed.

Lemma quiet_for_each {A} (l : list A) (body : A -> M unit) :
  (forall x, quiet (body x)) -> quiet (for_each l body).
Proof.
  intros Hbody. induction l as [| x l IH]; cbn [for_each].
  - apply quiet_ret.
  - apply quiet_bind; [apply Hbody | intros _; exact IH].
Qed.

Lemma quiet_fresh_id : quiet fresh_id.
Proof. same_log. Qed.

Lemma quiet_connect (obj : ObjRef) (signal : Signal) (callback : Callback)
    (data : option (nat * string)) : quiet (connect obj signal callback data).
Proof. same_log. Qed.

Lemma quiet_disconnect_by_func (obj : ObjRef) (callback : Callback) :
  quiet (disconnect_by_func obj callback).
Proof.
  intros w. unfold disconnect_by_func, bind, get. cbn [fst snd].
  destruct (remove_first _ _); split; [| split | | split]; reflexivity.
Qed.

Lemma quiet_debug (msg : LogMsg) : quiet (debug msg).
Proof. same_log. Qed.

Lemma quiet_update_tracker (self : nat)
    (f : KeyframeChangeTracker -> KeyframeChangeTracker) :
  quiet (update_tracker self f).
Proof. same_log. Qed.

Lemma quiet_with_tracked_track_elements
    (f : gmap nat (gmap string GValue) -> gmap nat (gmap string GValue)) :
  quiet (modify (with_tracked_track_elements f)).
Proof. same_log. Qed.

Lemma quiet_with_control_source_keyframe_trackers
    (f : gmap nat nat -> gmap nat nat) :
  quiet (modify (with_control_source_keyframe_trackers f)).
Proof. same_log. Qed.

Create HintDb quiet.

#[local] Hint Resolve quiet_ret quiet_raise quiet_get quiet_fresh_id
  quiet_connect quiet_disconnect_by_func quiet_debug quiet_update_tracker
  quiet_with_tracked_track_elements
  quiet_with_control_source_keyframe_trackers : quiet.

Ltac quiet_tac :=
  repeat first
    [ solve [ auto with quiet ]
    | apply quiet_bind; [| intros ?]
    | apply quiet_try_except
    | apply quiet_for_each; intros ?
    | match goal with
      | |- quiet (match ?x with _ => _ end) => destruct x
      | |- quiet (if ?x then _ else _) => destruct x
      end ].

Lemma quiet_addTrackElement (track_element : nat) :
  quiet (TrackElementChildPropertyTracker_addTrackElement track_element).
Proof.
  unfold TrackElementChildPropertyTracker_addTrackElement,
    TrackElementChildPropertyTracker_discoverChildProperties.
  quiet_tac.
Qed.

Lemma quiet_connectToControlSource_existing (track_element : nat)
    (binding : ControlBinding) :
  quiet (TimelineObserver_connectToControlSource track_element binding true).
Proof. intros w. rewrite connectToControlSource_eq. by repeat split. Qed.

Lemma quiet_disconnectFromControlSource (binding : ControlBinding) :
  quiet (TimelineObserver_disconnectFromControlSource binding).
Proof.
  unfold TimelineObserver_disconnectFromControlSource,
    KeyframeChangeTracker_disconnectFromObject.
  quiet_tac.
Qed.

#[local] Hint Resolve quiet_addTrackElement
  quiet_connectToControlSource_existing quiet_disconnectFromControlSource
  : quiet.

Lemma quiet_connectToTrackElement (track_element : nat) :
  quiet (TimelineObserver_connectToTrackElement track_element).
Proof. unfold TimelineObserver_connectToTrackElement. quiet_tac. Qed.

Lemma quiet_disconnectFromTrackElement (track_element : nat) :
  quiet (TimelineObserver_disconnectFromTrackElement track_element).
Proof. unfold TimelineObserver_disconnectFromTrackElement. quiet_tac. Qed.

Lemma for_each_returns {A} (l : list A) (body : A -> M unit) :
  (forall x w, fst (body x w) = Ok tt) ->
  forall w, fst (for_each l body w) = Ok tt.
Proof.
  intros Hbody. induction l as [| x l IH]; intros w; [reflexivity |].
  cbn [for_each]. unfold bind. specialize (Hbody x w).
  destruct (body x w) as [[[] | e] w']; [apply IH | discriminate].
Qed.

Lemma addTrackElement_returns (track_element : nat) (w : World) :
  fst (TrackElementChildPropertyTracker_addTrackElement track_element w)
  = Ok tt.
Proof.
  unfold TrackElementChildPropertyTracker_addTrackElement, bind, get.
  cbn [fst snd]. destruct (decide _); [reflexivity |].
  by destruct (te_track (element w track_element)).
Qed.

Lemma connectToTrackElement_returns (track_element : nat) (w : World) :
  fst (TimelineObserver_connectToTrackElement track_element w) = Ok tt.
Proof.
  unfold TimelineObserver_connectToTrackElement. unfold bind at 1, get.
  cbn [fst snd]. unfold bind at 1.
  pose proof (for_each_returns (te_bindings (element w track_element))
                (fun item => TimelineObserver_connectToControlSource
                               track_element (snd item) true)
                (fun x w0 => f_equal fst
                   (connectToControlSource_eq track_element (snd x) true w0))
                w) as Hfor.
  destruct (for_each _ _ w) as [[[] | e] w1]; [| discriminate].
  unfold bind at 1, connect, fresh_id, modify, bind. cbn [fst snd].
  destruct (te_kind (element w track_element));
    first [apply addTrackElement_returns | reflexivity].
Qed.

(** X8: [_connectToTrackElement] and [_disconnectFromTrackElement] never
    change the edited model, make no action, push nothing to the log and
    write nothing to the scenario, whatever the element and the state:
    the bindings an element already has are connected with
    [existed=True].  [_controlBindingAddedCb], for a binding that is
    new, writes exactly one scenario action, for the track element and
    the name of the binding. *)
Theorem track_element_observation_is_silent (w : World)
    (track_element : nat) :
  let connected :=
    exec (TimelineObserver_connectToTrackElement track_element) w in
  let disconnected :=
    exec (TimelineObserver_disconnectFromTrackElement track_element) w in
  (w_model connected = w_model w /\ unlogged w connected) /\
  (w_model disconnected = w_model w /\ unlogged w disconnected) /\
  (forall binding,
     let added :=
       exec (TimelineObserver_controlBindingAddedCb track_element binding) w in
     w_scenario added = w_scenario w ++ [(track_element, cb_name binding)] /\
     w_action_log added = w_action_log w /\ w_model added = w_model w).
Proof.
  split; [| split].
  - split; [apply stable_connectToTrackElement
           | apply quiet_connectToTrackElement].
  - split; [apply stable_disconnectFromTrackElement
           | apply quiet_disconnectFromTrackElement].
  - intros binding. unfold exec, TimelineObserver_controlBindingAddedCb.
    rewrite connectToControlSource_eq. done.
Qed.

(** X9: [_clipTrackElementAddedCb] pushes exactly one new, pending
    TrackElementAdded when the element is an effect; the action holds the
    clip, the element, the asset of the element and no captured
    properties.  For any other element it pushes nothing and makes no
    action.  In both cases the edited model and the scenario are
    untouched. *)
Theorem clipTrackElementAddedCb_logs_effects (w : World)
    (clip track_element : nat) :
  let w1 := exec (TimelineObserver_connectToTrackElement track_element) w in
  let w' :=
    exec (TimelineObserver_clipTrackElementAddedCb clip track_element) w in
  (te_kind (element w track_element) = BaseEffect ->
     w_action_log w' = w_action_log w ++ [w_next_id w1] /\
     w_actions w'
       = <[w_next_id w1 :=
             {| a_state := Pending;
                a_fields := TrackElementAdded clip (Some track_element)
                              (te_asset (element w track_element)) []
                              NoPropsChanged |}]> (w_actions w)) /\
  (te_kind (element w track_element) <> BaseEffect ->
     w_action_log w' = w_action_log w /\ w_actions w' = w_actions w) /\
  w_model w' = w_model w /\ w_scenario w' = w_scenario w.
Proof.
  intros w1 w'.
  destruct (stable_connectToTrackElement track_element w) as [Hm _].
  destruct (quiet_connectToTrackElement track_element w) as (Hl & Ha & Hs).
  fold (exec (TimelineObserver_connectToTrackElement track_element) w)
    in Hm, Hl, Ha, Hs. fold w1 in Hm, Hl, Ha, Hs.
  assert (He : element w1 track_element = element w track_element)
    by (unfold element; by rewrite Hm).
  assert (Hrun : w' =
            match te_kind (element w track_element) with
            | BaseEffect =>
                with_action_log (fun l => l ++ [w_next_id w1])
                  (with_actions
                     <[w_next_id w1 :=
                         {| a_state := Pending;
                            a_fields := TrackElementAdded clip
                                          (Some track_element)
                                          (te_asset (element w track_element))
                                          [] NoPropsChanged |}]>
                     (with_next_id S w1))
            | _ => w1
            end).
  { unfold w', exec, TimelineObserver_clipTrackElementAddedCb, bind.
    destruct (TimelineObserver_connectToTrackElement track_element w)
      as [[[] | e] w2] eqn:Hrun.
    - unfold w1, exec in *. rewrite Hrun in *. cbn [fst snd] in *.
      unfold get. cbn [fst snd]. rewrite He.
      destruct (te_kind (element w track_element)); try reflexivity.
      unfold TrackElementAdded_init, new_action, action_log_push, fresh_id,
        bind, get, modify, ret. cbn [fst snd]. by rewrite He.
    - pose proof (connectToTrackElement_returns track_element w) as Hok.
      rewrite Hrun in Hok. discriminate. }
  rewrite Hrun.
  destruct (te_kind (element w track_element)); fields;
    (split; [intros; try done; by rewrite Hl, Ha |]);
    (split; [intros; try done; by rewrite Hl, Ha |]);
    by rewrite Hm, Hs.
Qed.

(** X10: [_clipTrackElementRemovedCb] first ends the observation of the
    control sources of the element.  When that returns, the callback
    pushes exactly one new, pending TrackElementRemoved for an effect
    (holding the clip, the element, its asset and no captured
    properties) and nothing for any other element.  When it raises, the
    callback raises the same exception and pushes nothing.  The edited
    model and the scenario are untouched in every case. *)
Theorem clipTrackElementRemovedCb_logs_effects (w : World)
    (clip track_element : nat) :
  let w0 := exec (debug (MsgRemovedFrom track_element clip)) w in
  let disconnect :=
    TimelineObserver_disconnectFromTrackElement track_element in
  let w1 := exec disconnect w0 in
  let removed :=
    TimelineObserver_clipTrackElementRemovedCb clip track_element in
  let w' := exec removed w in
  (fst (disconnect w0) = Ok tt ->
     fst (removed w) = Ok tt /\
     (te_kind (element w track_element) = BaseEffect ->
        w_action_log w' = w_action_log w ++ [w_next_id w1] /\
        w_actions w'
          = <[w_next_id w1 :=
                {| a_state := Pending;
                   a_fields := TrackElementRemoved clip (Some track_element)
                                 (te_asset (element w track_element)) []
                                 NoPropsChanged |}]> (w_actions w)) /\
     (te_kind (element w track_element) <> BaseEffect ->
        w_action_log w' = w_action_log w /\ w_actions w' = w_actions w)) /\
  (forall e, fst (disconnect w0) = Raise e ->
     fst (removed w) = Raise e /\
     w_action_log w' = w_action_log w /\ w_actions w' = w_actions w) /\
  w_model w' = w_model w /\ w_scenario w' = w_scenario w.
Proof.
  intros w0 disconnect w1 removed w'.
  destruct (stable_disconnectFromTrackElement track_element w0) as [Hm _].
  destruct (quiet_disconnectFromTrackElement track_element w0)
    as (Hl & Ha & Hs).
  fold disconnect in Hm, Hl, Ha, Hs.
  fold (exec disconnect w0) in Hm, Hl, Ha, Hs. fold w1 in Hm, Hl, Ha, Hs.
  change (w_model w0) with (w_model w) in Hm.
  change (w_action_log w0) with (w_action_log w) in Hl.
  change (w_actions w0) with (w_actions w) in Ha.
  change (w_scenario w0) with (w_scenario w) in Hs.
  assert (He : element w1 track_element = element w track_element)
    by (unfold element; by rewrite Hm).
  assert (Hrun : removed w =
            match fst (disconnect w0) with
            | Ok _ =>
                (Ok tt,
                 match te_kind (element w track_element) with
                 | BaseEffect =>
                     with_action_log (fun l => l ++ [w_next_id w1])
                       (with_actions
                          <[w_next_id w1 :=
                              {| a_state := Pending;
                                 a_fields := TrackElementRemoved clip
                                               (Some track_element)
                                               (te_asset
                                                  (element w track_element))
                                               [] NoPropsChanged |}]>
                          (with_next_id S w1))
                 | _ => w1
                 end)
            | Raise e => (Raise e, w1)
            end).
  { unfold removed, TimelineObserver_clipTrackElementRemovedCb.
    unfold bind at 1, debug, modify. fold (debug (MsgRemovedFrom
      track_element clip)).
    change (with_debug _ w) with w0. unfold bind at 1. fold disconnect.
    unfold w1, exec in *.
    destruct (disconnect w0) as [[[] | e] w2]; cbn [fst snd] in *;
      [| reflexivity].
    unfold bind at 1, get. cbn [fst snd]. rewrite He.
    destruct (te_kind (element w track_element)); try reflexivity.
    unfold TrackElementRemoved_init, new_action, action_log_push, fresh_id,
      bind, get, modify, ret. cbn [fst snd]. by rewrite He. }
  unfold w', exec. rewrite Hrun.
  destruct (fst (disconnect w0)) as [[] | e]; cbn [fst snd].
  - split; [| split; [discriminate |]].
    + intros _. split; [reflexivity |].
      destruct (te_kind (element w track_element)); fields;
        (split; [intros; try done; by rewrite Hl, Ha |]);
        intros; try done; by rewrite Hl, Ha.
    + destruct (te_kind (element w track_element)); fields;
        by rewrite Hm, Hs.
  - split; [discriminate |]. split; [| by rewrite Hm, Hs].
    intros e' [= <-]. by rewrite Hl, Ha.
Qed.

(** ** Edge behaviour of the actions *)

(** X11: the methods that capture and remove a track element drop the
    action's reference to it, so they cannot run twice in a row: after a
    [TrackElementAdded.undo] that returned, a second [undo] raises
    AttributeError ([self.track_element] is [None]) and changes nothing;
    likewise a second [TrackElementRemoved.do] after one that returned. *)
Theorem capture_twice_raises (w : World) (self clip track_element asset : nat)
    (props : list (string * GValue)) (changed : PropsChanged) :
  self < w_next_id w ->
  (a_fields (action_of w self)
     = TrackElementAdded clip (Some track_element) asset props changed ->
   fst (undo self w) = Ok tt ->
   undo self (exec (undo self) w)
     = (Raise AttributeError, exec (undo self) w)) /\
  (a_fields (action_of w self)
     = TrackElementRemoved clip (Some track_element) asset props changed ->
   fst (do self w) = Ok tt ->
   do self (exec (do self) w) = (Raise AttributeError, exec (do self) w)).
Proof.
  intros Hself. split; intros Hf Hret.
  - destruct (capture_step (undo self) self clip track_element Undone w Hself)
      as (_ & _ & Hf1 & _); [| exact Hret |].
    { unfold undo. unfold bind at 1, get. by rewrite Hf. }
    rewrite Hf in Hf1. cbn in Hf1.
    unfold undo at 1. unfold bind at 1, get. by rewrite Hf1.
  - destruct (capture_step (do self) self clip track_element Done w Hself)
      as (_ & _ & Hf1 & _); [| exact Hret |].
    { unfold do. unfold bind at 1, get. by rewrite Hf. }
    rewrite Hf in Hf1. cbn in Hf1.
    unfold do at 1. unfold bind at 1, get. by rewrite Hf1.
Qed.

(** X13: [ClipPropertyChanged.do] writes the new value and [undo] the old
    value to the property of the clip whose name is the recorded one with
    dashes (the underscores that the code puts in are canonicalised back
    by GObject); the other properties of the clip keep their values.  On
    a clip without that property both raise TypeError, change nothing and
    leave the action unmarked. *)
Theorem ClipPropertyChanged_writes_property (w : World) (self clip : nat)
    (property_name : string) (old_value new_value : GValue) :
  a_fields (action_of w self)
    = ClipPropertyChanged clip property_name old_value new_value ->
  let name :=
    replace "_"%char "-"%char (replace "-"%char "_"%char property_name) in
  (is_Some (c_props (clip_of w clip) !! name) ->
     fst (do self w) = Ok tt /\ fst (undo self w) = Ok tt /\
     c_props (clip_of (exec (do self) w) clip)
       = <[name := new_value]> (c_props (clip_of w clip)) /\
     c_props (clip_of (exec (undo self) w) clip)
       = <[name := old_value]> (c_props (clip_of w clip))) /\
  (c_props (clip_of w clip) !! name = None ->
     do self w = (Raise TypeError, w) /\ undo self w = (Raise TypeError, w)).
Proof.
  intros Hf name.
  assert (Hdo : do self w
            = (set_property clip (replace "-"%char "_"%char property_name)
                 new_value ;; update_action self (set_a_state Done)) w)
    by (unfold do; unfold bind at 1, get; by rewrite Hf).
  assert (Hundo : undo self w
            = (set_property clip (replace "-"%char "_"%char property_name)
                 old_value ;; update_action self (set_a_state Undone)) w)
    by (unfold undo; unfold bind at 1, get; by rewrite Hf).
  unfold exec. rewrite Hdo, Hundo.
  unfold set_property, bind, get. cbn [fst snd]. unfold name.
  split.
  - intros [v Hv]. rewrite Hv.
    unfold update_clip, update_action, modify, clip_of. cbn.
    by rewrite !lookup_total_insert_eq.
  - intros ->. done.
Qed.

(** X14: [ControlSourceValueAdded.do] followed by [undo] leaves the
    control source without a keyframe at the timestamp of the action,
    whatever it held there before: the source is as it was exactly when
    it had no keyframe at that timestamp.  [ControlSourceValueRemoved.do]
    followed by [undo] leaves the source with the keyframe of the action
    at that timestamp. *)
Theorem keyframe_actions_do_undo (w : World)
    (self track_element control_source : nat) (keyframe : Keyframe)
    (property_name : string) :
  self < w_next_id w ->
  let t := kf_timestamp keyframe in
  let w' := exec (do self ;; undo self) w in
  (a_fields (action_of w self)
     = ControlSourceValueAdded track_element control_source keyframe
         property_name ->
   source_of w' control_source = delete t (source_of w control_source) /\
   (source_of w' control_source = source_of w control_source <->
    source_of w control_source !! t = None)) /\
  (a_fields (action_of w self)
     = ControlSourceValueRemoved track_element control_source keyframe
         property_name ->
   source_of w' control_source
     = <[t := kf_value keyframe]> (source_of w control_source)).
Proof.
  intros Hself t w'.
  assert (Hkeep : forall (body : M unit) w0,
            grows w0 (exec body w0) -> self < w_next_id w0 ->
            forall mark,
            a_fields (action_of (marked self mark (exec body w0)) self)
            = a_fields (action_of w0 self)).
  { intros body w0 Hg Hlt mark. unfold marked. rewrite action_of_update.
    cbn. by rewrite (grows_action _ _ self Hg Hlt). }
  split; intros Hf.
  - assert (Hw' : w' = marked self Undone
               (exec (control_source_unset control_source t)
                  (marked self Done
                     (exec (control_source_set control_source t
                              (kf_value keyframe)) w)))).
    { destruct (control_source_set_spec control_source t (kf_value keyframe) w)
        as (Hrun1 & _ & Hg1).
      set (w1 := marked self Done _).
      destruct (control_source_unset_spec control_source t w1)
        as (Hrun2 & _ & _).
      unfold w', exec at 1. unfold bind at 1.
      unfold do. unfold bind at 1, get. rewrite Hf.
      unfold bind at 1. fold t. rewrite Hrun1.
      unfold UndoableAction_done, update_action, modify. fold (marked self
        Done (exec (control_source_set control_source t (kf_value keyframe))
        w)). fold w1.
      unfold undo. unfold bind at 1, get.
      rewrite (Hkeep _ w Hg1 Hself Done : a_fields (action_of w1 self) = _).
      rewrite Hf. unfold bind at 1. fold t. rewrite Hrun2. reflexivity. }
    assert (Hsrc : source_of w' control_source
              = delete t (source_of w control_source)).
    { rewrite Hw'. rewrite source_of_marked. unfold source_of.
      rewrite (proj1 (proj2 (control_source_unset_spec _ _ _))).
      rewrite w_model_marked.
      rewrite (proj1 (proj2 (control_source_set_spec _ _ _ _))).
      destruct (model_unset_reads control_source t
                  (model_control_source_set control_source t
                     (kf_value keyframe) (w_model w))) as (-> & _).
      rewrite decide_True by done.
      destruct (model_set_reads control_source t (kf_value keyframe)
                  (w_model w)) as (-> & _).
      rewrite decide_True by done. by rewrite delete_insert_eq. }
    split; [exact Hsrc |]. rewrite Hsrc. split.
    + intros Heq. rewrite <- Heq. apply lookup_delete_eq.
    + apply delete_id.
  - assert (Hw' : w' = marked self Done
               (exec (control_source_set control_source t (kf_value keyframe))
                  (marked self Undone
                     (exec (control_source_unset control_source t) w)))).
    { destruct (control_source_unset_spec control_source t w)
        as (Hrun1 & _ & Hg1).
      set (w1 := marked self Undone _).
      destruct (control_source_set_spec control_source t (kf_value keyframe)
                  w1) as (Hrun2 & _ & _).
      unfold w', exec at 1. unfold bind at 1.
      unfold do. unfold bind at 1, get. rewrite Hf.
      unfold bind at 1. fold t. rewrite Hrun1.
      unfold UndoableAction_undone, update_action, modify. fold (marked self
        Undone (exec (control_source_unset control_source t) w)). fold w1.
      unfold undo. unfold bind at 1, get.
      rewrite (Hkeep _ w Hg1 Hself Undone : a_fields (action_of w1 self) = _).
      rewrite Hf. unfold bind at 1. fold t. rewrite Hrun2. reflexivity. }
    rewrite Hw'. rewrite source_of_marked. unfold source_of.
    rewrite (proj1 (proj2 (control_source_set_spec _ _ _ _))).
    rewrite w_model_marked.
    rewrite (proj1 (proj2 (control_source_unset_spec _ _ _))).
    destruct (model_set_reads control_source t (kf_value keyframe)
                (model_control_source_unset control_source t (w_model w)))
      as (-> & _).
    rewrite decide_True by done.
    destruct (model_unset_reads control_source t (w_model w)) as (-> & _).
    rewrite decide_True by done. by rewrite insert_delete_eq.
Qed.

(** ** What the teardown of a track element keeps *)

Section Keeps.
Context {B : Type} (f : World -> B).

Lemma keeps_ret {A} (a : A) : keeps f (ret a).
Proof. by intros w. Qed.

Lemma keeps_raise {A} (e : PyExc) : keeps f (@raise A e).
Proof. by intros w. Qed.

Lemma keeps_get : keeps f get.
Proof. by intros w. Qed.

Lemma keeps_bind {A C} (m : M A) (k : A -> M C) :
  keeps f m -> (forall a, keeps f (k a)) -> keeps f (bind m k).
Proof.
  intros Hm Hk w. unfold bind. specialize (Hm w).
  destruct (m w) as [[a | e] w']; [| exact Hm].
  cbn [snd] in Hm. rewrite <- Hm. apply Hk.
Qed.

Lemma keeps_try_except (body handler : M unit) (exc : PyExc) :
  keeps f body -> keeps f handler -> keeps f (try_except body exc handler).
Proof.
  intros Hb Hh w. unfold try_except. specialize (Hb w).
  destruct (body w) as [[a | e] w']; [exact Hb |].
  destruct (decide (e = exc)); [| exact Hb].
  cbn [snd] in Hb. rewrite <- Hb. apply Hh.
Qed.

Lemma keeps_for_each {A} (l : list A) (body : A -> M unit) :
  (forall x, keeps f (body x)) -> keeps f (for_each l body).
Proof.
  intros Hbody. induction l as [| x l IH]; cbn [for_each].
  - apply keeps_ret.
  - apply keeps_bind; [apply Hbody | intros _; exact IH].
Qed.

Lemma keeps_modify (g : World -> World) :
  (forall w, f (g w) = f w) -> keeps f (modify g).
Proof. intros Hg w. apply Hg. Qed.

End Keeps.

Ltac keeps_tac :=
  repeat first
    [ apply keeps_ret | apply keeps_raise | apply keeps_get
    | apply keeps_bind; [| intros ?]
    | apply keeps_try_except
    | apply keeps_for_each; intros ?
    | apply keeps_modify; intros ?; reflexivity
    | match goal with
      | |- keeps _ (match ?x with _ => _ end) => destruct x
      | |- keeps _ (if ?x then _ else _) => destruct x
      end ].

Lemma clipTrackElementRemovedCb_keeps_tracked (clip track_element : nat) :
  keeps w_tracked_track_elements
    (TimelineObserver_clipTrackElementRemovedCb clip track_element).
Proof.
  unfold TimelineObserver_clipTrackElementRemovedCb,
    TimelineObserver_disconnectFromTrackElement,
    TimelineObserver_disconnectFromControlSource,
    KeyframeChangeTracker_disconnectFromObject, TrackElementRemoved_init,
    new_action, action_log_push, update_tracker, disconnect_by_func,
    fresh_id, debug.
  keeps_tac.
  all: by intros w.
Qed.

Lemma removal_keeps_tracked (w : World) (clip track_element : nat) :
  (forall c, c ∈ w_connections w ->
     listens (OClip clip) child_removed c = true ->
     cn_callback c = TO_clipTrackElementRemovedCb) ->
  w_tracked_track_elements
    (exec (emit (OClip clip) child_removed (ArgsTrackElement track_element)) w)
  = w_tracked_track_elements w.
Proof.
  intros Hlisten. unfold exec, emit, emit_with. cbn [snd].
  assert (Hl : forall c,
            c ∈ filter (fun c => listens (OClip clip) child_removed c = true)
                  (w_connections w) ->
            cn_obj c = OClip clip /\
            cn_callback c = TO_clipTrackElementRemovedCb).
  { intros c [Hc Hin]%list_elem_of_filter. split; [| by apply Hlisten].
    by apply listens_iff in Hc as [? _]. }
  revert Hl. generalize (filter (fun c => listens (OClip clip) child_removed c
                                          = true) (w_connections w)).
  intros l. clear Hlisten. revert w.
  induction l as [| c l IH]; intros w0 Hl; [reflexivity |].
  cbn [fold_left]. rewrite IH by (intros c' Hc'; apply Hl; by right).
  destruct (still_connected c w0); [| reflexivity].
  destruct (Hl c) as [Ho Hc]; [by left |].
  unfold exec, run_callback. rewrite Ho, Hc.
  apply clipTrackElementRemovedCb_keeps_tracked.
Qed.

Lemma capture_untracked (w : World) (self clip track_element : nat) :
  self < w_next_id w ->
  w_tracked_track_elements w !! track_element = None ->
  (forall c, c ∈ w_connections w ->
     listens (OClip clip) child_removed c = true ->
     cn_callback c = TO_clipTrackElementRemovedCb) ->
  let captured := writable_child_properties (element w track_element) in
  let w1 := exec (capture_and_remove self clip (Some track_element)) w in
  capture_and_remove self clip (Some track_element) w = (Raise KeyError, w1) /\
  w_model w1 = model_remove clip track_element (w_model w) /\
  action_of w1 self
    = set_a_fields (assign_track_element_props captured
                      (a_fields (action_of w self))) (action_of w self).
Proof.
  intros Hself Hnone Hlisten captured w1.
  destruct (capture_and_remove_spec self clip track_element w Hself)
    as (Hrun & Hmodel & _ & _). fold captured in Hrun, Hmodel.
  set (w0 := with_actions
               <[self := set_a_fields
                           (assign_track_element_props captured
                              (a_fields (action_of w self)))
                           (action_of w self)]> w).
  assert (Hmid : exec (assign self (assign_track_element_props captured) ;;
                       remove clip track_element) w
                 = exec (remove clip track_element) w0).
  { unfold exec, bind. by rewrite assign_eq. }
  rewrite Hmid in Hrun, Hmodel.
  destruct (remove_spec clip track_element w0) as (_ & _ & Hg).
  assert (Htracked : w_tracked_track_elements
                       (exec (remove clip track_element) w0)
                     = w_tracked_track_elements w).
  { unfold exec, remove, bind, get. cbn [fst snd].
    destruct (decide _); [| reflexivity].
    unfold update_clip, modify. cbn [fst snd].
    apply (removal_keeps_tracked
             (with_model (with_clips _) w0) clip track_element).
    exact Hlisten. }
  rewrite Htracked, Hnone in Hrun.
  unfold w1, exec. rewrite Hrun. cbn [snd].
  split; [reflexivity |]. split; [exact Hmodel |].
  rewrite (grows_action _ _ self Hg) by exact Hself.
  unfold w0. by rewrite action_of_update.
Qed.

(** X12: when the child-property tracker does not know the element of a
    TrackElementAdded (it registers an element only once the element has
    a track), [undo] raises KeyError, and it does so late: the element
    has left the clip and the action has taken the captured properties,
    while the action still refers to the element and is not marked
    undone.  The same holds for [TrackElementRemoved.do].  Stated for a
    clip whose "child-removed" signal reaches no other callback than
    [_clipTrackElementRemovedCb]. *)
Theorem capture_of_untracked_element_fails_late (w : World)
    (self clip track_element asset : nat) (props : list (string * GValue))
    (changed : PropsChanged) :
  self < w_next_id w ->
  w_tracked_track_elements w !! track_element = None ->
  (forall c, c ∈ w_connections w ->
     listens (OClip clip) child_removed c = true ->
     cn_callback c = TO_clipTrackElementRemovedCb) ->
  let captured := writable_child_properties (element w track_element) in
  let remaining :=
    filter (fun e => e ≠ track_element) (c_children (clip_of w clip)) in
  (a_fields (action_of w self)
     = TrackElementAdded clip (Some track_element) asset props changed ->
   fst (undo self w) = Raise KeyError /\
   c_children (clip_of (exec (undo self) w) clip) = remaining /\
   action_of (exec (undo self) w) self
     = {| a_state := a_state (action_of w self);
          a_fields := TrackElementAdded clip (Some track_element) asset
                        captured changed |}) /\
  (a_fields (action_of w self)
     = TrackElementRemoved clip (Some track_element) asset props changed ->
   fst (do self w) = Raise KeyError /\
   c_children (clip_of (exec (do self) w) clip) = remaining /\
   action_of (exec (do self) w) self
     = {| a_state := a_state (action_of w self);
          a_fields := TrackElementRemoved clip (Some track_element) asset
                        captured changed |}).
Proof.
  intros Hself Hnone Hlisten captured remaining.
  destruct (capture_untracked w self clip track_element Hself Hnone Hlisten)
    as (Hrun & Hmodel & Haction). fold captured in Haction.
  set (w1 := exec (capture_and_remove self clip (Some track_element)) w) in *.
  assert (Hchildren : c_children (clip_of w1 clip) = remaining).
  { unfold clip_of. rewrite Hmodel. apply model_remove_children. }
  split; intros Hf.
  - assert (Hundo : undo self w = (Raise KeyError, w1)).
    { unfold undo. unfold bind at 1, get. rewrite Hf.
      unfold bind. by rewrite Hrun. }
    unfold exec. rewrite Hundo. cbn [fst snd].
    split; [reflexivity |]. split; [exact Hchildren |].
    rewrite Haction, Hf. reflexivity.
  - assert (Hdo : do self w = (Raise KeyError, w1)).
    { unfold do. unfold bind at 1, get. rewrite Hf.
      unfold bind. by rewrite Hrun. }
    unfold exec. rewrite Hdo. cbn [fst snd].
    split; [reflexivity |]. split; [exact Hchildren |].
    rewrite Haction, Hf. reflexivity.
Qed.

(** ** The observer's layer callbacks *)

Lemma lift_log_action (fields : ActionFields) (o : Observer) :
  (action <- lift (new_action fields) ;; lift (action_log_push action))%ob o
  = (Ok tt, with_ob_world (logged fields) o).
Proof. by destruct o. Qed.

Lemma logged_reads (fields : ActionFields) (w : World) :
  w_model (logged fields w) = w_model w /\
  w_action_log (logged fields w) = w_action_log w ++ [w_next_id w] /\
  action_of (logged fields w) (w_next_id w)
  = {| a_state := Pending; a_fields := fields |} /\
  w_connections (logged fields w) = w_connections w.
Proof.
  unfold logged, action_of. fields.
  by rewrite lookup_total_insert_eq.
Qed.

Lemma logged_after_write (fields : ActionFields) (f : Model -> Model)
    (w : World) :
  w_action_log (logged fields (with_model f w))
  = w_action_log w ++ [w_next_id w] /\
  action_of (logged fields (with_model f w)) (w_next_id w)
  = {| a_state := Pending; a_fields := fields |}.
Proof.
  by destruct (logged_reads fields (with_model f w))
    as (_ & Hlog & Haction & _).
Qed.

Lemma layer_moved_cb_eq (o : Observer) (ges_layer : nat) :
  TimelineObserver_layer_moved_cb ges_layer o
  = match ob_layers_priorities o !! ges_layer with
    | None => (Raise KeyError, o)
    | Some previous =>
        let current := ly_priority (layer_of (ob_world o) ges_layer) in
        (Ok tt,
         with_ob_world (logged (LayerMoved ges_layer previous current))
           (with_ob_layers_priorities <[ges_layer := current]> o))
    end.
Proof.
  unfold TimelineObserver_layer_moved_cb.
  unfold obind at 1, oget.
  destruct (ob_layers_priorities o !! ges_layer) as [previous |]; [| done].
  unfold obind at 1, omodify. by rewrite lift_log_action.
Qed.

(** X15: [_layer_moved_cb] raises KeyError, leaving everything as it
    was, for a layer the observer holds no priority of.  For a layer it
    knows, it pushes one pending LayerMoved action on the log, from the
    priority it remembered to the priority the layer has now, remembers
    the new priority and leaves the timeline and its connections alone;
    undoing that action gives the layer the remembered priority, doing
    it the current one. *)
Theorem layer_moved_cb_logs_move (o : Observer) (ges_layer : nat) :
  let w := ob_world o in
  let current := ly_priority (layer_of w ges_layer) in
  let self := w_next_id w in
  let moved := TimelineObserver_layer_moved_cb ges_layer o in
  (ob_layers_priorities o !! ges_layer = None ->
   moved = (Raise KeyError, o)) /\
  (forall previous,
     ob_layers_priorities o !! ges_layer = Some previous ->
     fst moved = Ok tt /\
     ob_layers_priorities (snd moved)
     = <[ges_layer := current]> (ob_layers_priorities o) /\
     ob_layer_connections (snd moved) = ob_layer_connections o /\
     w_model (ob_world (snd moved)) = w_model w /\
     w_action_log (ob_world (snd moved)) = w_action_log w ++ [self] /\
     action_of (ob_world (snd moved)) self
     = {| a_state := Pending;
          a_fields := LayerMoved ges_layer previous current |} /\
     ly_priority (layer_of (exec (undo self) (ob_world (snd moved))) ges_layer)
     = previous /\
     ly_priority (layer_of (exec (do self) (ob_world (snd moved))) ges_layer)
     = current).
Proof.
  intros w current self moved. subst moved.
  rewrite layer_moved_cb_eq. split.
  - by intros ->.
  - intros previous ->. cbv zeta. fold w. fold current.
    cbn [fst snd ob_world ob_layers_priorities ob_layer_connections
         with_ob_world with_ob_layers_priorities].
    fold w.
    destruct (logged_reads (LayerMoved ges_layer previous current) w)
      as (Hmodel & Hlog & Haction & _).
    do 5 (split; [done |]).
    unfold self. split; [exact Haction |].
    split.
    + unfold exec, undo. unfold bind at 1, get. rewrite Haction.
      unfold update_layer, modify, layer_of at 1.
      cbn [a_fields snd w_model with_model m_layers with_layers].
      by rewrite lookup_total_insert_eq.
    + unfold exec, do. unfold bind at 1, get. rewrite Haction.
      unfold update_layer, modify, layer_of at 1.
      cbn [a_fields snd w_model with_model m_layers with_layers].
      by rewrite lookup_total_insert_eq.
Qed.

Lemma connect_to_layer_eq (o : Observer) (ges_layer : nat) :
  TimelineObserver_connect_to_layer ges_layer o
  = (Ok tt,
     with_ob_layer_connections (fun l => l ++ layer_connections ges_layer)
       (with_ob_layers_priorities
          <[ges_layer := ly_priority (layer_of (ob_world o) ges_layer)]> o)).
Proof.
  destruct o.
  unfold TimelineObserver_connect_to_layer, layer_connect, obind, oget,
    omodify, with_ob_layer_connections, with_ob_layers_priorities,
    layer_connections.
  cbn. by rewrite <- !app_assoc.
Qed.

Lemma remove_first_layer_connection_app (p : LayerConnection -> bool)
    (l r : list LayerConnection) (c : LayerConnection) :
  Forall (fun c => p c = false) l -> p c = true ->
  remove_first_layer_connection p (l ++ c :: r) = Some (l ++ r).
Proof.
  intros Hl Hc. induction Hl as [| c' l Hc' _ IH]; cbn.
  - by rewrite Hc.
  - by rewrite Hc', IH.
Qed.

Lemma remove_first_layer_connection_none (p : LayerConnection -> bool)
    (l : list LayerConnection) :
  Forall (fun c => p c = false) l ->
  remove_first_layer_connection p l = None.
Proof.
  intros Hl. induction Hl as [| c' l Hc' _ IH]; cbn; [done |].
  by rewrite Hc', IH.
Qed.

Lemma other_layer_unmatched (ges_layer : nat) (callback : LayerCallback)
    (l : list LayerConnection) :
  Forall (fun c => lc_layer c <> ges_layer) l ->
  Forall (fun c => layer_connected_to ges_layer callback c = false) l.
Proof.
  intros Hl. eapply Forall_impl; [exact Hl |].
  intros c Hc. unfold layer_connected_to.
  by rewrite bool_decide_eq_false_2.
Qed.

Lemma layer_disconnect_by_func_eq (o : Observer) (ges_layer : nat)
    (callback : LayerCallback) (signal : LayerSignal)
    (l r : list LayerConnection) :
  Forall (fun c => lc_layer c <> ges_layer) l ->
  ob_layer_connections o
  = l ++ {| lc_layer := ges_layer; lc_signal := signal;
            lc_callback := callback |} :: r ->
  layer_disconnect_by_func ges_layer callback o
  = (Ok tt, with_ob_layer_connections (fun _ => l ++ r) o).
Proof.
  intros Hl Ho. unfold layer_disconnect_by_func, obind, oget. rewrite Ho.
  rewrite remove_first_layer_connection_app; [done | |].
  - by apply other_layer_unmatched.
  - unfold layer_connected_to. cbn.
    by rewrite !bool_decide_eq_true_2.
Qed.

Lemma disconnect_from_layer_eq (o : Observer) (ges_layer : nat)
    (l : list LayerConnection) :
  is_Some (ob_layers_priorities o !! ges_layer) ->
  Forall (fun c => lc_layer c <> ges_layer) l ->
  ob_layer_connections o = l ++ layer_connections ges_layer ->
  TimelineObserver_disconnect_from_layer ges_layer o
  = (Ok tt,
     with_ob_layer_connections (fun _ => l)
       (with_ob_layers_priorities (delete ges_layer) o)).
Proof.
  intros [previous Hprevious] Hl Ho.
  unfold TimelineObserver_disconnect_from_layer.
  unfold obind at 1, oget. rewrite Hprevious.
  unfold obind at 1, omodify.
  unfold obind at 1.
  rewrite (layer_disconnect_by_func_eq _ _ _ clip_added l
             (tail (layer_connections ges_layer))); [| done | exact Ho].
  unfold obind at 1.
  rewrite (layer_disconnect_by_func_eq _ _ _ clip_removed l
             (tail (tail (layer_connections ges_layer))));
    [| done | reflexivity].
  rewrite (layer_disconnect_by_func_eq _ _ _ notify_priority l []);
    [| done | reflexivity].
  destruct o. unfold with_ob_layer_connections, with_ob_layers_priorities.
  cbn. by rewrite app_nil_r.
Qed.

(** X16: [_connect_to_layer] remembers the priority the layer has now
    and adds its three connections to the layer, without touching the
    timeline or the log.  For a layer the observer was not connected to,
    [_disconnect_from_layer] then succeeds and leaves the observer
    exactly as it was before the two calls. *)
Theorem layer_connection_round_trip (o : Observer) (ges_layer : nat) :
  ob_layers_priorities o !! ges_layer = None ->
  Forall (fun c => lc_layer c <> ges_layer) (ob_layer_connections o) ->
  let connected := TimelineObserver_connect_to_layer ges_layer o in
  fst connected = Ok tt /\
  ob_layers_priorities (snd connected)
  = <[ges_layer := ly_priority (layer_of (ob_world o) ges_layer)]>
      (ob_layers_priorities o) /\
  ob_layer_connections (snd connected)
  = ob_layer_connections o ++ layer_connections ges_layer /\
  ob_world (snd connected) = ob_world o /\
  TimelineObserver_disconnect_from_layer ges_layer (snd connected)
  = (Ok tt, o).
Proof.
  intros Hnone Hl connected. subst connected.
  rewrite connect_to_layer_eq. cbn [fst snd].
  do 4 (split; [done |]).
  rewrite (disconnect_from_layer_eq _ _ (ob_layer_connections o));
    [| | done | done].
  - destruct o. unfold with_ob_layer_connections, with_ob_layers_priorities.
    cbn in *. by rewrite delete_insert_id.
  - cbn. rewrite lookup_insert_eq. by eexists.
Qed.

Lemma disconnect_from_layer_unknown (o : Observer) (ges_layer : nat) :
  ob_layers_priorities o !! ges_layer = None ->
  TimelineObserver_disconnect_from_layer ges_layer o = (Raise KeyError, o).
Proof.
  intros Hnone. unfold TimelineObserver_disconnect_from_layer.
  unfold obind at 1, oget. by rewrite Hnone.
Qed.

(** X17: [_disconnect_from_layer] raises KeyError and changes nothing for
    a layer the observer holds no priority of.  For a layer it holds a
    priority of but on which [_clipAddedCb] is not connected, it raises
    TypeError after the priority is forgotten: the observer no longer
    knows the layer, and what connections it had to it stay. *)
Theorem disconnect_from_layer_failures (o : Observer) (ges_layer : nat) :
  (ob_layers_priorities o !! ges_layer = None ->
   TimelineObserver_disconnect_from_layer ges_layer o
   = (Raise KeyError, o)) /\
  (is_Some (ob_layers_priorities o !! ges_layer) ->
   Forall (fun c => ~ (lc_layer c = ges_layer /\
                       lc_callback c = TO_clipAddedCb))
          (ob_layer_connections o) ->
   TimelineObserver_disconnect_from_layer ges_layer o
   = (Raise TypeError, with_ob_layers_priorities (delete ges_layer) o)).
Proof.
  split; [apply disconnect_from_layer_unknown |].
  intros [previous Hprevious] Hl.
  unfold TimelineObserver_disconnect_from_layer.
  unfold obind at 1, oget. rewrite Hprevious.
  unfold obind at 1, omodify. unfold obind at 1.
  unfold layer_disconnect_by_func, obind, oget.
  cbn [ob_layer_connections with_ob_layers_priorities].
  rewrite remove_first_layer_connection_none; [done |].
  eapply Forall_impl; [exact Hl |].
  intros c Hc. unfold layer_connected_to.
  apply andb_false_iff.
  destruct (decide (lc_layer c = ges_layer)) as [Heq | Hne].
  - right. apply bool_decide_eq_false_2. intros Hcb. by apply Hc.
  - left. by apply bool_decide_eq_false_2.
Qed.

Lemma logged_next_id (fields : ActionFields) (w : World) :
  w_next_id (logged fields w) = S (w_next_id w).
Proof. reflexivity. Qed.

Lemma logged_twice_reads (f1 f2 : ActionFields) (w : World) :
  let w' := logged f2 (logged f1 w) in
  w_model w' = w_model w /\
  w_action_log w' = w_action_log w ++ [w_next_id w; S (w_next_id w)] /\
  action_of w' (w_next_id w) = {| a_state := Pending; a_fields := f1 |} /\
  action_of w' (S (w_next_id w)) = {| a_state := Pending; a_fields := f2 |}.
Proof.
  unfold logged, action_of. fields.
  rewrite <- app_assoc.
  rewrite lookup_total_insert_ne by lia.
  by rewrite !lookup_total_insert_eq.
Qed.

Lemma layerAddedCb_eq (o : Observer) (ges_timeline ges_layer : nat) :
  TimelineObserver_layerAddedCb ges_timeline ges_layer o
  = (Ok tt,
     with_ob_world (logged (LayerAdded ges_timeline ges_layer))
       (with_ob_layer_connections (fun l => l ++ layer_connections ges_layer)
          (with_ob_layers_priorities
             <[ges_layer := ly_priority (layer_of (ob_world o) ges_layer)]>
             o))).
Proof.
  unfold TimelineObserver_layerAddedCb. unfold obind at 1.
  by rewrite connect_to_layer_eq, lift_log_action.
Qed.

Lemma layerRemovedCb_eq (o : Observer) (ges_timeline ges_layer : nat)
    (l : list LayerConnection) :
  is_Some (ob_layers_priorities o !! ges_layer) ->
  Forall (fun c => lc_layer c <> ges_layer) l ->
  ob_layer_connections o = l ++ layer_connections ges_layer ->
  TimelineObserver_layerRemovedCb ges_timeline ges_layer o
  = (Ok tt,
     with_ob_world (logged (LayerRemoved ges_timeline ges_layer))
       (with_ob_layer_connections (fun _ => l)
          (with_ob_layers_priorities (delete ges_layer) o))).
Proof.
  intros Hsome Hl Ho. unfold TimelineObserver_layerRemovedCb.
  unfold obind at 1.
  by rewrite (disconnect_from_layer_eq _ _ l), lift_log_action.
Qed.

(** X18: [_layerAddedCb] connects the observer to the layer and pushes
    one pending LayerAdded action.  [_layerRemovedCb] for a layer the
    observer holds no priority of raises KeyError before anything is
    pushed.  Called for the layer that [_layerAddedCb] has just
    connected, it disconnects the observer again (priorities and
    connections are as before the two callbacks) and pushes one pending
    LayerRemoved action after the LayerAdded one; neither callback
    changes the timeline. *)
Theorem layer_callbacks_log_actions (o : Observer)
    (ges_timeline ges_layer : nat) :
  let w := ob_world o in
  let n := w_next_id w in
  let added := TimelineObserver_layerAddedCb ges_timeline ges_layer o in
  let removed :=
    TimelineObserver_layerRemovedCb ges_timeline ges_layer (snd added) in
  (fst added = Ok tt /\
   ob_layers_priorities (snd added) !! ges_layer
   = Some (ly_priority (layer_of w ges_layer)) /\
   ob_layer_connections (snd added)
   = ob_layer_connections o ++ layer_connections ges_layer /\
   w_model (ob_world (snd added)) = w_model w /\
   w_action_log (ob_world (snd added)) = w_action_log w ++ [n] /\
   action_of (ob_world (snd added)) n
   = {| a_state := Pending;
        a_fields := LayerAdded ges_timeline ges_layer |}) /\
  (ob_layers_priorities o !! ges_layer = None ->
   TimelineObserver_layerRemovedCb ges_timeline ges_layer o
   = (Raise KeyError, o)) /\
  (ob_layers_priorities o !! ges_layer = None ->
   Forall (fun c => lc_layer c <> ges_layer) (ob_layer_connections o) ->
   fst removed = Ok tt /\
   ob_layers_priorities (snd removed) = ob_layers_priorities o /\
   ob_layer_connections (snd removed) = ob_layer_connections o /\
   w_model (ob_world (snd removed)) = w_model w /\
   w_action_log (ob_world (snd removed)) = w_action_log w ++ [n; S n] /\
   action_of (ob_world (snd removed)) n
   = {| a_state := Pending;
        a_fields := LayerAdded ges_timeline ges_layer |} /\
   action_of (ob_world (snd removed)) (S n)
   = {| a_state := Pending;
        a_fields := LayerRemoved ges_timeline ges_layer |}).
Proof.
  intros w n added removed. subst added removed.
  rewrite layerAddedCb_eq. cbn [fst snd].
  split; [| split].
  - cbn [ob_world ob_layers_priorities ob_layer_connections with_ob_world
         with_ob_layer_connections with_ob_layers_priorities].
    fold w.
    destruct (logged_reads (LayerAdded ges_timeline ges_layer) w)
      as (Hmodel & Hlog & Haction & _).
    by rewrite lookup_insert_eq.
  - intros Hnone. unfold TimelineObserver_layerRemovedCb. unfold obind at 1.
    by rewrite disconnect_from_layer_unknown.
  - intros Hnone Hl.
    rewrite (layerRemovedCb_eq _ _ _ (ob_layer_connections o));
      [| | done | done].
    + cbn [fst snd].
      cbn [ob_world ob_layers_priorities ob_layer_connections with_ob_world
           with_ob_layer_connections with_ob_layers_priorities].
      fold w.
      destruct (logged_twice_reads (LayerAdded ges_timeline ges_layer)
                  (LayerRemoved ges_timeline ges_layer) w)
        as (Hmodel & Hlog & Hfirst & Hsecond).
      by rewrite delete_insert_id.
    + cbn. rewrite lookup_insert_eq. by eexists.
Qed.

Lemma layer_move_eq (o : Observer) (ges_layer : nat) (previous p : N) :
  ob_layers_priorities o !! ges_layer = Some previous ->
  (lift (update_layer ges_layer (set_ly_priority p)) ;;
   TimelineObserver_layer_moved_cb ges_layer)%ob o
  = (Ok tt,
     with_ob_world
       (fun w =>
          logged (LayerMoved ges_layer previous p)
            (with_model
               (with_layers
                  <[ges_layer := set_ly_priority p (layer_of w ges_layer)]>)
               w))
       (with_ob_layers_priorities <[ges_layer := p]> o)).
Proof.
  intros Hprevious. unfold obind at 1, lift, update_layer, modify.
  rewrite layer_moved_cb_eq.
  destruct o as [w priorities connections attributes dropping].
  cbn [ob_world ob_layers_priorities with_ob_world] in *.
  rewrite Hprevious. cbv zeta.
  assert (Hp : ly_priority
                 (layer_of
                    (with_model
                       (with_layers
                          <[ges_layer := set_ly_priority p
                                           (layer_of w ges_layer)]>) w)
                    ges_layer) = p).
  { unfold layer_of at 1.
    cbn [w_model with_model m_layers with_layers].
    by rewrite lookup_total_insert_eq. }
  by rewrite Hp.
Qed.

(** X19: when a layer whose priority the observer remembers is moved
    twice and [_layer_moved_cb] runs after each move, the log gets two
    LayerMoved actions that chain: the first goes from the remembered
    priority to the first new one, the second from the first new one to
    the second, and the observer ends remembering the second. *)
Theorem successive_layer_moves_chain (o : Observer) (ges_layer : nat)
    (p0 p1 p2 : N) :
  ob_layers_priorities o !! ges_layer = Some p0 ->
  let move p :=
    (lift (update_layer ges_layer (set_ly_priority p)) ;;
     TimelineObserver_layer_moved_cb ges_layer)%ob in
  let moved := (move p1 ;; move p2)%ob o in
  let n := w_next_id (ob_world o) in
  fst moved = Ok tt /\
  w_action_log (ob_world (snd moved))
  = w_action_log (ob_world o) ++ [n; S n] /\
  action_of (ob_world (snd moved)) n
  = {| a_state := Pending; a_fields := LayerMoved ges_layer p0 p1 |} /\
  action_of (ob_world (snd moved)) (S n)
  = {| a_state := Pending; a_fields := LayerMoved ges_layer p1 p2 |} /\
  ob_layers_priorities (snd moved) !! ges_layer = Some p2 /\
  ly_priority (layer_of (ob_world (snd moved)) ges_layer) = p2.
Proof.
  intros Hprevious move moved n.
  assert (Hmoved : moved
            = move p2 (with_ob_world
                         (fun w =>
                            logged (LayerMoved ges_layer p0 p1)
                              (with_model
                                 (with_layers
                                    <[ges_layer := set_ly_priority p1
                                                     (layer_of w ges_layer)]>)
                                 w))
                         (with_ob_layers_priorities <[ges_layer := p1]> o))).
  { unfold moved, move. unfold obind at 1.
    by rewrite (layer_move_eq _ _ p0). }
  rewrite Hmoved. unfold move.
  rewrite (layer_move_eq _ _ p1)
    by (cbn [ob_layers_priorities with_ob_world with_ob_layers_priorities];
        by rewrite lookup_insert_eq).
  cbn [fst snd ob_world ob_layers_priorities with_ob_world
       with_ob_layers_priorities].
  unfold n. generalize (ob_world o) as w. intros w.
  unfold logged, action_of, layer_of. fields.
  cbn [m_layers with_layers].
  rewrite <- app_assoc.
  rewrite lookup_total_insert_ne by lia.
  rewrite !lookup_total_insert_eq, !lookup_insert_eq.
  done.
Qed.

(** ** The observer's clip property callback *)

Lemma replace_dashes_back (s : string) :
  replace "_"%char "-"%char (replace "-"%char "_"%char s)
  = replace "_"%char "-"%char s.
Proof.
  induction s as [| c s IH]; [done |].
  cbn [replace]. rewrite IH. f_equal.
  destruct (Ascii.eqb_spec c "-"%char) as [-> | Hdash]; [done |].
  by destruct (Ascii.eqb_spec c "_"%char).
Qed.

Lemma clipPropertyChangedCb_eq (o : Observer) (tracker clip : nat)
    (property_name : string) (old_value new_value current last : GValue) :
  ob_dropping_clips o = false ->
  c_props (clip_of (ob_world o) clip)
    !! replace "_"%char "-"%char property_name = Some current ->
  (ob_tracker_attributes o !!! tracker) !! ("last-" +:+ property_name)
  = Some last ->
  TimelineObserver_clipPropertyChangedCb tracker clip property_name
    old_value new_value o
  = (Ok tt,
     with_ob_world
       (logged (ClipPropertyChanged clip property_name last current))
       (with_ob_tracker_attributes
          <[tracker := <[("last-" +:+ property_name) := current]>
                         (ob_tracker_attributes o !!! tracker)]> o)).
Proof.
  intros Hdrop Hcurrent Hlast.
  unfold TimelineObserver_clipPropertyChangedCb.
  unfold obind at 1, oget. rewrite Hdrop. cbv zeta.
  unfold obind at 1, lift at 1, get_property, bind, get.
  rewrite Hcurrent. unfold ret. rewrite Hlast.
  by destruct o.
Qed.

(** X20: [_clipPropertyChangedCb] does nothing while clips are being
    dropped.  Otherwise it reads the property of the clip (TypeError for
    a clip without it) and the attribute [last-<property>] of the tracker
    (AttributeError when the tracker has none), both without changing
    anything, and then pushes one pending ClipPropertyChanged action from
    the remembered value to the value the clip has now, whatever old and
    new value came with the signal, and remembers the current value.
    Undoing that action writes the remembered value to the very property
    that was read. *)
Theorem clipPropertyChangedCb_logs_change (o : Observer)
    (tracker clip : nat) (property_name : string)
    (old_value new_value : GValue) :
  let w := ob_world o in
  let n := w_next_id w in
  let attr_name := "last-" +:+ property_name in
  let name := replace "_"%char "-"%char property_name in
  let changed :=
    TimelineObserver_clipPropertyChangedCb tracker clip property_name
      old_value new_value o in
  (ob_dropping_clips o = true -> changed = (Ok tt, o)) /\
  (ob_dropping_clips o = false ->
   (c_props (clip_of w clip) !! name = None ->
    changed = (Raise TypeError, o)) /\
   (is_Some (c_props (clip_of w clip) !! name) ->
    (ob_tracker_attributes o !!! tracker) !! attr_name = None ->
    changed = (Raise AttributeError, o)) /\
   (forall current last,
      c_props (clip_of w clip) !! name = Some current ->
      (ob_tracker_attributes o !!! tracker) !! attr_name = Some last ->
      fst changed = Ok tt /\
      w_model (ob_world (snd changed)) = w_model w /\
      w_action_log (ob_world (snd changed)) = w_action_log w ++ [n] /\
      action_of (ob_world (snd changed)) n
      = {| a_state := Pending;
           a_fields := ClipPropertyChanged clip property_name last current |} /\
      (ob_tracker_attributes (snd changed) !!! tracker) !! attr_name
      = Some current /\
      c_props (clip_of (exec (undo n) (ob_world (snd changed))) clip)
      = <[name := last]> (c_props (clip_of w clip)))).
Proof.
  intros w n attr_name name changed. split; [| intros Hdrop; split; [| split]].
  - intros Hdrop. unfold changed, TimelineObserver_clipPropertyChangedCb.
    unfold obind at 1, oget. by rewrite Hdrop.
  - intros Hnone. unfold changed, TimelineObserver_clipPropertyChangedCb.
    unfold obind at 1, oget. rewrite Hdrop. cbv zeta.
    unfold obind at 1, lift at 1, get_property, bind, get.
    fold w. fold name. rewrite Hnone. by destruct o.
  - intros [current Hcurrent] Hnone.
    unfold changed, TimelineObserver_clipPropertyChangedCb.
    unfold obind at 1, oget. rewrite Hdrop. cbv zeta.
    unfold obind at 1, lift at 1, get_property, bind, get.
    fold w. fold name. rewrite Hcurrent. unfold ret.
    fold attr_name. rewrite Hnone. by destruct o.
  - intros current last Hcurrent Hlast. unfold changed.
    rewrite (clipPropertyChangedCb_eq _ _ _ _ _ _ current last) by done.
    cbn [fst snd ob_world ob_tracker_attributes with_ob_world
         with_ob_tracker_attributes].
    fold w. fold attr_name.
    destruct (logged_reads
                (ClipPropertyChanged clip property_name last current) w)
      as (Hmodel & Hlog & Haction & _).
    do 4 (split; [done |]).
    split; [by rewrite lookup_total_insert_eq, lookup_insert_eq |].
    unfold exec, undo. unfold bind at 1, get. unfold n. rewrite Haction.
    cbn [a_fields].
    unfold set_property, bind, get. rewrite replace_dashes_back.
    assert (Hclip : clip_of
                      (logged
                         (ClipPropertyChanged clip property_name last current)
                         w) clip
                    = clip_of w clip)
      by (unfold clip_of; by rewrite Hmodel).
    rewrite Hclip. fold name. rewrite Hcurrent.
    unfold update_clip, UndoableAction_undone, update_action, modify.
    cbn [snd]. rewrite Hclip.
    unfold clip_of at 1. fields. cbn [m_clips with_clips].
    by rewrite lookup_total_insert_eq.
Qed.

(** X21: [LayerMoved.asScenarioAction] reports the priority the layer
    has when it is called, not one the action recorded: taken after [do]
    the structure carries the new priority, taken after [undo] the old
    one. *)
Theorem LayerMoved_scenario_action_follows_layer (w : World)
    (self ges_layer : nat) (old_priority priority : N) :
  a_fields (action_of w self) = LayerMoved ges_layer old_priority priority ->
  fst (LayerMoved_asScenarioAction ges_layer (exec (do self) w))
  = Ok {| st_name := "move-layer";
          st_fields := [("priority", GInt (Z.of_N priority))] |} /\
  fst (LayerMoved_asScenarioAction ges_layer (exec (undo self) w))
  = Ok {| st_name := "move-layer";
          st_fields := [("priority", GInt (Z.of_N old_priority))] |}.
Proof.
  intros Hfields.
  unfold LayerMoved_asScenarioAction, exec, do, undo, bind, get, ret.
  rewrite Hfields. unfold update_layer, modify, layer_of.
  cbn [fst snd w_model with_model m_layers with_layers].
  by rewrite !lookup_total_insert_eq.
Qed.

(** ** The layer actions on an observed timeline *)

Lemma layer_moved_cb_frame (o : Observer) (ges_layer : nat) :
  let o' := oexec (TimelineObserver_layer_moved_cb ges_layer) o in
  w_model (ob_world o') = w_model (ob_world o) /\
  ob_layer_connections o' = ob_layer_connections o.
Proof.
  unfold oexec. rewrite layer_moved_cb_eq.
  by destruct (ob_layers_priorities o !! ges_layer).
Qed.

Lemma layer_notify_priority_frame (o : Observer) (ges_layer : nat) :
  let o' := oexec (layer_notify_priority ges_layer) o in
  w_model (ob_world o') = w_model (ob_world o) /\
  ob_layer_connections o' = ob_layer_connections o.
Proof.
  unfold oexec, layer_notify_priority. cbn [snd].
  generalize (filter (fun c => hears_priority ges_layer c = true)
                     (ob_layer_connections o)).
  intros handlers.
  assert (Hfold : forall o1,
            w_model (ob_world o1) = w_model (ob_world o) ->
            ob_layer_connections o1 = ob_layer_connections o ->
            let o' :=
              fold_left
                (fun o' c =>
                   if bool_decide (c ∈ ob_layer_connections o')
                   then oexec (TimelineObserver_layer_moved_cb ges_layer) o'
                   else o')
                handlers o1 in
            w_model (ob_world o') = w_model (ob_world o) /\
            ob_layer_connections o' = ob_layer_connections o).
  { induction handlers as [| c handlers IH]; intros o1 Hm Hc; [done |].
    cbn [fold_left]. apply IH.
    - destruct (bool_decide _); [| done].
      destruct (layer_moved_cb_frame o1 ges_layer) as [Hm1 _]. congruence.
    - destruct (bool_decide _); [| done].
      destruct (layer_moved_cb_frame o1 ges_layer) as [_ Hc1]. congruence. }
  by apply Hfold.
Qed.

Lemma notified_frame (o : Observer) (ges_layer : nat) (method : M unit)
    (w' : World) :
  method (ob_world o) = (Ok tt, w') ->
  fst (notified ges_layer method o) = Ok tt /\
  w_model (ob_world (oexec (notified ges_layer method) o)) = w_model w' /\
  ob_layer_connections (oexec (notified ges_layer method) o)
  = ob_layer_connections o.
Proof.
  intros Hmethod. unfold oexec, notified, obind, lift. rewrite Hmethod.
  split; [reflexivity |].
  apply (layer_notify_priority_frame (with_ob_world (fun _ => w') o)).
Qed.

Lemma notified_once (o : Observer) (ges_layer : nat) (method : M unit)
    (w' : World) (remembered : N) :
  method (ob_world o) = (Ok tt, w') ->
  length (filter (fun c => hears_priority ges_layer c = true)
                 (ob_layer_connections o)) = 1 ->
  ob_layers_priorities o !! ges_layer = Some remembered ->
  oexec (notified ges_layer method) o
  = with_ob_world
      (fun _ =>
         logged (LayerMoved ges_layer remembered
                   (ly_priority (layer_of w' ges_layer))) w')
      (with_ob_layers_priorities
         <[ges_layer := ly_priority (layer_of w' ges_layer)]> o).
Proof.
  intros Hmethod Hone Hremembered.
  unfold oexec, notified, obind, lift. rewrite Hmethod.
  unfold layer_notify_priority. cbn [snd ob_layer_connections with_ob_world].
  destruct (filter _ (ob_layer_connections o)) as [| c [| c' handlers]] eqn:Hf;
    try discriminate.
  cbn [fold_left ob_layer_connections with_ob_world].
  rewrite bool_decide_eq_true_2.
  - unfold oexec. rewrite layer_moved_cb_eq.
    cbn [ob_layers_priorities with_ob_world]. rewrite Hremembered.
    by destruct o.
  - assert (Hin : c ∈ filter (fun c => hears_priority ges_layer c = true)
                             (ob_layer_connections o))
      by (rewrite Hf; by left).
    by apply list_elem_of_filter in Hin as [_ Hin].
Qed.

(** C6 (amended): [LayerMoved.do] and [LayerMoved.undo] write the priority
    of their layer, [do] the new one and [undo] the old one, and change
    no other state of the timeline: the other layers, the clips, the
    track elements, the control sources and the commits requested of
    every timeline are as before.  This is so too when the write is
    notified to the observer; connected once to a layer it knows, the
    observer then pushes a further LayerMoved action, from the priority
    it remembered to the one written, and remembers the one written.
    LayerAdded and LayerRemoved change the timeline of the layer; a
    commit is requested where the layer is removed ([LayerAdded.undo],
    [LayerRemoved.do]) and not where it is added ([LayerAdded.do],
    [LayerRemoved.undo]). *)
Theorem layer_actions_effects (o : Observer) (self : nat) :
  let w := ob_world o in
  (forall ges_layer old_priority priority,
     a_fields (action_of w self)
       = LayerMoved ges_layer old_priority priority ->
     let moved v :=
       with_layers
         <[ges_layer := set_ly_priority v (layer_of w ges_layer)]>
         (w_model w) in
     let pushed (method : M unit) remembered v :=
       let o' := oexec (notified ges_layer method) o in
       w_action_log (ob_world o') = w_action_log w ++ [w_next_id w] /\
       action_of (ob_world o') (w_next_id w)
       = {| a_state := Pending;
            a_fields := LayerMoved ges_layer remembered v |} /\
       ob_layers_priorities o'
       = <[ges_layer := v]> (ob_layers_priorities o) in
     (fst (do self w) = Ok tt /\ w_model (exec (do self) w) = moved priority)
     /\
     (fst (undo self w) = Ok tt /\
      w_model (exec (undo self) w) = moved old_priority)
     /\
     (fst (notified ges_layer (do self) o) = Ok tt /\
      w_model (ob_world (oexec (notified ges_layer (do self)) o))
      = moved priority)
     /\
     (fst (notified ges_layer (undo self) o) = Ok tt /\
      w_model (ob_world (oexec (notified ges_layer (undo self)) o))
      = moved old_priority)
     /\
     (forall v, m_timelines (moved v) = m_timelines (w_model w))
     /\
     (forall remembered,
        length (filter (fun c => hears_priority ges_layer c = true)
                       (ob_layer_connections o)) = 1 ->
        ob_layers_priorities o !! ges_layer = Some remembered ->
        pushed (do self) remembered priority /\
        pushed (undo self) remembered old_priority))
  /\
  (forall ges_timeline ges_layer,
     let added :=
       match ly_timeline (layer_of w ges_layer) with
       | None =>
           with_layers
             <[ges_layer := set_ly_timeline (Some ges_timeline)
                              (layer_of w ges_layer)]> (w_model w)
       | Some _ => w_model w
       end in
     let removed :=
       if decide (ly_timeline (layer_of w ges_layer) = Some ges_timeline) then
         with_layers
           <[ges_layer := set_ly_timeline None (layer_of w ges_layer)]>
           (w_model w)
       else w_model w in
     let removed_and_committed :=
       with_timelines
         <[ges_timeline :=
             {| tl_commits :=
                  S (tl_commits (m_timelines (w_model w) !!! ges_timeline))
             |}]>
         removed in
     (a_fields (action_of w self) = LayerAdded ges_timeline ges_layer ->
      fst (do self w) = Ok tt /\ w_model (exec (do self) w) = added /\
      fst (undo self w) = Ok tt /\
      w_model (exec (undo self) w) = removed_and_committed) /\
     (a_fields (action_of w self) = LayerRemoved ges_timeline ges_layer ->
      fst (do self w) = Ok tt /\
      w_model (exec (do self) w) = removed_and_committed /\
      fst (undo self w) = Ok tt /\ w_model (exec (undo self) w) = added) /\
     m_timelines added = m_timelines (w_model w)).
Proof.
  intros w. destruct (layer_methods_eq w self) as [Hmoved Hset]. split.
  - intros ges_layer old_priority priority Hf moved pushed.
    destruct (Hmoved _ _ _ Hf) as [Hdo Hundo].
    destruct (notified_frame o ges_layer (do self) _ Hdo) as (Hrd & Hmd & _).
    destruct (notified_frame o ges_layer (undo self) _ Hundo)
      as (Hru & Hmu & _).
    unfold exec. fold w in Hdo, Hundo. rewrite Hdo, Hundo.
    do 2 (split; [done |]).
    split; [done |]. split; [done |]. split; [done |].
    intros remembered Hone Hremembered. unfold pushed.
    rewrite (notified_once o ges_layer (do self) _ remembered Hdo Hone
               Hremembered).
    rewrite (notified_once o ges_layer (undo self) _ remembered Hundo Hone
               Hremembered).
    cbn [ob_world ob_layers_priorities with_ob_world
         with_ob_layers_priorities].
    assert (Hp : forall v,
              ly_priority
                (layer_of
                   (with_model
                      (with_layers
                         <[ges_layer := set_ly_priority v
                                          (layer_of w ges_layer)]>) w)
                   ges_layer) = v).
    { intros v. unfold layer_of at 1.
      cbn [w_model with_model m_layers with_layers].
      by rewrite lookup_total_insert_eq. }
    rewrite !Hp.
    split.
    + destruct (logged_after_write
                  (LayerMoved ges_layer remembered priority)
                  (with_layers
                     <[ges_layer := set_ly_priority priority
                                      (layer_of w ges_layer)]>) w)
        as [Hlog Haction].
      done.
    + destruct (logged_after_write
                  (LayerMoved ges_layer remembered old_priority)
                  (with_layers
                     <[ges_layer := set_ly_priority old_priority
                                      (layer_of w ges_layer)]>) w)
        as [Hlog Haction].
      done.
  - intros ges_timeline ges_layer added removed removed_and_committed.
    destruct (Hset ges_timeline ges_layer) as [Hadded Hremoved].
    split; [| split].
    + intros Hf. destruct (Hadded Hf) as [Hdo Hundo].
      unfold exec. rewrite Hdo, Hundo. cbn [fst snd].
      split; [done |]. split; [by destruct (ly_timeline _) |].
      split; [done |].
      unfold removed_and_committed, removed.
      by destruct (decide (ly_timeline (layer_of w ges_layer)
                           = Some ges_timeline)).
    + intros Hf. destruct (Hremoved Hf) as [Hdo Hundo].
      unfold exec. rewrite Hdo, Hundo. cbn [fst snd].
      split; [done |].
      split; [| split; [done | by destruct (ly_timeline _)]].
      unfold removed_and_committed, removed.
      by destruct (decide (ly_timeline (layer_of w ges_layer)
                           = Some ges_timeline)).
    + unfold added. by destruct (ly_timeline _).
Qed.

(** ** The captured pairs and the replay, written out *)

Lemma lookup_child_own (l : list (PSpec * GValue)) (p : PSpec) (v : GValue) :
  NoDup (map (fun pv => ps_owner (fst pv) +:+ "::" +:+ ps_name (fst pv)) l) ->
  (p, v) ∈ l ->
  lookup_child (ps_owner p +:+ "::" +:+ ps_name p) l = Some (p, v).
Proof.
  induction l as [| [q u] l IH]; intros Hnd Hin.
  - by apply elem_of_nil in Hin.
  - cbn [map fst] in Hnd. apply NoDup_cons in Hnd as [Hfresh Hnd].
    cbn [lookup_child]. unfold child_property_name at 1.
    apply elem_of_cons in Hin as [[= <- <-] | Hin].
    + by rewrite decide_True.
    + rewrite decide_False; [by apply IH |].
      intros Heq. apply Hfresh. apply list_elem_of_fmap.
      exists (p, v). by split.
Qed.

Lemma writable_child_properties_written_out (te : TrackElement) :
  NoDup (map (fun pv => ps_owner (fst pv) +:+ "::" +:+ ps_name (fst pv))
             (te_children_props te)) ->
  writable_child_properties te
  = map (fun pv => (ps_owner (fst pv) +:+ "::" +:+ ps_name (fst pv), snd pv))
        (filter (fun pv => ps_writable (fst pv) = true /\
                           ps_name (fst pv) ∉ PROPS_TO_IGNORE)
                (te_children_props te)).
Proof.
  intros Hnd. unfold writable_child_properties, list_children_properties.
  assert (Hsub : forall l,
            (forall pv, pv ∈ l -> pv ∈ te_children_props te) ->
            map (fun prop =>
                   (child_property_name prop,
                    snd (get_child_property te (child_property_name prop))))
                (filter (fun prop => ps_writable prop = true /\
                                     ps_name prop ∉ PROPS_TO_IGNORE)
                        (map fst l))
            = map (fun pv =>
                     (ps_owner (fst pv) +:+ "::" +:+ ps_name (fst pv), snd pv))
                  (filter (fun pv => ps_writable (fst pv) = true /\
                                     ps_name (fst pv) ∉ PROPS_TO_IGNORE)
                          l)).
  { induction l as [| [p v] l IH]; intros Hl; [reflexivity |].
    cbn [map fst]. rewrite !filter_cons. cbn [fst].
    assert (IH' := IH (fun pv Hpv => Hl pv (proj2 (elem_of_cons _ _ _) (or_intror Hpv)))).
    destruct (decide (ps_writable p = true /\ ps_name p ∉ PROPS_TO_IGNORE));
      [| exact IH'].
    cbn [map fst snd]. rewrite IH'. f_equal.
    unfold get_child_property, child_property_name.
    rewrite (lookup_child_own _ p v Hnd) by (apply Hl; by left).
    reflexivity. }
  by apply Hsub.
Qed.

Lemma overwritten_written_out (f : string -> option GValue)
    (seen : list string) (l : list (PSpec * GValue)) :
  NoDup (map (fun pv => ps_owner (fst pv) +:+ "::" +:+ ps_name (fst pv)) l) ->
  (forall pv, pv ∈ l ->
     ps_owner (fst pv) +:+ "::" +:+ ps_name (fst pv) ∉ seen) ->
  overwritten f seen l
  = map (fun pv =>
           (fst pv,
            if ps_writable (fst pv)
            then default (snd pv)
                   (f (ps_owner (fst pv) +:+ "::" +:+ ps_name (fst pv)))
            else snd pv))
        l.
Proof.
  revert seen. induction l as [| [p v] l IH]; intros seen Hnd Hseen;
    [reflexivity |].
  cbn [map fst] in Hnd. apply NoDup_cons in Hnd as [Hfresh Hnd].
  cbn [overwritten map fst snd]. unfold child_property_name at 1 2.
  rewrite decide_False by (apply (Hseen (p, v)); by left).
  f_equal. apply IH; [exact Hnd |].
  intros pv Hpv [Heq | Hin]%elem_of_cons.
  - apply Hfresh. apply list_elem_of_fmap. exists pv.
    unfold child_property_name in Heq. by split.
  - by apply (Hseen pv (proj2 (elem_of_cons _ _ _) (or_intror Hpv))).
Qed.

Lemma replayed_written_out (props : list (string * GValue))
    (l : list (PSpec * GValue)) :
  NoDup (map (fun pv => ps_owner (fst pv) +:+ "::" +:+ ps_name (fst pv)) l) ->
  replayed props l
  = map (fun pv =>
           (fst pv,
            if ps_writable (fst pv)
            then default (snd pv)
                   (last_value
                      (ps_owner (fst pv) +:+ "::" +:+ ps_name (fst pv)) props)
            else snd pv))
        l.
Proof.
  intros Hnd. rewrite replayed_overwritten.
  apply (overwritten_written_out (fun x => last_value x props) [] l Hnd).
  intros pv _ Hin. by apply elem_of_nil in Hin.
Qed.

(** C5: [TrackElementAdded.undo] records name and live value of every
    child property that is writable and not ignored, as the element has
    them when the call starts, removes the element from the clip and
    drops its reference to it; [TrackElementAdded.do] extracts a new
    element from the stored asset (under a handle no object had before,
    so never the old element), appends it to the clip and writes the
    recorded pairs to it in order.  [TrackElementRemoved] does the same
    with [do] and [undo] exchanged.  For an element whose child
    properties have distinct qualified names, the recorded list is, in
    the order of the properties, the pair of the name <owner>::<name> and
    the value the property has, and the replay gives every writable
    property the value of the last recorded pair of its qualified name
    and leaves the other properties as the asset yields them. *)
Theorem track_element_actions_capture_and_reinstantiate (w : World)
    (self clip asset : nat) (held : option nat)
    (props : list (string * GValue)) (changed : PropsChanged) :
  self < w_next_id w ->
  (forall track_element,
     a_fields (action_of w self)
       = TrackElementAdded clip (Some track_element) asset props changed ->
     captures_then_removes (undo self) self clip track_element Undone w) /\
  (a_fields (action_of w self)
     = TrackElementAdded clip held asset props changed ->
   reinstantiates (do self) self clip asset props Done w) /\
  (forall track_element,
     a_fields (action_of w self)
       = TrackElementRemoved clip (Some track_element) asset props changed ->
     captures_then_removes (do self) self clip track_element Done w) /\
  (a_fields (action_of w self)
     = TrackElementRemoved clip held asset props changed ->
   reinstantiates (undo self) self clip asset props Undone w) /\
  (forall te,
     NoDup (map (fun pv => ps_owner (fst pv) +:+ "::" +:+ ps_name (fst pv))
                (te_children_props te)) ->
     writable_child_properties te
     = map (fun pv =>
              (ps_owner (fst pv) +:+ "::" +:+ ps_name (fst pv), snd pv))
           (filter (fun pv => ps_writable (fst pv) = true /\
                              ps_name (fst pv) ∉ PROPS_TO_IGNORE)
                   (te_children_props te))) /\
  (forall recorded l,
     NoDup (map (fun pv => ps_owner (fst pv) +:+ "::" +:+ ps_name (fst pv))
                l) ->
     replayed recorded l
     = map (fun pv =>
              (fst pv,
               if ps_writable (fst pv)
               then default (snd pv)
                      (last_value
                         (ps_owner (fst pv) +:+ "::" +:+ ps_name (fst pv))
                         recorded)
               else snd pv))
           l) /\
  (forall te name v,
     (name, v) ∈ writable_child_properties te <->
     exists prop, prop ∈ list_children_properties te /\
                  ps_writable prop = true /\
                  (ps_name prop ∉ PROPS_TO_IGNORE) /\
                  name = child_property_name prop /\
                  v = snd (get_child_property te name)) /\
  (forall name v tv p l,
     NoDup (map fst props) -> (name, v) ∈ props ->
     lookup_child name l = Some (p, tv) -> ps_writable p = true ->
     lookup_child name (replayed props l) = Some (p, v)).
Proof.
  intros Hself.
  split; [| split; [| split; [| split; [| split; [| split; [| split]]]]]].
  - intros track_element Hf.
    apply capture_and_remove_achieves; [exact Hself | by rewrite Hf |].
    unfold undo, bind at 1, get. by rewrite Hf.
  - intros Hf.
    apply reinstantiate_achieves; [exact Hself | by rewrite Hf |].
    unfold do, bind at 1, get. by rewrite Hf.
  - intros track_element Hf.
    apply capture_and_remove_achieves; [exact Hself | by rewrite Hf |].
    unfold do, bind at 1, get. by rewrite Hf.
  - intros Hf.
    apply reinstantiate_achieves; [exact Hself | by rewrite Hf |].
    unfold undo, bind at 1, get. by rewrite Hf.
  - apply writable_child_properties_written_out.
  - apply replayed_written_out.
  - apply writable_child_properties_elem.
  - intros name v tv p l. apply replayed_lookup.
Qed.

(** ** Registrations repeated before the element is attached *)





(** ** Changes of animated child properties *)






End Timeline.












(** * Examples *)

(** A decidable fact about a concrete project, settled by evaluation. *)
Ltac by_evaluation :=
  match goal with
  | |- ?P => apply (@bool_decide_unpack P _); vm_compute; exact I
  end.

(** Adding the effect of asset 3 to clip 2 leads from [studio] to
    [studio_with_effect]. *)
Example add_asset_in_studio :
  add_asset ignored 2 3 studio = (Ok 10, studio_with_effect).
Proof. vm_compute. reflexivity. Qed.

Lemma addTrackElement_tracked_is_noop_witness :
  TrackElementChildPropertyTracker_addTrackElement ignored 10 studio_with_effect
  = (Ok tt, studio_with_effect).
Proof.
  apply (addTrackElement_tracked_is_noop ignored studio_with_effect 10).
  by_evaluation.
Defined.

(** [studio_animated] holds what [set_control_source] leaves when the
    alpha property of the effect is animated under its name. *)
Example animate_in_studio :
  w_model (exec (set_control_source ignored 10 5 "alpha") studio_with_effect)
  = w_model studio_animated.
Proof. vm_compute. reflexivity. Qed.




Lemma marks_of_value_removed_and_layer_actions_witness :
  a_state (action_of (exec (do ignored 23) studio_actions) 23) = Undone
  /\ a_state (action_of (exec (undo ignored 23) studio_actions) 23) = Done
  /\ a_state (action_of (exec (do ignored 20) studio_actions) 20) = Pending.
Proof.
  destruct (proj1 (marks_of_value_removed_and_layer_actions ignored
                     studio_actions 23) 10 5
              {| kf_timestamp := 0%N; kf_value := 3%Z |} "alpha")
    as (_ & Hdo & _ & Hundo); [vm_compute; reflexivity |].
  destruct (proj2 (marks_of_value_removed_and_layer_actions ignored
                     studio_actions 20) 0 4 0%N 0%N)
    as (_ & Hlayer & _); [left; vm_compute; reflexivity |].
  split; [exact Hdo |]. split; [exact Hundo |].
  unfold action_of. rewrite Hlayer. vm_compute; reflexivity.
Defined.

Lemma layer_actions_effects_witness :
  let o := studio_actions_observer in
  let done := oexec (notified 1 (do ignored 22)) o in
  ly_priority (layer_of (ob_world done) 1) = 3%N
  /\ m_timelines (w_model (ob_world done))
     = m_timelines (w_model studio_actions)
  /\ w_action_log (ob_world done)
     = w_action_log studio_actions ++ [w_next_id studio_actions]
  /\ action_of (ob_world done) (w_next_id studio_actions)
     = pending (LayerMoved 1 0%N 3%N)
  /\ tl_commits (m_timelines (w_model (exec (do ignored 21) studio_actions))
                 !!! 0) = 1
  /\ tl_commits (m_timelines (w_model (exec (undo ignored 21) studio_actions))
                 !!! 0) = 0.
Proof.
  intros o done.
  destruct (proj1 (layer_actions_effects ignored o 22) 1 0%N 3%N)
    as (_ & _ & (_ & Hdone) & _ & _ & Hpushed); [vm_compute; reflexivity |].
  destruct (Hpushed 0%N) as ((Hlog & Haction & _) & _);
    [vm_compute; reflexivity | vm_compute; reflexivity |].
  destruct (proj2 (layer_actions_effects ignored o 21) 0 1)
    as (_ & Hremoved & _).
  destruct Hremoved as (_ & Hdo & _ & Hundo); [vm_compute; reflexivity |].
  split; [unfold done, layer_of; rewrite Hdone; vm_compute; reflexivity |].
  split; [unfold done; rewrite Hdone; vm_compute; reflexivity |].
  split; [exact Hlog |]. split; [exact Haction |].
  change (ob_world o) with studio_actions in Hdo, Hundo.
  rewrite Hdo, Hundo. split; vm_compute; reflexivity.
Defined.

(** C6 as stated fails: [LayerAdded.do] puts layer 4 into timeline 0 and
    requests no commit. *)
Lemma layer_added_requests_no_commit :
  let w := exec (do ignored 20) studio_actions in
  a_fields (action_of studio_actions 20) = LayerAdded 0 4
  /\ ly_timeline (layer_of studio_actions 4) = None
  /\ ly_timeline (layer_of w 4) = Some 0
  /\ tl_commits (m_timelines (w_model w) !!! 0)
     = tl_commits (m_timelines (w_model studio_actions) !!! 0).
Proof.
  cbv zeta. repeat (split; [vm_compute; reflexivity |]). vm_compute; reflexivity.
Qed.

Lemma active_toggle_witness :
  let self := 40 in
  let pushed := exec (ActivePropertyChanged_init 13 false) studio_actions in
  a_fields (action_of pushed self) = ActivePropertyChanged 13 true
  /\ te_active (element (exec (undo_redo ignored self 1) pushed) 10) = true
  /\ te_active (element (exec (undo_redo ignored self 2) pushed) 10) = false
  /\ te_active (element (exec (do ignored self ;; do ignored self) pushed) 10)
     = false.
Proof.
  destruct (active_toggle ignored studio_actions 13 10 false)
    as (_ & Hstored & Hlog & _ & _ & Htwice).
  - vm_compute. lia.
  - vm_compute; reflexivity.
  - split; [exact Hstored |].
    split; [exact (proj1 (proj2 (Hlog 0))) |].
    split; [exact (proj1 (proj2 (Hlog 1))) | exact Htwice].
Defined.

Lemma disconnectFromControlSource_twice_witness :
  let observed :=
    exec (TimelineObserver_connectToControlSource 10 alpha_binding true)
      studio_animated in
  let once :=
    exec (TimelineObserver_disconnectFromControlSource alpha_binding)
      observed in
  fst (TimelineObserver_disconnectFromControlSource alpha_binding observed)
    = Ok tt
  /\ TimelineObserver_disconnectFromControlSource alpha_binding once
     = (Ok tt,
        with_debug (fun d => d ++ [MsgControlSourceAlreadyDisconnected 5])
          once).
Proof.
  split; [vm_compute; reflexivity |].
  apply disconnectFromControlSource_twice.
  - vm_compute; reflexivity.
  - by_evaluation.
Defined.

(** C7 fails on the code.  The observer attaches a keyframe tracker to
    control source 5 and detaches it again.  After that the tracker
    still holds its snapshot, its callbacks for added and removed values
    are still connected to the source, and a value added to the source
    still changes the tracker. *)
Theorem keyframe_tracker_detach_is_partial :
  let observed :=
    exec (TimelineObserver_connectToControlSource 10 alpha_binding true)
      studio_animated in
  let tracker := w_next_id studio_animated + 2 in
  let detached :=
    exec (KeyframeChangeTracker_disconnectFromObject tracker 5) observed in
  let later := exec (control_source_set ignored 5 1%N 7%Z) detached in
  w_control_source_keyframe_trackers observed !! 5 = Some tracker
  /\ fst (KeyframeChangeTracker_disconnectFromObject tracker 5 observed)
     = Ok tt
  /\ kt_keyframes (tracker_of detached tracker)
     = Some {[ 0%N := (0%N, 3%Z) ]}
  /\ map (fun c => (cn_signal c, cn_callback c))
         (filter (fun c => cn_obj c = OControlSource 5)
                 (w_connections detached))
     = [ (value_added, TO_controlSourceKeyFrameAddedCb);
         (value_removed, TO_controlSourceKeyFrameRemovedCb);
         (value_added, KCT_keyframeAddedCb tracker);
         (value_removed, KCT_keyframeRemovedCb tracker) ]
  /\ kt_keyframes (tracker_of later tracker)
     = Some {[ 0%N := (0%N, 3%Z); 1%N := (1%N, 7%Z) ]}.
Proof.
  cbv zeta. repeat (split; [vm_compute; reflexivity |]). vm_compute; reflexivity.
Qed.

Lemma track_element_actions_capture_and_reinstantiate_witness :
  let changed :=
    exec (set_child_property ignored 10 "GstAlpha::alpha" (GInt 9))
      studio_with_effect in
  let undone := exec (undo ignored 13) changed in
  let redone := exec (do ignored 13) undone in
  let fresh := w_next_id undone in
  13 < w_next_id changed
  /\ track_element_props_attribute (a_fields (action_of undone 13))
     = [("GstAlpha::alpha", GInt 9)]
  /\ c_children (clip_of undone 2) = []
  /\ track_element_attribute (a_fields (action_of undone 13)) = None
  /\ track_element_attribute (a_fields (action_of redone 13)) = Some fresh
  /\ fresh <> 10
  /\ c_children (clip_of redone 2) = [fresh]
  /\ te_children_props (m_assets (w_model undone) !!! 3)
     = [(alpha, GInt 1); (qos, GBool false); (angle, GInt 5)]
  /\ te_children_props (element redone fresh)
     = [(alpha, GInt 9); (qos, GBool false); (angle, GInt 5)].
Proof.
  intros changed undone redone fresh.
  assert (Hself : 13 < w_next_id changed) by (vm_compute; lia).
  assert (Hself' : 13 < w_next_id undone) by (vm_compute; lia).
  split; [exact Hself |].
  destruct (track_element_actions_capture_and_reinstantiate ignored
              changed 13 2 3 (Some 10) [] NoPropsChanged Hself)
    as (Hundo & _ & _ & _ & Hcaptured & _).
  destruct (Hundo 10 ltac:(vm_compute; reflexivity))
    as (Hchildren & Hruns & Hprops).
  destruct (Hprops (Hruns ltac:(by_evaluation))) as (Hrecorded & Hheld & _).
  destruct (track_element_actions_capture_and_reinstantiate ignored
              undone 13 2 3 None [("GstAlpha::alpha", GInt 9)]
              (TrackedPropsOf 10) Hself')
    as (_ & Hdo & _ & _ & _ & Hreplayed & _).
  destruct (Hdo ltac:(vm_compute; reflexivity))
    as (_ & Hnew & _ & _ & Hclip & Helement).
  split.
  { fold undone in Hrecorded. rewrite Hrecorded.
    rewrite Hcaptured by by_evaluation. vm_compute. reflexivity. }
  split; [fold undone in Hchildren; rewrite Hchildren; vm_compute; reflexivity |].
  split; [exact Hheld |]. split; [exact Hnew |].
  split; [vm_compute; lia |].
  split; [fold redone in Hclip; rewrite Hclip; vm_compute; reflexivity |].
  split; [vm_compute; reflexivity |].
  fold redone fresh in Helement. rewrite Helement.
  cbn [te_children_props set_te_children_props].
  rewrite Hreplayed by by_evaluation. vm_compute. reflexivity.
Defined.

(** C1 as stated fails: control source 5 holds the keyframe (1, 7) and the
    action 25 records the snapshots (0, 3) and (1, 7).  [do] alone
    leaves the source with the keyframe at 1 only; [undo] writes (0, 3)
    and removes nothing, so that after [do(); undo(); do()] the source
    also holds a keyframe at 0. *)
Lemma keyframe_changed_other_timestamp_differs :
  let w := studio_keyframe_moved in
  let round_trip := do ignored 25 ;; undo ignored 25 ;; do ignored 25 in
  a_fields (action_of w 25)
    = ControlSourceKeyframeChanged 5 (0%N, 3%Z) (1%N, 7%Z)
  /\ fst (round_trip w) = Ok tt
  /\ source_of (exec (do ignored 25) w) 5 !! 0%N = None
  /\ source_of (exec round_trip w) 5 !! 0%N = Some 3%Z
  /\ ~ observably_equal (exec round_trip w) (exec (do ignored 25) w).
Proof.
  cbv zeta. split; [vm_compute; reflexivity |].
  split; [vm_compute; reflexivity |].
  split; [vm_compute; reflexivity |].
  split; [vm_compute; reflexivity |].
  intros (_ & _ & Hsources). specialize (Hsources 5).
  apply (f_equal (fun s => s !! 0%N)) in Hsources.
  vm_compute in Hsources. discriminate.
Qed.

Lemma do_undo_do_round_trip_witness :
  let round_trip := do ignored 13 ;; undo ignored 13 ;; do ignored 13 in
  round_trip_ready ignored studio_with_effect 13
  /\ fst (round_trip studio_with_effect) = Ok tt
  /\ observably_equal (exec round_trip studio_with_effect)
       (exec (do ignored 13) studio_with_effect).
Proof.
  cbv zeta.
  assert (Hready : round_trip_ready ignored studio_with_effect 13).
  { split; [vm_compute; lia |]. split.
    - apply allocated_children. by_evaluation.
    - vm_compute. intros name Hin. inversion Hin. }
  assert (Hret : fst ((do ignored 13 ;; undo ignored 13 ;; do ignored 13)
                        studio_with_effect) = Ok tt)
    by (vm_compute; reflexivity).
  split; [exact Hready |]. split; [exact Hret |].
  apply (do_undo_do_round_trip ignored studio_with_effect 13 Hready Hret).
Defined.

(** ** Keyframes of an observed control source *)

(** Nothing is connected to control source 5 of the studio. *)
Lemma studio_unobserved : unobserved studio_with_effect 5.
Proof.
  intros c Hc. revert c Hc. apply Forall_forall. by_evaluation.
Qed.

(** The tracker that [_connectToControlSource] makes for control source 5
    is object 16; its cache is the snapshot of the source. *)
Lemma studio_observed_cache :
  kt_keyframes
    (tracker_of
       (exec (TimelineObserver_connectToControlSource 10 alpha_binding true)
          studio_with_effect) 16)
  = Some (snapshot_of (source_of studio_with_effect 5)).
Proof.
  unfold exec. rewrite connectToControlSource_eq. cbn [snd].
  unfold tracker_of.
  change 16 with (2 + w_next_id studio_with_effect).
  by rewrite observing_tracker.
Qed.

Lemma keyframe_cache_follows_source_witness :
  let observed :=
    exec (TimelineObserver_connectToControlSource 10 alpha_binding true)
      studio_with_effect in
  let keyframe := {| kf_timestamp := 1%N; kf_value := 7%Z |} in
  kt_keyframes
    (tracker_of
       (exec (KeyframeChangeTracker_keyframeAddedCb 16 5 keyframe) observed)
       16)
  = Some (snapshot_of (<[1%N := 7%Z]> (source_of studio_with_effect 5))).
Proof.
  cbv zeta.
  apply (keyframe_cache_follows_source
           (exec (TimelineObserver_connectToControlSource 10 alpha_binding
                    true) studio_with_effect)
           16 5 (source_of studio_with_effect 5)
           {| kf_timestamp := 1%N; kf_value := 7%Z |}
           studio_observed_cache).
Defined.

Lemma keyframeMovedCb_logs_change_witness :
  let observed :=
    exec (TimelineObserver_connectToControlSource 10 alpha_binding true)
      studio_with_effect in
  let moved :=
    KeyframeChangeTracker_keyframeMovedCb 16 5
      {| kf_timestamp := 0%N; kf_value := 4%Z |} in
  w_action_log (exec moved observed) = [13; 21] /\
  a_fields (action_of (exec moved observed) 21)
    = ControlSourceKeyframeChanged 5 (0%N, 3%Z) (0%N, 4%Z).
Proof.
  cbv zeta.
  destruct (proj1 (keyframeMovedCb_logs_change
              (exec (TimelineObserver_connectToControlSource 10
                       alpha_binding true) studio_with_effect)
              16 5 (source_of studio_with_effect 5)
              {| kf_timestamp := 0%N; kf_value := 4%Z |}
              {| cn_id := 20; cn_obj := OKeyframeTracker 16;
                 cn_signal := keyframe_moved;
                 cn_callback := TO_controlSourceKeyFrameMovedCb;
                 cn_data := None |}
              studio_observed_cache ltac:(vm_compute; reflexivity)
              ltac:(reflexivity)) 3%Z ltac:(vm_compute; reflexivity))
    as (_ & _ & Hlog & Haction & _).
  split; [exact Hlog | exact (f_equal a_fields Haction)].
Defined.

Lemma observed_source_logs_added_keyframe_witness :
  let observed :=
    exec (TimelineObserver_connectToControlSource 10 alpha_binding
            false) studio_with_effect in
  let w' := exec (control_source_set ignored 5 1%N 7%Z) observed in
  w_action_log w' = [13; 21] /\
  a_fields (action_of w' 21)
    = ControlSourceValueAdded 10 5 {| kf_timestamp := 1%N; kf_value := 7%Z |}
        "alpha".
Proof.
  cbv zeta.
  destruct (observed_source_logs_added_keyframe ignored studio_with_effect 10
              alpha_binding false 1%N 7%Z studio_unobserved
              ltac:(vm_compute; reflexivity))
    as (_ & Hlog & Haction & _).
  split; [exact Hlog | exact (f_equal a_fields Haction)].
Defined.

Lemma observed_source_logs_changed_keyframe_witness :
  let observed :=
    exec (TimelineObserver_connectToControlSource 10 alpha_binding
            false) studio_with_effect in
  let w' := exec (control_source_set ignored 5 0%N 4%Z) observed in
  w_action_log w' = [13; 21] /\
  a_fields (action_of w' 21)
    = ControlSourceKeyframeChanged 5 (0%N, 3%Z) (0%N, 4%Z).
Proof.
  cbv zeta.
  destruct (observed_source_logs_changed_keyframe ignored studio_with_effect
              10 alpha_binding false 0%N 3%Z 4%Z studio_unobserved
              ltac:(vm_compute; reflexivity))
    as (Hlog & Haction & _).
  split; [exact Hlog | exact (f_equal a_fields Haction)].
Defined.

Lemma observed_source_logs_removed_keyframe_witness :
  let observed :=
    exec (TimelineObserver_connectToControlSource 10 alpha_binding
            false) studio_with_effect in
  let w' := exec (control_source_unset ignored 5 0%N) observed in
  w_action_log w' = [13; 21] /\
  a_fields (action_of w' 21)
    = ControlSourceValueRemoved 10 5
        {| kf_timestamp := 0%N; kf_value := 3%Z |} "alpha".
Proof.
  cbv zeta.
  destruct (observed_source_logs_removed_keyframe ignored studio_with_effect
              10 alpha_binding false 0%N 3%Z studio_unobserved
              ltac:(vm_compute; reflexivity))
    as (Hlog & Haction & _).
  split; [exact Hlog | exact (f_equal a_fields Haction)].
Defined.

Lemma control_source_observation_ends_witness :
  let observed :=
    exec (TimelineObserver_connectToControlSource 10 alpha_binding
            false) studio_with_effect in
  let w' := exec (TimelineObserver_disconnectFromControlSource alpha_binding)
              observed in
  map cn_callback (w_connections w')
  = map cn_callback (w_connections studio_with_effect)
    ++ [KCT_keyframeAddedCb 16; KCT_keyframeRemovedCb 16] /\
  w_action_log (exec (control_source_set ignored 5 1%N 7%Z) w') = [13].
Proof.
  cbv zeta.
  destruct (control_source_observation_ends ignored studio_with_effect 10
              alpha_binding false studio_unobserved)
    as (_ & _ & Hconns & _ & _ & Hset & _).
  split; [by rewrite Hconns, map_app | apply Hset].
Defined.

(** ** Edge behaviour of the actions *)

Lemma capture_twice_raises_witness :
  let undone := exec (undo ignored 13) studio_with_effect in
  undo ignored 13 undone = (Raise AttributeError, undone).
Proof.
  cbv zeta.
  apply (proj1 (capture_twice_raises ignored studio_with_effect 13 2 10 3 []
                  NoPropsChanged ltac:(vm_compute; lia)));
    vm_compute; reflexivity.
Defined.

(** Only [_clipTrackElementRemovedCb] hears of a removal from clip 2. *)
Lemma studio_removal_listeners (c : Connection) :
  c ∈ w_connections studio_unattached_added ->
  listens (OClip 2) child_removed c = true ->
  cn_callback c = TO_clipTrackElementRemovedCb.
Proof.
  revert c.
  apply (proj1 (Forall_forall
                  (fun c => listens (OClip 2) child_removed c = true ->
                            cn_callback c = TO_clipTrackElementRemovedCb)
                  (w_connections studio_unattached_added))).
  by_evaluation.
Qed.

Lemma capture_of_untracked_element_fails_late_witness :
  let w' := exec (undo ignored 13) studio_unattached_added in
  fst (undo ignored 13 studio_unattached_added) = Raise KeyError /\
  c_children (clip_of w' 2) = [] /\
  a_state (action_of w' 13) = Pending /\
  track_element_attribute (a_fields (action_of w' 13)) = Some 10.
Proof.
  cbv zeta.
  destruct (proj1 (capture_of_untracked_element_fails_late ignored
                     studio_unattached_added 13 2 10 3 [] NoPropsChanged
                     ltac:(vm_compute; lia) ltac:(vm_compute; reflexivity)
                     studio_removal_listeners)
              ltac:(vm_compute; reflexivity))
    as (Hraise & Hchildren & Haction).
  split; [exact Hraise |]. split; [by rewrite Hchildren |].
  by rewrite Haction.
Defined.

Lemma ClipPropertyChanged_writes_property_witness :
  c_props (clip_of (exec (do ignored 27) studio_actions) 2) !! "in-point"
    = Some (GInt 2) /\
  c_props (clip_of (exec (undo ignored 27) studio_actions) 2) !! "in-point"
    = Some (GInt 0).
Proof.
  pose proof (ClipPropertyChanged_writes_property ignored studio_actions
                27 2 "in-point" (GInt 0) (GInt 2)
                ltac:(vm_compute; reflexivity)) as [Hsome _].
  destruct Hsome as (_ & _ & Hdo & Hundo); [by_evaluation |].
  rewrite Hdo, Hundo. split; apply lookup_insert_eq.
Defined.

Lemma keyframe_actions_do_undo_witness :
  source_of (exec (do ignored 24 ;; undo ignored 24) studio_actions) 5
    = source_of studio_actions 5 /\
  source_of (exec (do ignored 23 ;; undo ignored 23) studio_actions) 5 !! 0%N
    = Some 3%Z.
Proof.
  destruct (proj1 (keyframe_actions_do_undo ignored studio_actions 24 10 5
                     {| kf_timestamp := 1%N; kf_value := 7%Z |} "alpha"
                     ltac:(vm_compute; lia)) ltac:(vm_compute; reflexivity))
    as (_ & Hsame).
  pose proof (proj2 (keyframe_actions_do_undo ignored studio_actions 23 10 5
                       {| kf_timestamp := 0%N; kf_value := 3%Z |} "alpha"
                       ltac:(vm_compute; lia))
                ltac:(vm_compute; reflexivity)) as Hremoved.
  split; [apply Hsame; vm_compute; reflexivity |].
  cbv zeta in Hremoved. rewrite Hremoved. apply lookup_insert_eq.
Defined.

Lemma layer_moved_cb_logs_move_witness :
  ob_layers_priorities studio_layer_moved !! 1 = Some 0%N /\
  action_of
    (ob_world (snd (TimelineObserver_layer_moved_cb 1 studio_layer_moved))) 10
  = pending (LayerMoved 1 0%N 2%N) /\
  ly_priority
    (layer_of
       (exec (undo ignored 10)
          (ob_world
             (snd (TimelineObserver_layer_moved_cb 1 studio_layer_moved)))) 1)
  = 0%N.
Proof.
  split; [reflexivity |].
  destruct (layer_moved_cb_logs_move ignored studio_layer_moved 1)
    as [_ Hknown].
  destruct (Hknown 0%N ltac:(reflexivity))
    as (_ & _ & _ & _ & _ & Haction & Hundo & _).
  split; [exact Haction | exact Hundo].
Defined.

Lemma layer_connection_round_trip_witness :
  TimelineObserver_disconnect_from_layer 1
    (snd (TimelineObserver_connect_to_layer 1 studio_observer))
  = (Ok tt, studio_observer).
Proof.
  apply (layer_connection_round_trip studio_observer 1);
    [reflexivity | constructor].
Defined.

Lemma disconnect_from_layer_failures_witness :
  TimelineObserver_disconnect_from_layer 1 studio_observer
  = (Raise KeyError, studio_observer) /\
  TimelineObserver_disconnect_from_layer 1 studio_layer_unconnected
  = (Raise TypeError,
     with_ob_layers_priorities (delete 1) studio_layer_unconnected).
Proof.
  split.
  - apply (disconnect_from_layer_failures studio_observer 1). reflexivity.
  - apply (disconnect_from_layer_failures studio_layer_unconnected 1);
      [by eexists | constructor].
Defined.

Lemma layer_callbacks_log_actions_witness :
  w_action_log
    (ob_world
       (snd (TimelineObserver_layerRemovedCb 0 1
               (snd (TimelineObserver_layerAddedCb 0 1 studio_observer)))))
  = [10; 11] /\
  TimelineObserver_layerRemovedCb 0 1 studio_observer
  = (Raise KeyError, studio_observer).
Proof.
  destruct (layer_callbacks_log_actions studio_observer 0 1)
    as (_ & Hkey & Hremoved).
  destruct (Hremoved ltac:(reflexivity) ltac:(constructor))
    as (_ & _ & _ & _ & Hlog & _).
  split; [exact Hlog | apply Hkey; reflexivity].
Defined.

Lemma successive_layer_moves_chain_witness :
  let move p :=
    obind (lift (update_layer 1 (set_ly_priority p)))
      (fun _ => TimelineObserver_layer_moved_cb 1) in
  let moved :=
    obind (move 2%N) (fun _ => move 5%N) studio_layer_observer in
  action_of (ob_world (snd moved)) 10 = pending (LayerMoved 1 0%N 2%N) /\
  action_of (ob_world (snd moved)) 11 = pending (LayerMoved 1 2%N 5%N).
Proof.
  destruct (successive_layer_moves_chain studio_layer_observer 1
              0%N 2%N 5%N ltac:(reflexivity))
    as (_ & _ & Hfirst & Hsecond & _).
  split; [exact Hfirst | exact Hsecond].
Defined.

Lemma clipPropertyChangedCb_logs_change_witness :
  action_of
    (ob_world
       (snd (TimelineObserver_clipPropertyChangedCb 15 2 "duration"
               GNone GNone studio_observer))) 10
  = pending (ClipPropertyChanged 2 "duration" (GInt 4) (GInt 10)) /\
  TimelineObserver_clipPropertyChangedCb 15 2 "volume" GNone GNone
    studio_observer
  = (Raise TypeError, studio_observer) /\
  TimelineObserver_clipPropertyChangedCb 15 2 "priority" GNone GNone
    studio_observer
  = (Raise AttributeError, studio_observer).
Proof.
  split; [| split].
  - destruct (clipPropertyChangedCb_logs_change ignored studio_observer
                15 2 "duration" GNone GNone) as [_ Hrunning].
    destruct (Hrunning ltac:(reflexivity)) as (_ & _ & Hlogs).
    destruct (Hlogs (GInt 10) (GInt 4)
                ltac:(vm_compute; reflexivity) ltac:(vm_compute; reflexivity))
      as (_ & _ & _ & Haction & _).
    exact Haction.
  - destruct (clipPropertyChangedCb_logs_change ignored studio_observer
                15 2 "volume" GNone GNone) as [_ Hrunning].
    destruct (Hrunning ltac:(reflexivity)) as (Htype & _).
    apply Htype. vm_compute. reflexivity.
  - destruct (clipPropertyChangedCb_logs_change ignored studio_observer
                15 2 "priority" GNone GNone) as [_ Hrunning].
    destruct (Hrunning ltac:(reflexivity)) as (_ & Hattribute & _).
    apply Hattribute; [by_evaluation | vm_compute; reflexivity].
Defined.

Lemma LayerMoved_scenario_action_follows_layer_witness :
  fst (LayerMoved_asScenarioAction 1 (exec (do ignored 22) studio_actions))
  = Ok {| st_name := "move-layer";
          st_fields := [("priority", GInt 3)] |} /\
  fst (LayerMoved_asScenarioAction 1 (exec (undo ignored 22) studio_actions))
  = Ok {| st_name := "move-layer";
          st_fields := [("priority", GInt 0)] |}.
Proof.
  apply (LayerMoved_scenario_action_follows_layer ignored studio_actions
           22 1 0%N 3%N).
  vm_compute. reflexivity.
Defined.
